(** * JS8Chess: the game-session controller, embedded and verified

    A shallow embedding of [js8chess/protocol.py], [js8chess/game.py] and
    [js8chess/engine.py].  Python strings are [string]s (the wire format is
    ASCII, and the string helpers below agree with Python's on ASCII text),
    Python integers are [Z], [None] is [None].  The chess rules library
    (python-chess) is an interface, [ChessLib]; the notation file lives in a
    file system modelled as a finite map from paths to file contents. *)

From Stdlib Require Import ZArith Ascii String Bool List Lia.
From stdpp Require Import base option list strings gmap.

Local Open Scope Z_scope.

(** ** Python string operations *)

Module PyStr.

Definition code (c : ascii) : N := N_of_ascii c.

Definition in_range (lo hi : N) (c : ascii) : bool :=
  ((lo <=? code c) && (code c <=? hi))%N.

(** [str.isspace] on an ASCII character. *)
Definition isspace (c : ascii) : bool :=
  in_range 9 13 c || in_range 28 32 c.

(** [\d] on an ASCII character. *)
Definition isdigit (c : ascii) : bool := in_range 48 57 c.

Definition upper_char (c : ascii) : ascii :=
  if in_range 97 122 c then ascii_of_N (code c - 32) else c.

Definition lower_char (c : ascii) : ascii :=
  if in_range 65 90 c then ascii_of_N (code c + 32) else c.

Fixpoint smap (f : ascii -> ascii) (s : string) : string :=
  match s with
  | EmptyString => EmptyString
  | String c s' => String (f c) (smap f s')
  end.

Definition upper : string -> string := smap upper_char.
Definition lower : string -> string := smap lower_char.

Fixpoint sall (p : ascii -> bool) (s : string) : bool :=
  match s with
  | EmptyString => true
  | String c s' => p c && sall p s'
  end.

Fixpoint lstrip (s : string) : string :=
  match s with
  | EmptyString => EmptyString
  | String c s' => if isspace c then lstrip s' else s
  end.

Fixpoint rstrip (s : string) : string :=
  match s with
  | EmptyString => EmptyString
  | String c s' =>
      match rstrip s' with
      | EmptyString => if isspace c then EmptyString else String c EmptyString
      | r => String c r
      end
  end.

(** [s.strip()] *)
Definition strip (s : string) : string := rstrip (lstrip s).

(** The first, respectively the last, character exists and is not white
    space: the strings [strip] leaves alone. *)
Definition starts_nonspace (s : string) : bool :=
  match s with String c _ => negb (isspace c) | EmptyString => false end.

Fixpoint ends_nonspace (s : string) : bool :=
  match s with
  | EmptyString => false
  | String c EmptyString => negb (isspace c)
  | String _ s' => ends_nonspace s'
  end.

(** [s.startswith(p)] *)
Definition startswith (s p : string) : bool := String.prefix p s.

(** [s[n:]] *)
Fixpoint str_drop (n : nat) (s : string) : string :=
  match n, s with
  | O, _ => s
  | S n', String _ s' => str_drop n' s'
  | S _, EmptyString => EmptyString
  end.

(** [s[:n]] *)
Fixpoint str_take (n : nat) (s : string) : string :=
  match n, s with
  | S n', String c s' => String c (str_take n' s')
  | _, _ => EmptyString
  end.

(** [s[a:b]] for [0 <= a <= b]. *)
Definition slice (a b : nat) (s : string) : string := str_take (b - a) (str_drop a s).

(** [int(s)] on a string of decimal digits, of at most 4300 of them:
    on a longer numeral CPython's [int] raises [ValueError]. *)
Fixpoint int_acc (acc : Z) (s : string) : Z :=
  match s with
  | EmptyString => acc
  | String c s' => int_acc (10 * acc + (Z.of_N (code c) - 48)) s'
  end.
Definition int_of_digits (s : string) : Z := int_acc 0 s.

Definition digit_char (d : Z) : ascii := ascii_of_N (Z.to_N (48 + d)).

Fixpoint digits_acc (fuel : nat) (n : Z) (acc : string) : string :=
  match fuel with
  | O => acc
  | S f =>
      let acc' := String (digit_char (n mod 10)) acc in
      if n <? 10 then acc' else digits_acc f (n / 10) acc'
  end.

(** [str(n)], as an f-string renders an integer. *)
Definition str_of_int (n : Z) : string :=
  if n <? 0 then String "-" (digits_acc (S (Z.to_nat (- n))) (- n) EmptyString)
  else digits_acc (S (Z.to_nat n)) n EmptyString.

Fixpoint zeros (k : nat) : string :=
  match k with O => EmptyString | S k' => String "0" (zeros k') end.

(** [n] zero-padded to [w] digits, as [strftime] renders a field. *)
Definition pad0 (w : nat) (n : Z) : string :=
  let s := str_of_int n in
  zeros (w - String.length s) +:+ s.

End PyStr.

(** ** The over-the-air protocol codec ([protocol.py]) *)

Module Protocol.
Import PyStr.

Inductive MsgType :=
| NEW_PROPOSAL | ACCEPTANCE | MOVE | ACK | ERROR
| RESYNC_REQUEST | RESYNC_OK | UNKNOWN.

Global Instance MsgType_eq_dec : EqDecision MsgType.
Proof. solve_decision. Defined.

Definition ERR_ILLEGAL_MOVE := "ERR01".
Definition ERR_BAD_MOVE_NUM := "ERR02".
Definition ERR_NO_SESSION := "ERR03".
Definition ERR_PARSE := "ERR04".
Definition ERR_DESYNC := "ERR05".

Definition ERR_DESCRIPTIONS : gmap string string :=
  list_to_map
    [("ERR01", "Illegal move"); ("ERR02", "Unexpected move number");
     ("ERR03", "Not in active session"); ("ERR04", "Protocol parse error");
     ("ERR05", "State desync detected")].

Record OTAMessage := {
  from_call : string;
  to_call : string;
  msg_type : MsgType;
  color : option string;
  timestamp : option string;
  move_num : option Z;
  move : option string;
  error_code : option string;
  resync_move_num : option Z;
}.

(** [OTAMessage(f, t, ty)] with every optional field at its default. *)
Definition plain (f t : string) (ty : MsgType) : OTAMessage :=
  {| from_call := f; to_call := t; msg_type := ty; color := None;
     timestamp := None; move_num := None; move := None;
     error_code := None; resync_move_num := None |}.

(** *** Scanners for the payload patterns

    Each pattern of [parse_message] is a sequence of literals, character
    classes and digit runs in which a greedy left-to-right scan is the only
    way to match, so [re.fullmatch] is a scan that must end at the end of
    the payload. *)

Definition lit (p s : string) : option string :=
  if startswith s p then Some (str_drop (String.length p) s) else None.

Definition class (p : ascii -> bool) (s : string) : option (ascii * string) :=
  match s with
  | String c s' => if p c then Some (c, s') else None
  | EmptyString => None
  end.

(** [p*], greedy: the longest run and the rest. *)
Fixpoint span (p : ascii -> bool) (s : string) : string * string :=
  match s with
  | String c s' =>
      if p c then let '(a, b) := span p s' in (String c a, b)
      else (EmptyString, s)
  | EmptyString => (EmptyString, EmptyString)
  end.

(** [\d{n}] *)
Fixpoint digits_n (n : nat) (s : string) : option (string * string) :=
  match n with
  | O => Some (EmptyString, s)
  | S n' =>
      '(c, s') ← class isdigit s;
      '(d, r) ← digits_n n' s';
      Some (String c d, r)
  end.

(** [\d+] *)
Definition digits_plus (s : string) : option (string * string) :=
  match span isdigit s with
  | (EmptyString, _) => None
  | (d, r) => Some (d, r)
  end.

Definition is_WB (c : ascii) : bool := Ascii.eqb c "W" || Ascii.eqb c "B".
Definition is_AH (c : ascii) : bool := in_range 65 72 c.
Definition is_18 (c : ascii) : bool := in_range 49 56 c.
Definition is_15 (c : ascii) : bool := in_range 49 53 c.
Definition is_QRBN (c : ascii) : bool :=
  Ascii.eqb c "Q" || Ascii.eqb c "R" || Ascii.eqb c "B" || Ascii.eqb c "N".

Definition at_end {A} (s : string) (x : A) : option A :=
  match s with EmptyString => Some x | _ => None end.

Definition chr (c : ascii) : string := String c EmptyString.

(** A callsign as it goes on the air: upper-case letters, digits and the
    slash of a portable station. *)
Definition callsign_char (c : ascii) : bool :=
  in_range 65 90 c || isdigit c || Ascii.eqb c "/".
Definition is_callsign (s : string) : bool :=
  negb (String.eqb s "") && sall callsign_char s.

(** A canonical game timestamp: twelve decimal digits. *)
Definition is_timestamp (s : string) : bool :=
  Nat.eqb (String.length s) 12 && sall isdigit s.

(** A move in coordinate notation as the engine keeps it: lower case,
    [a1b2] with an optional promotion letter. *)
Definition is_file_lc (c : ascii) : bool := in_range 97 104 c.
Definition is_promo_lc (c : ascii) : bool :=
  Ascii.eqb c "q" || Ascii.eqb c "r" || Ascii.eqb c "b" || Ascii.eqb c "n".
Definition is_uci_move (m : string) : bool :=
  match m with
  | String a (String b (String c (String d rest))) =>
      is_file_lc a && is_18 b && is_file_lc c && is_18 d
      && match rest with
         | EmptyString => true
         | String p EmptyString => is_promo_lc p
         | _ => false
         end
  | _ => false
  end.

(** The five error codes of the protocol. *)
Definition is_error_code (code : string) : bool :=
  bool_decide (code ∈ [ERR_ILLEGAL_MOVE; ERR_BAD_MOVE_NUM; ERR_NO_SESSION;
                       ERR_PARSE; ERR_DESYNC]).

(** The fields a message of each kind carries. *)
Definition well_formed (msg : OTAMessage) : Prop :=
  match msg_type msg with
  | NEW_PROPOSAL => color msg = Some "W" \/ color msg = Some "B"
  | ACCEPTANCE =>
      (color msg = Some "W" \/ color msg = Some "B") /\
      exists ts, timestamp msg = Some ts /\ is_timestamp ts = true
  | MOVE =>
      exists n m, move_num msg = Some n /\ 0 <= n /\
                  move msg = Some m /\ is_uci_move m = true
  | ERROR => exists code, error_code msg = Some code /\ is_error_code code = true
  | RESYNC_REQUEST | RESYNC_OK =>
      exists ts n, timestamp msg = Some ts /\ is_timestamp ts = true /\
                   resync_move_num msg = Some n /\ 0 <= n
  | ACK | UNKNOWN => True
  end.

(** [NEW ([WB])] *)
Definition re_new (payload : string) : option string :=
  r ← lit "NEW " payload;
  '(c, r) ← class is_WB r;
  at_end r (chr c).

(** [(\d{12}) ([WB])] *)
Definition re_acceptance (payload : string) : option (string * string) :=
  '(ts, r) ← digits_n 12 payload;
  r ← lit " " r;
  '(c, r) ← class is_WB r;
  at_end r (ts, chr c).

(** [(ERR0[1-5])\s*>?] *)
Definition re_error (payload : string) : option string :=
  r ← lit "ERR0" payload;
  '(c, r) ← class is_15 r;
  let r := (span isspace r).2 in
  let r := match lit ">" r with Some r' => r' | None => r end in
  at_end r ("ERR0" +:+ chr c).

(** [(\d{12}) MN=(\d+)], the tail shared by the two resync patterns. *)
Definition re_resync_tail (s : string) : option (string * string) :=
  '(ts, r) ← digits_n 12 s;
  r ← lit " MN=" r;
  '(n, r) ← digits_plus r;
  at_end r (ts, n).

(** [RS (\d{12}) MN=(\d+)] *)
Definition re_resync_request (payload : string) : option (string * string) :=
  r ← lit "RS " payload; re_resync_tail r.

(** [OK RS (\d{12}) MN=(\d+)] *)
Definition re_resync_ok (payload : string) : option (string * string) :=
  r ← lit "OK RS " payload; re_resync_tail r.

(** [(\d+)([A-H][1-8][A-H][1-8][QRBN]?)] *)
Definition re_move (payload : string) : option (string * string) :=
  '(n, r) ← digits_plus payload;
  '(a, r) ← class is_AH r;
  '(b, r) ← class is_18 r;
  '(c, r) ← class is_AH r;
  '(d, r) ← class is_18 r;
  let sq := String a (String b (String c (chr d))) in
  match class is_QRBN r with
  | Some (p, r) => at_end r (n, sq +:+ chr p)
  | None => at_end r (n, sq)
  end.

Definition parse_payload (remote local payload : string) : OTAMessage :=
  if String.eqb payload ">" || String.eqb payload "" then
    plain remote local ACK
  else match re_new payload with
  | Some c =>
      {| from_call := remote; to_call := local; msg_type := NEW_PROPOSAL;
         color := Some c; timestamp := None; move_num := None; move := None;
         error_code := None; resync_move_num := None |}
  | None =>
  match re_acceptance payload with
  | Some (ts, c) =>
      {| from_call := remote; to_call := local; msg_type := ACCEPTANCE;
         color := Some c; timestamp := Some ts; move_num := None;
         move := None; error_code := None; resync_move_num := None |}
  | None =>
  match re_error payload with
  | Some e =>
      {| from_call := remote; to_call := local; msg_type := ERROR;
         color := None; timestamp := None; move_num := None; move := None;
         error_code := Some e; resync_move_num := None |}
  | None =>
  match re_resync_request payload with
  | Some (ts, n) =>
      {| from_call := remote; to_call := local; msg_type := RESYNC_REQUEST;
         color := None; timestamp := Some ts; move_num := None;
         move := None; error_code := None;
         resync_move_num := Some (int_of_digits n) |}
  | None =>
  match re_resync_ok payload with
  | Some (ts, n) =>
      {| from_call := remote; to_call := local; msg_type := RESYNC_OK;
         color := None; timestamp := Some ts; move_num := None;
         move := None; error_code := None;
         resync_move_num := Some (int_of_digits n) |}
  | None =>
  match re_move payload with
  | Some (n, m) =>
      {| from_call := remote; to_call := local; msg_type := MOVE;
         color := None; timestamp := None;
         move_num := Some (int_of_digits n); move := Some (lower m);
         error_code := None; resync_move_num := None |}
  | None => plain remote local UNKNOWN
  end end end end end end.

(** [parse_message(raw_text, local_call, remote_call, from_call)];
    [None] is "not a JS8Chess message directed to us". *)
Definition parse_message (raw_text local_call remote_call from_call : string)
  : option OTAMessage :=
  let text := upper (strip raw_text) in
  let local := upper local_call in
  let remote := upper remote_call in
  let prefix := remote +:+ " " +:+ local +:+ " JS8CHESS" in
  let text' :=
    if startswith text prefix then Some text
    else
      let bare_prefix := local +:+ " JS8CHESS" in
      if startswith text bare_prefix
      then Some (remote +:+ " " +:+ text)
      else None in
  text ← text';
  if negb (String.eqb from_call "") && negb (String.eqb (upper from_call) remote)
  then None
  else
    let payload := strip (str_drop (String.length prefix) text) in
    Some (parse_payload remote local payload).

(** *** Formatters *)

Definition fmt_new_proposal (local remote color : string) : string :=
  remote +:+ " " +:+ local +:+ " JS8CHESS NEW " +:+ upper color.

Definition fmt_acceptance (local remote timestamp color : string) : string :=
  local +:+ " " +:+ remote +:+ " JS8CHESS " +:+ timestamp +:+ " " +:+ upper color.

Definition fmt_move (local remote : string) (move_num : Z) (move_uci : string) : string :=
  remote +:+ " " +:+ local +:+ " JS8CHESS " +:+ str_of_int move_num +:+ upper move_uci.

Definition fmt_error (local remote code : string) : string :=
  remote +:+ " " +:+ local +:+ " JS8CHESS " +:+ code +:+ " >".

Definition fmt_resync_request (local remote timestamp : string) (move_num : Z) : string :=
  remote +:+ " " +:+ local +:+ " JS8CHESS RS " +:+ timestamp +:+ " MN=" +:+ str_of_int move_num.

Definition fmt_resync_ok (local remote timestamp : string) (move_num : Z) : string :=
  local +:+ " " +:+ remote +:+ " JS8CHESS OK RS " +:+ timestamp +:+ " MN=" +:+ str_of_int move_num.

End Protocol.


(** ** The chess rules library (python-chess), as an interface

    The rules engine is an external collaborator.  The controller uses it
    through the operations below and never looks inside a move or a
    position. *)

Module Chess.

(** [chess.WHITE] is [True] and [chess.BLACK] is [False]. *)
Inductive Color := WHITE | BLACK.

Global Instance Color_eq_dec : EqDecision Color.
Proof. solve_decision. Defined.

(** [not c] *)
Definition other (c : Color) : Color :=
  match c with WHITE => BLACK | BLACK => WHITE end.

Section Pgn.
Context {Move : Type}.

(** [chess.pgn.ChildNode]: a move and the variations that continue it. *)
#[warnings="-register-all"] Inductive GameNode := Node (move : Move) (variations : list GameNode).

(** [chess.pgn.Game]: the headers and the variations of the root. *)
Record Game := {
  headers : gmap string string;
  root : list GameNode;
}.

(** A node of a game is named by the indices that lead to it from the
    root; [[]] is the root ([chess.pgn.Game] itself). *)
Definition NodeRef := list nat.

(** [node.add_variation(m)] inside the children [vs] of the root, for
    the node at [path]: the new children and the index the new child
    has among its siblings. *)
Fixpoint add_at (vs : list GameNode) (path : NodeRef) (m : Move)
  : list GameNode * nat :=
  match path with
  | [] => (vs ++ [Node m []], length vs)
  | i :: path' =>
      match vs !! i with
      | Some (Node mv cs) =>
          let '(cs', k) := add_at cs path' m in (<[i := Node mv cs']> vs, k)
      | None => (vs, O)
      end
  end.

Definition add_variation (g : Game) (node : NodeRef) (m : Move)
  : Game * NodeRef :=
  let '(vs, k) := add_at (root g) node m in
  ({| headers := headers g; root := vs |}, node ++ [k]).

Fixpoint mainline_node (n : GameNode) : list Move :=
  match n with
  | Node m vs =>
      m :: match vs with [] => [] | v :: _ => mainline_node v end
  end.

(** [game.mainline_moves()] *)
Definition mainline_moves (g : Game) : list Move :=
  match root g with [] => [] | v :: _ => mainline_node v end.

(** What [chess.pgn.read_game(f)] gives on a file's text. *)
Inductive ReadResult :=
| ReadRaises          (* an exception *)
| ReadNone            (* [None]: end of file, no game *)
| ReadGame (g : Game).
End Pgn.
Global Arguments GameNode : clear implicits.
Global Arguments Game : clear implicits.
Global Arguments ReadResult : clear implicits.

Class Lib := {
  Move : Type;
  Position : Type;
  (** the position of [chess.Board()] *)
  start : Position;
  (** [chess.Move.from_uci(s)]; [None] when it raises [InvalidMoveError] *)
  from_uci : string -> option Move;
  (** [move.uci()] *)
  uci : Move -> string;
  (** [move in board.legal_moves] *)
  legal : Position -> Move -> bool;
  (** the position [board.push(move)] leads to *)
  play : Position -> Move -> Position;
  (** the move [board.push(move)] appends to [board.move_stack] (the
      library stores a castling move in the board's own castling notation) *)
  stacked : Position -> Move -> Move;
  (** [board.turn] *)
  turn : Position -> Color;
  (** the headers of a fresh [chess.pgn.Game()] *)
  blank_headers : gmap string string;
  (** what [game.accept(FileExporter(f))] writes *)
  export : Game Move -> string;
  (** [chess.pgn.read_game(f)] *)
  read_game : string -> ReadResult Move;
}.

Section Board.
Context {lib : Lib}.

(** [chess.Board]: the position and the stack of moves that led to it. *)
Record Board := {
  position : Position;
  move_stack : list Move;
}.

(** [chess.Board()] *)
Definition new_board : Board := {| position := start; move_stack := [] |}.

(** [board.push(m)] *)
Definition push (b : Board) (m : Move) : Board :=
  {| position := play (position b) m;
     move_stack := move_stack b ++ [stacked (position b) m] |}.

(** [chess.pgn.Game()] *)
Definition new_game : Game Move := {| headers := blank_headers; root := [] |}.
End Board.

End Chess.

(** ** The file system *)

Module Fs.
(** The files that exist, by path, and whether opening a file for reading
    or for writing succeeds ([open] raises [OSError] otherwise). *)
Record Disk := {
  files : gmap string string;
  readable : bool;
  writable : bool;
}.

(** [with open(path, "w") as f: f.write(text)]; [None] is [OSError]. *)
Definition write_file (path text : string) (d : Disk) : option Disk :=
  if writable d
  then Some {| files := <[path := text]> (files d);
               readable := readable d; writable := writable d |}
  else None.

(** [path.exists()] *)
Definition file_exists (path : string) (d : Disk) : bool :=
  bool_decide (is_Some (files d !! path)).

(** [with open(path) as f: f.read()]; [None] is an exception. *)
Definition read_file (path : string) (d : Disk) : option string :=
  if readable d then files d !! path else None.
End Fs.

(** ** The game session ([game.py]) *)

Module Game.
Import PyStr Chess Fs.

(** [PGN_DIR]; the directory exists once the configuration was loaded, so
    the [mkdir] of the constructor has nothing to do. *)
Definition PGN_DIR : string := "~/.js8chess".

Section Session.
Context {lib : Lib}.

Record GameSession := {
  game_id : string;
  local_callsign : string;
  remote_callsign : string;
  local_color : Color;
  remote_color : Color;
  board : Board;
  pgn_game : Game Move;
  pgn_node : NodeRef;
  pgn_path : string;
}.

(** The three attributes that moves and resyncs assign. *)
Definition with_play (s : GameSession) (b : Board) (g : Game Move)
    (n : NodeRef) : GameSession :=
  {| game_id := game_id s; local_callsign := local_callsign s;
     remote_callsign := remote_callsign s; local_color := local_color s;
     remote_color := remote_color s; board := b; pgn_game := g;
     pgn_node := n; pgn_path := pgn_path s |}.

(** [GameSession(game_id, local_callsign, remote_callsign, local_color)] *)
Definition new_session (gid local remote : string) (c : Color)
  : GameSession :=
  let white_call := if decide (c = WHITE) then local else remote in
  let black_call := if decide (c = WHITE) then remote else local in
  let date_str :=
    slice 0 4 gid +:+ "." +:+ slice 4 6 gid +:+ "." +:+ slice 6 8 gid in
  let hdrs :=
    <["Result" := "*"]> (<["Black" := upper black_call]>
    (<["White" := upper white_call]> (<["Date" := date_str]>
    (<["Event" := "JS8Chess Radio Game"]> (headers new_game))))) in
  {| game_id := gid;
     local_callsign := upper local;
     remote_callsign := upper remote;
     local_color := c;
     remote_color := other c;
     board := new_board;
     pgn_game := {| headers := hdrs; root := root new_game |};
     pgn_node := [];
     pgn_path := PGN_DIR +:+ "/" +:+ upper remote +:+ "-" +:+ gid +:+ ".pgn" |}.

(** [session.expected_move_num] *)
Definition expected_move_num (s : GameSession) : Z :=
  Z.of_nat (length (move_stack (board s))) + 1.

Definition is_local_turn (s : GameSession) : bool :=
  bool_decide (turn (position (board s)) = local_color s).

Definition is_remote_turn (s : GameSession) : bool :=
  bool_decide (turn (position (board s)) = remote_color s).

(** [session.move_list_uci()]: the loop appends [move.uci()] for every
    move of the stack (the scratch board it also pushes to is not used). *)
Definition move_list_uci (s : GameSession) : list string :=
  fold_left (fun moves mv => moves ++ [uci mv]) (move_stack (board s)) [].

(** [session.validate_move(uci_move)] *)
Definition validate_move (s : GameSession) (uci_move : string) : bool :=
  match from_uci uci_move with
  | Some mv => legal (position (board s)) mv
  | None => false
  end.

(** [session._save_pgn()]: an [OSError] is logged and swallowed. *)
Definition save_pgn (s : GameSession) (d : Disk) : Disk :=
  match write_file (pgn_path s) (export (pgn_game s)) d with
  | Some d' => d'
  | None => d
  end.

(** [session.apply_move(uci_move)] *)
Definition apply_move (s : GameSession) (uci_move : string) (d : Disk)
  : bool * GameSession * Disk :=
  match from_uci uci_move with
  | None => (false, s, d)
  | Some mv =>
      if negb (legal (position (board s)) mv) then (false, s, d)
      else
        let b := push (board s) mv in
        let '(g, n) := add_variation (pgn_game s) (pgn_node s) mv in
        let s' := with_play s b g n in
        (true, s', save_pgn s' d)
  end.

(** The loop of [restore_to_ply]: push mainline moves until [applied]
    reaches [target_ply]; [node.next()] is the first variation. *)
Fixpoint replay (target_ply : Z) (moves : list Move)
    (b : Board) (node : NodeRef) (applied : Z) : Board * NodeRef * Z :=
  match moves with
  | [] => (b, node, applied)
  | mv :: rest =>
      if target_ply <=? applied then (b, node, applied)
      else replay target_ply rest (push b mv) (node ++ [O]) (applied + 1)
  end.

(** [session.restore_to_ply(target_ply)] *)
Definition restore_to_ply (s : GameSession) (target_ply : Z) (d : Disk)
  : bool * GameSession :=
  if negb (file_exists (pgn_path s) d) then (false, s)
  else
    match read_file (pgn_path s) d with
    | None => (false, s)
    | Some text =>
        match read_game text with
        | ReadRaises => (false, s)
        | ReadNone => (false, s)
        | ReadGame g =>
            let '(b, node, _) :=
              replay target_ply (mainline_moves g) new_board [] 0 in
            (true, with_play s b g node)
        end
    end.

(** The session [restore_to_ply] adopts from a parsed game. *)
Definition restored (s : GameSession) (target_ply : Z) (g : Game Move)
  : GameSession :=
  let '(b, node, _) := replay target_ply (mainline_moves g) new_board [] 0 in
  with_play s b g node.

(** [session.set_result(result)] *)
Definition set_result (s : GameSession) (result : string) (d : Disk)
  : GameSession * Disk :=
  let g := {| headers := <["Result" := result]> (headers (pgn_game s));
              root := root (pgn_game s) |} in
  let s' := with_play s (board s) g (pgn_node s) in
  (s', save_pgn s' d).

(** The session states the operations can produce. *)
Inductive reachable : GameSession -> Prop :=
| reach_new gid local remote c :
    reachable (new_session gid local remote c)
| reach_apply s uci_move d :
    reachable s -> reachable (apply_move s uci_move d).1.2
| reach_restore s target_ply d :
    reachable s -> reachable (restore_to_ply s target_ply d).2
| reach_result s result d :
    reachable s -> reachable (set_result s result d).1.

(** The sessions that moves and results alone produce (no resync). *)
Inductive played : GameSession -> Prop :=
| played_new gid local remote c :
    played (new_session gid local remote c)
| played_apply s uci_move d :
    played s -> played (apply_move s uci_move d).1.2
| played_result s result d :
    played s -> played (set_result s result d).1.

(** The main line below a node with the children [vs]. *)
Definition main_line (vs : list (GameNode Move)) : list Move :=
  match vs with [] => [] | v :: _ => mainline_node v end.

(** The children of a node: does the node at [path] exist below them, and
    is it the last node of the main line? *)
Fixpoint main_line_end (vs : list (GameNode Move)) (path : NodeRef) : bool :=
  match path with
  | [] => match vs with [] => true | _ => false end
  | i :: path' =>
      match i, vs with
      | O, Node _ cs :: _ => main_line_end cs path'
      | _, _ => false
      end
  end.
End Session.

End Game.

(** ** The controller ([engine.py], with [config.py]'s record) *)

Module Engine.
Import PyStr Chess Fs Game Protocol.

Record Config := {
  cfg_local_callsign : string;
  cfg_remote_callsign : string;
  js8_host : string;
  js8_port : Z;
  ack_wait_seconds : Z;
  move_response_wait_seconds : Z;
  max_retries : Z;
  auto_accept : bool;
}.

Inductive EngineState :=
| NO_GAME | PROPOSAL_SENT | AWAITING_PROPOSAL | GAME_ACTIVE | GAME_OVER.

Global Instance EngineState_eq_dec : EqDecision EngineState.
Proof. solve_decision. Defined.

(** What [datetime.now()] reads. *)
Record DateTime := { year : Z; month : Z; day : Z; hour : Z; minute : Z }.

(** [proto.now_timestamp()]: [strftime("%Y%m%d%H%M")] of the clock. *)
Definition now_timestamp (t : DateTime) : string :=
  pad0 4 (year t) +:+ pad0 2 (month t) +:+ pad0 2 (day t) +:+
  pad0 2 (hour t) +:+ pad0 2 (minute t).

(** What the radio queue holds. *)
Inductive QueueItem := STOP_SENTINEL | Item (msg : OTAMessage).

Section Controller.
Context {lib : Lib}.
Variable cfg : Config.

(** The engine's attributes and the world around it: the disk, the
    clock, the lines printed on the UCI channel and the messages handed
    to the bridge ([TO], [TEXT]). *)
Record World := {
  state : EngineState;
  game : option GameSession;
  radio_queue : list QueueItem;
  last_position_moves : list string;
  go_stop_event : bool;
  disk : Disk;
  clock : DateTime;
  uci_lines : list string;
  sent : list (string * string);
}.

(** [JS8ChessEngine(config)] in a given environment. *)
Definition init (d : Disk) (t : DateTime) : World :=
  {| state := NO_GAME; game := None; radio_queue := [];
     last_position_moves := []; go_stop_event := false; disk := d;
     clock := t; uci_lines := []; sent := [] |}.

Definition set_state (x : EngineState) (w : World) : World :=
  {| state := x; game := game w; radio_queue := radio_queue w;
     last_position_moves := last_position_moves w;
     go_stop_event := go_stop_event w; disk := disk w; clock := clock w;
     uci_lines := uci_lines w; sent := sent w |}.

Definition set_game (x : option GameSession) (w : World) : World :=
  {| state := state w; game := x; radio_queue := radio_queue w;
     last_position_moves := last_position_moves w;
     go_stop_event := go_stop_event w; disk := disk w; clock := clock w;
     uci_lines := uci_lines w; sent := sent w |}.

Definition set_radio_queue (x : list QueueItem) (w : World) : World :=
  {| state := state w; game := game w; radio_queue := x;
     last_position_moves := last_position_moves w;
     go_stop_event := go_stop_event w; disk := disk w; clock := clock w;
     uci_lines := uci_lines w; sent := sent w |}.

Definition set_last_position_moves (x : list string) (w : World) : World :=
  {| state := state w; game := game w; radio_queue := radio_queue w;
     last_position_moves := x;
     go_stop_event := go_stop_event w; disk := disk w; clock := clock w;
     uci_lines := uci_lines w; sent := sent w |}.

Definition set_go_stop_event (x : bool) (w : World) : World :=
  {| state := state w; game := game w; radio_queue := radio_queue w;
     last_position_moves := last_position_moves w;
     go_stop_event := x; disk := disk w; clock := clock w;
     uci_lines := uci_lines w; sent := sent w |}.

Definition set_disk (x : Disk) (w : World) : World :=
  {| state := state w; game := game w; radio_queue := radio_queue w;
     last_position_moves := last_position_moves w;
     go_stop_event := go_stop_event w; disk := x; clock := clock w;
     uci_lines := uci_lines w; sent := sent w |}.

(** [self._uci_out(line)] *)
Definition uci_out (line : string) (w : World) : World :=
  {| state := state w; game := game w; radio_queue := radio_queue w;
     last_position_moves := last_position_moves w;
     go_stop_event := go_stop_event w; disk := disk w; clock := clock w;
     uci_lines := uci_lines w ++ [line]; sent := sent w |}.

(** [self._bridge.send(to_callsign, text)]: the bridge puts [TO] in
    upper case; whether the socket write succeeded is not looked at. *)
Definition bridge_send (to_callsign text : string) (w : World) : World :=
  {| state := state w; game := game w; radio_queue := radio_queue w;
     last_position_moves := last_position_moves w;
     go_stop_event := go_stop_event w; disk := disk w; clock := clock w;
     uci_lines := uci_lines w; sent := sent w ++ [(upper to_callsign, text)] |}.

(** A clock reading that [strftime] renders on twelve digits. *)
Definition valid_clock (t : DateTime) : Prop :=
  1000 <= year t <= 9999 /\ 1 <= month t <= 12 /\ 1 <= day t <= 31 /\
  0 <= hour t <= 23 /\ 0 <= minute t <= 59.

(** The letter the protocol has for a color. *)
Definition color_letter (c : Color) : string :=
  match c with WHITE => "W" | BLACK => "B" end.

(** The polls of one retry cycle: [queue.get] times out every five
    seconds until [wait] is used up. *)
Definition polls_per_cycle : nat :=
  Z.to_nat (Z.max 1 ((move_response_wait_seconds cfg + 4) / 5)).

(** What a handler that only replies to the peer leaves behind. *)
Definition replied (text : string) (w w' : World) : Prop :=
  sent w' = sent w ++ [(upper (cfg_remote_callsign cfg), text)] /\
  state w' = state w /\ game w' = game w /\ disk w' = disk w /\
  radio_queue w' = radio_queue w /\
  last_position_moves w' = last_position_moves w /\
  go_stop_event w' = go_stop_event w.

(** The engine state and the session agree: there is a session exactly
    in [GAME_ACTIVE]. *)
Definition consistent (w : World) : Prop :=
  state w = GAME_ACTIVE <-> game w <> None.

(** *** Results of code that may raise or block *)

Inductive Res (A : Type) :=
| Ok (a : A)
| Raise (exn : string).
Global Arguments Ok {A} a.
Global Arguments Raise {A} exn.

(** A wait either returns or is still blocked when the events we are
    given run out. *)
Inductive Wait (A : Type) :=
| Returned (a : A)
| Blocked.
Global Arguments Returned {A} a.
Global Arguments Blocked {A}.

(** [self._send_error(code)] *)
Definition send_error (code : string) (w : World) : World :=
  let text := fmt_error (cfg_local_callsign cfg) (cfg_remote_callsign cfg) code in
  let desc := default "" (ERR_DESCRIPTIONS !! code) in
  let w := uci_out ("info string TX error " +:+ code +:+ ": " +:+ desc) w in
  bridge_send (cfg_remote_callsign cfg) text w.

(** [self._handle_resync_request(msg)] *)
Definition handle_resync_request (msg : OTAMessage) (w : World)
  : Res unit * World :=
  match game w with
  | None => (Ok (), send_error ERR_NO_SESSION w)
  | Some g =>
      if negb (bool_decide (timestamp msg = Some (game_id g)))
      then (Ok (), send_error ERR_DESYNC w)
      else
        match resync_move_num msg with
        | None => (Raise "TypeError", w)
        | Some mn =>
            let target_ply := mn - 1 in
            let '(ok, g') := restore_to_ply g target_ply (disk w) in
            let w := set_game (Some g') w in
            if negb ok then (Ok (), send_error ERR_DESYNC w)
            else
              let response :=
                fmt_resync_ok (cfg_local_callsign cfg)
                  (cfg_remote_callsign cfg) (game_id g') mn in
              let w := uci_out ("info string TX resync OK: " +:+ response) w in
              (Ok (), bridge_send (cfg_remote_callsign cfg) response w)
        end
  end.

(** [self._process_radio_item(msg)] *)
Definition process_radio_item (msg : OTAMessage) (w : World)
  : Res (option string) * World :=
  match msg_type msg with
  | ACK => (Ok None, w)
  | MOVE =>
      match game w with
      | None => (Ok None, send_error ERR_NO_SESSION w)
      | Some g =>
          if negb (bool_decide (move_num msg = Some (expected_move_num g)))
          then (Ok None, send_error ERR_BAD_MOVE_NUM w)
          else
            match move msg with
            | None => (Raise "TypeError", w)
            | Some mv =>
                if negb (validate_move g mv)
                then (Ok None, send_error ERR_ILLEGAL_MOVE w)
                else
                  let '(_, g', d') := apply_move g mv (disk w) in
                  let w := set_disk d' (set_game (Some g') w) in
                  let w :=
                    uci_out ("info string RX move: "
                             +:+ from_option str_of_int "None" (move_num msg)
                             +:+ upper mv) w in
                  (Ok (Some mv), w)
            end
      end
  | ERROR =>
      (Ok None,
       uci_out ("info string Remote sent error: "
                +:+ default "None" (error_code msg)) w)
  | RESYNC_REQUEST =>
      let '(r, w) := handle_resync_request msg w in
      match r with
      | Ok _ => (Ok None, w)
      | Raise e => (Raise e, w)
      end
  | RESYNC_OK => (Ok None, w)
  | _ => (Ok None, w)
  end.

(** [self._retransmit_last_local_move()] *)
Definition retransmit_last_local_move (w : World) : World :=
  match game w with
  | None => w
  | Some g =>
      let move_list := move_list_uci g in
      if bool_decide (move_list = []) then w
      else
        let last_local_ply := expected_move_num g - 1 in
        if (last_local_ply <? 1) || (Z.of_nat (length move_list) <? last_local_ply)
        then w
        else
          match move_list !! Z.to_nat (last_local_ply - 1) with
          | None => w
          | Some last_move =>
              let ota_text :=
                fmt_move (cfg_local_callsign cfg) (cfg_remote_callsign cfg)
                  last_local_ply last_move in
              let w := uci_out ("info string RETRY TX: " +:+ ota_text) w in
              bridge_send (cfg_remote_callsign cfg) ota_text w
          end
  end.

(** [self._handle_new_proposal(msg)] *)
Definition handle_new_proposal (msg : OTAMessage) (w : World) : World :=
  if decide (state w = GAME_ACTIVE) then w
  else
    let w := set_state AWAITING_PROPOSAL w in
    if negb (auto_accept cfg) then
      let w :=
        uci_out ("info string Game proposal from " +:+ from_call msg
                 +:+ " ignored (auto_accept is false in config)") w in
      set_state NO_GAME w
    else
      let timestamp := now_timestamp (clock w) in
      let remote_color_str := color msg in
      let is_w := bool_decide (remote_color_str = Some "W") in
      let local_color := if is_w then BLACK else WHITE in
      let local_color_str := if is_w then "B" else "W" in
      let acceptance :=
        fmt_acceptance (cfg_local_callsign cfg) (cfg_remote_callsign cfg)
          timestamp local_color_str in
      let w := uci_out ("info string TX acceptance: " +:+ acceptance) w in
      let w := bridge_send (cfg_remote_callsign cfg) acceptance w in
      let w :=
        set_game
          (Some (new_session timestamp (cfg_local_callsign cfg)
                   (cfg_remote_callsign cfg) local_color)) w in
      let w := set_state GAME_ACTIVE w in
      let w := set_last_position_moves [] w in
      uci_out ("info string Game started — ID: " +:+ timestamp
               +:+ ", local: " +:+ local_color_str
               +:+ ", remote: " +:+ default "None" remote_color_str) w.

(** [self._handle_acceptance(msg)]; a message without a timestamp makes
    the constructor raise when it slices the game id. *)
Definition handle_acceptance (msg : OTAMessage) (w : World)
  : Res unit * World :=
  if negb (bool_decide (state w = PROPOSAL_SENT)) then (Ok (), w)
  else
    let remote_color_str := color msg in
    let is_b := bool_decide (remote_color_str = Some "B") in
    let local_color := if is_b then WHITE else BLACK in
    let local_color_str := if is_b then "W" else "B" in
    match timestamp msg with
    | None => (Raise "TypeError", w)
    | Some ts =>
        let w :=
          set_game
            (Some (new_session ts (cfg_local_callsign cfg)
                     (cfg_remote_callsign cfg) local_color)) w in
        let w := set_state GAME_ACTIVE w in
        let w := set_last_position_moves [] w in
        (Ok (),
         uci_out ("info string Game accepted — ID: " +:+ ts
                  +:+ ", local: " +:+ local_color_str
                  +:+ ", remote: " +:+ default "None" remote_color_str) w)
    end.

(** [self._on_radio_message(from_call, to_call, text)], the bridge's
    callback for a directed message. *)
Definition on_radio_message (from_call to_call text : string) (w : World)
  : Res unit * World :=
  match parse_message text (cfg_local_callsign cfg)
          (cfg_remote_callsign cfg) from_call with
  | None => (Ok (), w)
  | Some msg =>
      let st := state w in
      if decide (msg_type msg = NEW_PROPOSAL)
      then (Ok (), handle_new_proposal msg w)
      else if decide (msg_type msg = ACCEPTANCE)
      then handle_acceptance msg w
      else if decide (st = GAME_ACTIVE)
      then (Ok (), set_radio_queue (radio_queue w ++ [Item msg]) w)
      else if decide (msg_type msg = RESYNC_REQUEST)
      then handle_resync_request msg w
      else (Ok (), w)
  end.

(** [self.send_new_proposal(color)] *)
Definition send_new_proposal (color : string) (w : World) : World :=
  if decide (state w = GAME_ACTIVE) then w
  else
    let w := set_state PROPOSAL_SENT w in
    let text :=
      fmt_new_proposal (cfg_local_callsign cfg) (cfg_remote_callsign cfg)
        color in
    let w := uci_out ("info string TX new proposal: " +:+ text) w in
    bridge_send (cfg_remote_callsign cfg) text w.

(** The [ucinewgame] branch of [_handle_uci]. *)
Definition uci_new_game (w : World) : World :=
  set_last_position_moves [] (set_state NO_GAME (set_game None w)).

(** [tokens[tokens.index("moves") + 1:]] when ["moves" in tokens]. *)
Fixpoint after_moves (tokens : list string) : list string :=
  match tokens with
  | [] => []
  | t :: rest => if String.eqb t "moves" then rest else after_moves rest
  end.

(** [self._handle_position(tokens)] *)
Definition handle_position (tokens : list string) (w : World) : World :=
  match tokens with
  | [] => w
  | _ => set_last_position_moves (map lower (after_moves tokens)) w
  end.

(** [self._apply_and_transmit_local_move(game, uci_move)]; [game] is the
    object [self._game] refers to, so the world's session changes with
    it.  The [for] loop over the attempts breaks in its first round. *)
Definition apply_and_transmit_local_move (g : GameSession)
    (uci_move : string) (w : World) : bool * GameSession * World :=
  if negb (validate_move g uci_move) then
    (false, g, uci_out ("info string ERROR: invalid local move " +:+ uci_move) w)
  else
    let move_num := expected_move_num g in
    let '(ok, g', d') := apply_move g uci_move (disk w) in
    let w := set_disk d' (set_game (Some g') w) in
    if negb ok then (false, g', w)
    else
      let ota_text :=
        fmt_move (cfg_local_callsign cfg) (cfg_remote_callsign cfg)
          move_num uci_move in
      let w := uci_out ("info string TX: " +:+ ota_text) w in
      let w :=
        if 1 <=? max_retries cfg
        then bridge_send (cfg_remote_callsign cfg) ota_text w
        else w in
      (true, g', w).

(** *** Waiting for the radio

    While the worker is blocked in [queue.get] the other threads run.
    What they do is given as a list of events: the poll interval
    elapsing with nothing queued, the UCI reader setting the stop event,
    the bridge delivering a directed message to [_on_radio_message]. *)
Inductive Event :=
| Timeout
| Stop
| Radio (from_call to_call text : string).

(** What the worker does with a dequeued item. *)
Definition dequeued (item : QueueItem) (w : World)
  : Res (Wait (option string)) * World :=
  match item with
  | STOP_SENTINEL => (Ok (Returned None), w)
  | Item msg =>
      match process_radio_item msg w with
      | (Ok r, w) => (Ok (Returned r), w)
      | (Raise e, w) => (Raise e, w)
      end
  end.

(** The loop of [_await_radio_move] from inside [queue.get]: the stop
    event was clear at the loop head and the timeout [min(wait, 5.0)] is
    not negative. *)
Fixpoint await_loop (evs : list Event) (timeout : option Z)
    (wait retries_left : Z) (w : World)
  : Res (Wait (option string)) * list Event * World :=
  match radio_queue w with
  | item :: q =>
      let '(r, w) := dequeued item (set_radio_queue q w) in (r, evs, w)
  | [] =>
      match evs with
      | [] => (Ok Blocked, [], w)
      | Stop :: evs' =>
          await_loop evs' timeout wait retries_left (set_go_stop_event true w)
      | Radio f t x :: evs' =>
          await_loop evs' timeout wait retries_left (on_radio_message f t x w).2
      | Timeout :: evs' =>
          (* queue.Empty *)
          if go_stop_event w then (Ok (Returned None), evs', w)
          else
            let wait := wait - 5 in
            if bool_decide (timeout = None) && (wait <=? 0) then
              if 0 <? retries_left then
                let w := retransmit_last_local_move w in
                let wait := move_response_wait_seconds cfg in
                if wait <? 0 then (Raise "ValueError", evs', w)
                else await_loop evs' timeout wait (retries_left - 1) w
              else
                (Ok (Returned None), evs',
                 uci_out "info string ERROR: no response after max retries" w)
            else if wait <? 0 then (Raise "ValueError", evs', w)
            else await_loop evs' timeout wait retries_left w
      end
  end.

(** [self._await_radio_move(timeout)] *)
Definition await_radio_move (timeout : option Z) (evs : list Event)
    (w : World) : Res (Wait (option string)) * list Event * World :=
  let wait := default (move_response_wait_seconds cfg) timeout in
  if go_stop_event w then (Ok (Returned None), evs, w)
  else if wait <? 0 then (Raise "ValueError", evs, w)
  else await_loop evs timeout wait (max_retries cfg) w.

(** The loop of [_go_handler] over the new local moves; [false] when one
    of them was refused. *)
Fixpoint transmit_new_moves (g : GameSession) (new_moves : list string)
    (w : World) : bool * World :=
  match new_moves with
  | [] => (true, w)
  | uci_move :: rest =>
      let '(ok, g', w) := apply_and_transmit_local_move g uci_move w in
      if negb ok then (false, uci_out "bestmove 0000" w)
      else transmit_new_moves g' rest w
  end.

(** [_go_handler] once the state is read for the second time. *)
Definition go_play (evs : list Event) (w : World)
  : Res (Wait unit) * list Event * World :=
  match game w with
  | Some g =>
      if negb (bool_decide (state w = GAME_ACTIVE)) then
        (Ok (Returned ()), evs,
         uci_out "bestmove 0000" (uci_out "info string No active JS8Chess game" w))
      else
        let gui_moves := last_position_moves w in
        let board_moves := move_list_uci g in
        let new_moves := drop (length board_moves) gui_moves in
        let '(ok, w) := transmit_new_moves g new_moves w in
        if negb ok then (Ok (Returned ()), evs, w)
        else if bool_decide (game w = None :> option GameSession)
                || negb (bool_decide (state w = GAME_ACTIVE))
        then (Ok (Returned ()), evs, uci_out "bestmove 0000" w)
        else
          let w := uci_out "info string Waiting for remote move via radio" w in
          match await_radio_move None evs w with
          | (Ok (Returned None), evs, w) =>
              (Ok (Returned ()), evs, uci_out "bestmove 0000" w)
          | (Ok (Returned (Some remote_move)), evs, w) =>
              (Ok (Returned ()), evs, uci_out ("bestmove " +:+ remote_move) w)
          | (Ok Blocked, evs, w) => (Ok Blocked, evs, w)
          | (Raise e, evs, w) => (Raise e, evs, w)
          end
  | None =>
      (Ok (Returned ()), evs,
       uci_out "bestmove 0000" (uci_out "info string No active JS8Chess game" w))
  end.

(** [self._go_handler()], the worker a [go] command spawns; [_handle_go]
    clears the stop event first. *)
Definition go_handler (evs : list Event) (w : World)
  : Res (Wait unit) * list Event * World :=
  if bool_decide (state w = NO_GAME) || bool_decide (state w = AWAITING_PROPOSAL)
  then
    let w :=
      uci_out "info string Waiting for JS8Chess game to be established via radio" w in
    match await_radio_move None evs w with
    | (Ok (Returned None), evs, w) =>
        (Ok (Returned ()), evs, uci_out "bestmove 0000" w)
    | (Ok (Returned (Some _)), evs, w) => go_play evs w
    | (Ok Blocked, evs, w) => (Ok Blocked, evs, w)
    | (Raise e, evs, w) => (Raise e, evs, w)
    end
  else go_play evs w.

Definition handle_go (evs : list Event) (w : World)
  : Res (Wait unit) * list Event * World :=
  go_handler evs (set_go_stop_event false w).
End Controller.
End Engine.

(** * The bridge to JS8Call (js8bridge.py)

    The socket and the JSON codec are outside: the text received is
    given, and [json.loads] is a function the bridge is handed. *)

Module Bridge.
Import PyStr Protocol Chess Game Engine.

(** A value as [json.loads] returns it; a number is kept as its literal,
    a dict as its items (whose keys are distinct). *)
#[warnings="-register-all"] Inductive Json :=
| JNull
| JBool (b : bool)
| JNum (literal : string)
| JStr (s : string)
| JArr (items : list Json)
| JObj (items : list (string * Json)).

Fixpoint lookup (k : string) (items : list (string * Json)) : option Json :=
  match items with
  | [] => None
  | (k', v) :: rest => if String.eqb k' k then Some v else lookup k rest
  end.

(** [d.get(k, dflt)]: only a dict has the method. *)
Definition get (d : Json) (k : string) (dflt : Json) : Res Json :=
  match d with
  | JObj items => Ok (from_option id dflt (lookup k items))
  | _ => Raise "AttributeError"
  end.

(** [v.upper().strip()] and [v.strip()]: only a str has the methods. *)
Definition str_upper_strip (v : Json) : Res string :=
  match v with
  | JStr s => Ok (strip (upper s))
  | _ => Raise "AttributeError"
  end.

Definition str_strip (v : Json) : Res string :=
  match v with
  | JStr s => Ok (strip s)
  | _ => Raise "AttributeError"
  end.

(** [msg_type in ("RX.DIRECTED", "RX.DIRECTED.ME")] *)
Definition is_directed (v : Json) : bool :=
  match v with
  | JStr s => String.eqb s "RX.DIRECTED" || String.eqb s "RX.DIRECTED.ME"
  | _ => false
  end.

#[global] Instance res_bind : MBind Res :=
  fun A B (k : A -> Res B) (r : Res A) =>
    match r with
    | Ok a => k a
    | Raise e => Raise e
    end.

(** The three fields [_dispatch] takes from the value of a directed
    event, each with its fall-backs. *)
Definition directed_fields (value : Json) : Res (string * string * string) :=
  d ← get value "from" (JStr "");
  f ← get value "FROM" d;
  from_call ← str_upper_strip f;
  d ← get value "to" (JStr "");
  t ← get value "TO" d;
  to_call ← str_upper_strip t;
  d ← get value "VALUE" (JStr "");
  d ← get value "text" d;
  x ← get value "TEXT" d;
  text ← str_strip x;
  Ok (from_call, to_call, text).

(** What a chain of [get]s over the keys [keys], ending in the empty
    string, selects when it selects a string: the entry of the first key
    that is present. *)
Fixpoint selected (keys : list string) (fields : list (string * Json))
    (s : string) : Prop :=
  match keys with
  | [] => s = ""
  | k :: ks =>
      lookup k fields = Some (JStr s)
      \/ (lookup k fields = None /\ selected ks fields s)
  end.

(** [s.find(c)] for a character: the first index, or -1. *)
Fixpoint find_char (c : ascii) (s : string) : Z :=
  match s with
  | EmptyString => -1
  | String a r =>
      if Ascii.eqb a c then 0
      else let i := find_char c r in if i =? -1 then -1 else i + 1
  end.

Definition NL : ascii := "010"%char.

Section Bridge.
Context {lib : Lib}.
Variable cfg : Config.
Variable loads : string -> option Json.

(** [self._dispatch(raw)]; what the callback raises is logged and
    dropped. *)
Definition dispatch (raw : string) (w : World) : Res unit * World :=
  match loads raw with
  | None => (Ok (), w)
  | Some msg =>
      match get msg "type" (JStr "") with
      | Raise e => (Raise e, w)
      | Ok msg_type =>
          match get msg "value" (JObj []) with
          | Raise e => (Raise e, w)
          | Ok value =>
              if is_directed msg_type then
                match directed_fields value with
                | Raise e => (Raise e, w)
                | Ok (from_call, to_call, text) =>
                    (Ok (), (on_radio_message cfg from_call to_call text w).2)
                end
              else (Ok (), w)
          end
      end
  end.

(** The loop of [_process_buffer]; every round but the last takes at
    least the newline off the buffer, so the length of the buffer is
    fuel enough. *)
Fixpoint process_buffer_loop (fuel : nat) (buffer : string) (w : World)
  : Res unit * string * World :=
  match fuel with
  | O => (Ok (), buffer, w)
  | S fuel =>
      let nl := find_char NL buffer in
      if nl =? -1 then (Ok (), buffer, w)
      else
        let line := strip (slice 0 (Z.to_nat nl) buffer) in
        let buffer := str_drop (Z.to_nat nl + 1) buffer in
        if String.eqb line "" then process_buffer_loop fuel buffer w
        else
          match dispatch line w with
          | (Ok _, w) => process_buffer_loop fuel buffer w
          | (Raise e, w) => (Raise e, buffer, w)
          end
  end.

(** [self._process_buffer()] on [self._buffer]. *)
Definition process_buffer (buffer : string) (w : World)
  : Res unit * string * World :=
  process_buffer_loop (String.length buffer) buffer w.

(** The body of [_recv_loop] on the text decoded from the data received:
    [self._buffer += <text>; self._process_buffer()]. *)
Definition receive (data buffer : string) (w : World)
  : Res unit * string * World :=
  process_buffer (buffer +:+ data) w.

(** Bytes below 128, which UTF-8 decodes to themselves. *)
Definition is_ascii (data : string) : bool :=
  sall (fun c => (code c <? 128)%N) data.

(** The body of [_recv_loop] on the bytes received, [decode] being
    [bytes.decode("utf-8", errors="replace")]:
    [self._buffer += data.decode(...); self._process_buffer()]. *)
Definition receive_bytes (decode : string -> string) (data buffer : string)
    (w : World) : Res unit * string * World :=
  receive (decode data) buffer w.
End Bridge.
End Bridge.

(** ** A small rules engine to run the model on

    Moves are their coordinate strings, a position is the list of moves
    played so far, and the legal moves come from an opening book that holds
    the lines the repository's tests play.  The notation file keeps the
    movetext and the result. *)

Module Book.
Import PyStr Chess.

Definition is_file (c : ascii) : bool := in_range 97 104 c.
Definition is_rank (c : ascii) : bool := in_range 49 56 c.
Definition is_promo (c : ascii) : bool :=
  Ascii.eqb c "q" || Ascii.eqb c "r" || Ascii.eqb c "b" || Ascii.eqb c "n".

Definition coordinate (s : string) : bool :=
  match s with
  | String a (String b (String c (String d rest))) =>
      is_file a && is_rank b && is_file c && is_rank d
      && negb (Ascii.eqb a c && Ascii.eqb b d)
      && match rest with
         | EmptyString => true
         | String p EmptyString => is_promo p
         | _ => false
         end
  | _ => false
  end.

Definition lines : list (list string * list string) :=
  [([], ["e2e4"; "d2d4"]);
   (["e2e4"], ["e7e5"; "d7d5"; "c7c5"]);
   (["e2e4"; "e7e5"], ["d2d4"; "g1f3"]);
   (["e2e4"; "e7e5"; "d2d4"], ["d7d5"; "e5d4"]);
   (["e2e4"; "e7e5"; "d2d4"; "d7d5"], ["e4d5"; "d4e5"])].

Definition book (played : list string) : list string :=
  match list_find (fun l => l.1 = played) lines with
  | Some (_, (_, moves)) => moves
  | None => []
  end.

Definition results : list string := ["*"; "1-0"; "0-1"; "1/2-1/2"].

Definition chain (moves : list string) : list (GameNode string) :=
  fold_right (fun m vs => [Node m vs]) [] moves.

Definition movetext (g : Game string) : string :=
  String.concat " " (mainline_moves g ++ [default "*" (headers g !! "Result")]).

Definition read_movetext (text : string) : ReadResult string :=
  match String.words text with
  | [] => ReadNone
  | ws =>
      let moves := filter (fun t => t ∉ results) ws in
      if forallb coordinate moves
      then ReadGame {| headers := ∅; root := chain moves |}
      else ReadRaises
  end.

Definition lib : Lib :=
  {| Move := string;
     Position := list string;
     start := [];
     from_uci := fun s => if coordinate s then Some s else None;
     uci := fun m => m;
     legal := fun played m => bool_decide (m ∈ book played);
     play := fun played m => played ++ [m];
     stacked := fun _ m => m;
     turn := fun played => if Nat.even (length played) then WHITE else BLACK;
     blank_headers := ∅;
     export := movetext;
     read_game := read_movetext |}.

Definition cfg : Engine.Config :=
  {| Engine.cfg_local_callsign := "CALLSIGN";
     Engine.cfg_remote_callsign := "SWL";
     Engine.js8_host := "127.0.0.1";
     Engine.js8_port := 2442;
     Engine.ack_wait_seconds := 60;
     Engine.move_response_wait_seconds := 120;
     Engine.max_retries := 3;
     Engine.auto_accept := true |}.

Definition empty_disk : Fs.Disk :=
  {| Fs.files := ∅; Fs.readable := true; Fs.writable := true |}.

Definition noon : Engine.DateTime :=
  {| Engine.year := 2025; Engine.month := 6; Engine.day := 1;
     Engine.hour := 14; Engine.minute := 30 |}.
End Book.

(** ** A rules engine that records castling in its own notation

    As [python-chess] does in standard chess, it takes castling written
    king-to-rook ([e1h1]) as legal and puts it on the move stack
    king-to-destination ([e1g1]).  Its book holds one line, up to White's
    castling. *)

Module Castling.
Import PyStr Chess.

Definition opening : list string :=
  ["e2e4"; "e7e5"; "g1f3"; "b8c6"; "f1c4"; "f8c5"].

Definition normal (m : string) : string :=
  if String.eqb m "e1h1" then "e1g1" else m.

Definition lines : list (list string * list string) :=
  [(take 0 opening, ["e2e4"]); (take 1 opening, ["e7e5"]);
   (take 2 opening, ["g1f3"]); (take 3 opening, ["b8c6"]);
   (take 4 opening, ["f1c4"]); (take 5 opening, ["f8c5"]);
   (opening, ["e1g1"; "e1h1"])].

Definition book (played : list string) : list string :=
  match list_find (fun l => l.1 = played) lines with
  | Some (_, (_, moves)) => moves
  | None => []
  end.

Definition lib : Lib :=
  {| Move := string;
     Position := list string;
     start := [];
     from_uci := fun s => if Book.coordinate s then Some s else None;
     uci := fun m => m;
     legal := fun played m => bool_decide (m ∈ book played);
     play := fun played m => played ++ [normal m];
     stacked := fun _ m => normal m;
     turn := fun played => if Nat.even (length played) then WHITE else BLACK;
     blank_headers := ∅;
     export := Book.movetext;
     read_game := Book.read_movetext |}.
End Castling.

(** ** Concrete games and engines to run *)

Module Scenario.
Import PyStr Protocol Chess Fs Game Engine Book.
#[local] Existing Instance Book.lib.

(** The stations of [tests/test_protocol.py], and its [_parse]. *)
Definition LOCAL := "CALLSIGN".
Definition REMOTE := "SWL".
Definition parse (text : string) := parse_message text LOCAL REMOTE "".

(** The session of [tests/test_game.py]. *)
Definition session0 : GameSession :=
  new_session "202506011430" "MM7MMU" "MM7XYZ" WHITE.

(** [apply_move] for each move in turn, from a session and a disk. *)
Definition play_moves (moves : list string) (s : GameSession) (d : Disk)
  : GameSession * Disk :=
  fold_left (fun sd u => let '(_, s', d') := apply_move sd.1 u sd.2 in (s', d'))
    moves (s, d).

Definition after4 : GameSession * Disk :=
  play_moves ["e2e4"; "e7e5"; "d2d4"; "d7d5"] session0 empty_disk.

Definition after2 : GameSession * Disk :=
  play_moves ["e2e4"; "e7e5"] session0 empty_disk.

(** The engine after the peer's proposal to play Black was accepted. *)
Definition accepted : World :=
  (on_radio_message cfg "SWL" "CALLSIGN" "SWL CALLSIGN JS8CHESS NEW B"
     (init empty_disk noon)).2.

(** ... and after the front-end sent [position startpos moves e2e4]. *)
Definition positioned : World :=
  handle_position ["startpos"; "moves"; "e2e4"] accepted.

Definition frame (payload : string) : Event :=
  Radio "SWL" "CALLSIGN" ("SWL CALLSIGN JS8CHESS " +:+ payload).

(** The session of the configured stations, local side White. *)
Definition our_session : GameSession :=
  new_session "202506011430" "CALLSIGN" "SWL" WHITE.

(** An engine in [GAME_ACTIVE] that holds the given session over the given
    disk, with the given queue and front-end move list. *)
Definition in_game (sd : GameSession * Disk) (queue : list QueueItem)
    (gui_moves : list string) : World :=
  {| state := GAME_ACTIVE; game := Some sd.1; radio_queue := queue;
     last_position_moves := gui_moves; go_stop_event := false; disk := sd.2;
     clock := noon; uci_lines := []; sent := [] |}.

Definition after_plies (moves : list string) : GameSession * Disk :=
  play_moves moves our_session empty_disk.

(** What the codec makes of [<ordinal><move>] and of [RS <id> MN=<n>]. *)
Definition move_msg (n : Z) (mv : string) : OTAMessage :=
  {| from_call := "SWL"; to_call := "CALLSIGN"; msg_type := MOVE;
     color := None; timestamp := None; move_num := Some n; move := Some mv;
     error_code := None; resync_move_num := None |}.

Definition resync_msg (ts : string) (n : Z) : OTAMessage :=
  {| from_call := "SWL"; to_call := "CALLSIGN"; msg_type := RESYNC_REQUEST;
     color := None; timestamp := Some ts; move_num := None; move := None;
     error_code := None; resync_move_num := Some n |}.

Definition proposal_msg (c : string) : OTAMessage :=
  {| from_call := "SWL"; to_call := "CALLSIGN"; msg_type := NEW_PROPOSAL;
     color := Some c; timestamp := None; move_num := None; move := None;
     error_code := None; resync_move_num := None |}.

Definition acceptance_msg (ts c : string) : OTAMessage :=
  {| from_call := "SWL"; to_call := "CALLSIGN"; msg_type := ACCEPTANCE;
     color := Some c; timestamp := Some ts; move_num := None; move := None;
     error_code := None; resync_move_num := None |}.

(** The peer's configuration: the same two stations the other way round;
    a station that never transmits a move; one that does not auto-accept. *)
Definition peer_cfg : Config :=
  {| cfg_local_callsign := "SWL"; cfg_remote_callsign := "CALLSIGN";
     js8_host := "127.0.0.1"; js8_port := 2442; ack_wait_seconds := 60;
     move_response_wait_seconds := 120; max_retries := 3;
     auto_accept := true |}.

Definition no_retry_cfg : Config :=
  {| cfg_local_callsign := "CALLSIGN"; cfg_remote_callsign := "SWL";
     js8_host := "127.0.0.1"; js8_port := 2442; ack_wait_seconds := 60;
     move_response_wait_seconds := 120; max_retries := 0;
     auto_accept := true |}.

Definition manual_cfg : Config :=
  {| cfg_local_callsign := "CALLSIGN"; cfg_remote_callsign := "SWL";
     js8_host := "127.0.0.1"; js8_port := 2442; ack_wait_seconds := 60;
     move_response_wait_seconds := 120; max_retries := 3;
     auto_accept := false |}.

(** A new engine, and one after a proposal of its own to play White. *)
Definition fresh : World := init empty_disk noon.
Definition proposed (c : Config) : World := send_new_proposal c "w" fresh.

(** A directed event as JS8Call writes it, the value [json.loads] gives
    for it, and a decoder that knows this text and the array [[1]]. *)
Definition quoted (s : string) : string :=
  String (ascii_of_nat 34) s +:+ String (ascii_of_nat 34) "".

Definition event_text : string :=
  "{" +:+ quoted "type" +:+ ": " +:+ quoted "RX.DIRECTED" +:+ ", "
  +:+ quoted "value" +:+ ": {"
  +:+ quoted "FROM" +:+ ": " +:+ quoted "swl" +:+ ", "
  +:+ quoted "TO" +:+ ": " +:+ quoted "CALLSIGN" +:+ ", "
  +:+ quoted "TEXT" +:+ ": " +:+ quoted " swl callsign js8chess 2e7e5 " +:+ "}}".

Definition event_value : Bridge.Json :=
  Bridge.JObj
    [("type", Bridge.JStr "RX.DIRECTED");
     ("value",
      Bridge.JObj
        [("FROM", Bridge.JStr "swl"); ("TO", Bridge.JStr "CALLSIGN");
         ("TEXT", Bridge.JStr " swl callsign js8chess 2e7e5 ")])].

(** A decoder for the runs: it keeps the bytes below 128 and puts a
    question mark for every other byte. *)
Definition decode (data : string) : string :=
  smap (fun c => if (code c <? 128)%N then c else "?"%char) data.

Definition loads (raw : string) : option Bridge.Json :=
  if String.eqb raw event_text then Some event_value
  else if String.eqb raw "[1]" then Some (Bridge.JArr [Bridge.JNum "1"])
  else None.
End Scenario.

(** An engine in a game played by the castling rules, six plies in, whose
    front-end now adds White's castling written king-to-rook. *)

Module CastlingRun.
Import PyStr Protocol Chess Fs Game Engine.
#[local] Existing Instance Castling.lib.

Definition before_castling : GameSession * Disk :=
  fold_left (fun sd u => let '(_, s', d') := apply_move sd.1 u sd.2 in (s', d'))
    Castling.opening
    (new_session "202506011430" "CALLSIGN" "SWL" WHITE, Book.empty_disk).

Definition castling_world : World :=
  {| state := GAME_ACTIVE; game := Some before_castling.1; radio_queue := [];
     last_position_moves := Castling.opening ++ ["e1h1"];
     go_stop_event := false; disk := before_castling.2; clock := Book.noon;
     uci_lines := []; sent := [] |}.
End CastlingRun.
(** * Properties *)

(** ** Worked examples of the string helpers and the codec *)

Example upper_demo : PyStr.upper "swl js8chess 1e2e4" = "SWL JS8CHESS 1E2E4".
Proof. reflexivity. Qed.

Example strip_demo : PyStr.strip "  a b  " = "a b".
Proof. vm_compute. reflexivity. Qed.

Example str_of_int_demo :
  map PyStr.str_of_int [0; 7; 42; 120; -5] = ["0"; "7"; "42"; "120"; "-5"].
Proof. vm_compute. reflexivity. Qed.

Module ProtocolExamples.
Import Protocol Scenario.


Example parse_new_white :
  parse "SWL CALLSIGN JS8CHESS NEW W" =
  Some {| from_call := "SWL"; to_call := "CALLSIGN"; msg_type := NEW_PROPOSAL;
          color := Some "W"; timestamp := None; move_num := None;
          move := None; error_code := None; resync_move_num := None |}.
Proof. vm_compute. reflexivity. Qed.

Example parse_types :
  map (fun t => msg_type <$> parse t)
    ["swl callsign js8chess new w"; "G0ABC CALLSIGN JS8CHESS NEW W";
     "SWL CALLSIGN JS8CHESS 202506011430 W";
     "SWL CALLSIGN JS8CHESS 20250601143 W";
     "SWL CALLSIGN JS8CHESS >"; "SWL CALLSIGN JS8CHESS ERR01 >";
     "SWL CALLSIGN JS8CHESS ERR01";
     "SWL CALLSIGN JS8CHESS RS 202506011430 MN=17";
     "SWL CALLSIGN JS8CHESS OK RS 202506011430 MN=17";
     "SWL CALLSIGN JS8CHESS 15E7E8Q"; "CALLSIGN JS8CHESS 2E7E5";
     "SWL CALLSIGN HELLO THERE"; ""] =
  [Some NEW_PROPOSAL; None; Some ACCEPTANCE; Some UNKNOWN; Some ACK;
   Some ERROR; Some ERROR; Some RESYNC_REQUEST; Some RESYNC_OK; Some MOVE;
   Some MOVE; None; None].
Proof. vm_compute. reflexivity. Qed.

Example parse_move_fields :
  (fun m => (move_num m, move m)) <$> parse "SWL CALLSIGN JS8CHESS 42A1A8" =
  Some (Some 42, Some "a1a8").
Proof. vm_compute. reflexivity. Qed.

Example parse_from_call_mismatch :
  parse_message "SWL CALLSIGN JS8CHESS NEW W" LOCAL REMOTE "G0ABC" = None.
Proof. vm_compute. reflexivity. Qed.

Example fmt_examples :
  [fmt_new_proposal LOCAL REMOTE "w"; fmt_acceptance LOCAL REMOTE "202506011430" "B";
   fmt_move LOCAL REMOTE 1 "e2e4"; fmt_error LOCAL REMOTE "ERR01";
   fmt_resync_request LOCAL REMOTE "202506011430" 17;
   fmt_resync_ok LOCAL REMOTE "202506011430" 17] =
  ["SWL CALLSIGN JS8CHESS NEW W"; "CALLSIGN SWL JS8CHESS 202506011430 B";
   "SWL CALLSIGN JS8CHESS 1E2E4"; "SWL CALLSIGN JS8CHESS ERR01 >";
   "SWL CALLSIGN JS8CHESS RS 202506011430 MN=17";
   "CALLSIGN SWL JS8CHESS OK RS 202506011430 MN=17"].
Proof. vm_compute. reflexivity. Qed.

Example acceptance_own_view :
  parse (fmt_acceptance LOCAL REMOTE "202506011430" "W") = None.
Proof. vm_compute. reflexivity. Qed.
End ProtocolExamples.

(** ** Facts about the string helpers *)

Module PyStrFacts.
Import PyStr.

Lemma str_app_cons c s t : String c s +:+ t = String c (s +:+ t).
Proof. reflexivity. Qed.

Lemma str_app_nil_l s : "" +:+ s = s.
Proof. reflexivity. Qed.

Lemma str_app_nil_r s : s +:+ "" = s.
Proof. induction s as [|c s IH]; [reflexivity|]. rewrite str_app_cons, IH. reflexivity. Qed.

Lemma str_app_assoc a b c : (a +:+ b) +:+ c = a +:+ (b +:+ c).
Proof.
  induction a as [|x a IH]; [reflexivity|].
  rewrite !str_app_cons, IH. reflexivity.
Qed.

Lemma str_length_app a b : String.length (a +:+ b) = (String.length a + String.length b)%nat.
Proof.
  induction a as [|x a IH]; [reflexivity|].
  rewrite str_app_cons. simpl. rewrite IH. reflexivity.
Qed.

Lemma smap_app f a b : smap f (a +:+ b) = smap f a +:+ smap f b.
Proof.
  induction a as [|x a IH]; [reflexivity|].
  rewrite str_app_cons. simpl. rewrite IH, str_app_cons. reflexivity.
Qed.

Lemma upper_app a b : upper (a +:+ b) = upper a +:+ upper b.
Proof. apply smap_app. Qed.

Lemma sall_app p a b : sall p (a +:+ b) = sall p a && sall p b.
Proof.
  induction a as [|x a IH]; [reflexivity|].
  rewrite str_app_cons. simpl. rewrite IH, andb_assoc. reflexivity.
Qed.

Lemma smap_id f p s :
  (forall c, p c = true -> f c = c) -> sall p s = true -> smap f s = s.
Proof.
  intros Hf. induction s as [|c s IH]; simpl; [reflexivity|].
  intros [Hc Hs]%andb_true_iff. rewrite (Hf c Hc), (IH Hs). reflexivity.
Qed.

Lemma startswith_app p r : startswith (p +:+ r) p = true.
Proof.
  unfold startswith. induction p as [|c p IH].
  - destruct r; reflexivity.
  - rewrite str_app_cons. simpl. destruct (ascii_dec c c); [exact IH | congruence].
Qed.

Lemma str_drop_app p r : str_drop (String.length p) (p +:+ r) = r.
Proof. induction p as [|c p IH]; [reflexivity|]. rewrite str_app_cons. exact IH. Qed.

Lemma str_take_app p r : str_take (String.length p) (p +:+ r) = p.
Proof.
  induction p as [|c p IH]; [destruct r; reflexivity|].
  rewrite str_app_cons. simpl. rewrite IH. reflexivity.
Qed.

(** *** Stripping *)

Lemma lstrip_id s : starts_nonspace s = true -> lstrip s = s.
Proof.
  destruct s as [|c s]; simpl; [discriminate|].
  destruct (isspace c); [discriminate | reflexivity].
Qed.

Lemma rstrip_id s : ends_nonspace s = true -> rstrip s = s.
Proof.
  induction s as [|c s IH]; [discriminate|].
  destruct s as [|c' s'].
  - simpl. destruct (isspace c); [discriminate | reflexivity].
  - intros H. change (ends_nonspace (String c' s') = true) in H.
    change (rstrip (String c (String c' s')))
      with (match rstrip (String c' s') with
            | EmptyString => if isspace c then EmptyString else String c EmptyString
            | r => String c r
            end).
    rewrite (IH H). reflexivity.
Qed.

Lemma strip_id s :
  starts_nonspace s = true -> ends_nonspace s = true -> strip s = s.
Proof. intros Hs He. unfold strip. rewrite (lstrip_id s Hs). apply rstrip_id, He. Qed.

Lemma ends_nonspace_app a b :
  ends_nonspace b = true -> ends_nonspace (a +:+ b) = true.
Proof.
  intros Hb. induction a as [|c a IH]; [exact Hb|].
  rewrite str_app_cons. destruct (a +:+ b) eqn:E; [discriminate IH | exact IH].
Qed.

Lemma starts_nonspace_app a b :
  starts_nonspace a = true -> starts_nonspace (a +:+ b) = true.
Proof. destruct a; [discriminate | intros H; exact H]. Qed.

Lemma strip_space_cons s : strip (String " " s) = strip s.
Proof. reflexivity. Qed.

(** *** Decimal numerals *)

Lemma digit_cases d : 0 <= d < 10 ->
  d = 0 \/ d = 1 \/ d = 2 \/ d = 3 \/ d = 4 \/ d = 5 \/ d = 6 \/ d = 7 \/ d = 8 \/ d = 9.
Proof. lia. Qed.

Lemma digit_char_isdigit d : 0 <= d < 10 -> isdigit (digit_char d) = true.
Proof.
  intros H. destruct (digit_cases d H) as [->|[->|[->|[->|[->|[->|[->|[->|[->| ->]]]]]]]]];
    reflexivity.
Qed.

Lemma digit_char_value d : 0 <= d < 10 -> Z.of_N (code (digit_char d)) - 48 = d.
Proof.
  intros H. destruct (digit_cases d H) as [->|[->|[->|[->|[->|[->|[->|[->|[->| ->]]]]]]]]];
    reflexivity.
Qed.

Lemma digits_acc_all f n acc :
  0 <= n -> sall isdigit acc = true -> sall isdigit (digits_acc f n acc) = true.
Proof.
  revert n acc. induction f as [|f IH]; intros n acc Hn Hacc; simpl; [exact Hacc|].
  assert (Hd : isdigit (digit_char (n mod 10)) = true).
  { apply digit_char_isdigit. apply Z.mod_pos_bound. lia. }
  destruct (n <? 10).
  - simpl. rewrite Hd. exact Hacc.
  - apply IH; [apply Z.div_pos; lia|]. simpl. rewrite Hd. exact Hacc.
Qed.

Lemma digits_acc_nonempty f n acc : digits_acc (S f) n acc <> "".
Proof.
  revert n acc. induction f as [|f IH]; intros n acc.
  - simpl. destruct (n <? 10); discriminate.
  - change (digits_acc (S (S f)) n acc)
      with (if n <? 10 then String (digit_char (n mod 10)) acc
            else digits_acc (S f) (n / 10) (String (digit_char (n mod 10)) acc)).
    destruct (n <? 10); [discriminate | apply IH].
Qed.

Lemma int_acc_digits_acc f n acc :
  0 <= n -> n < Z.of_nat f -> int_acc 0 (digits_acc f n acc) = int_acc n acc.
Proof.
  revert n acc. induction f as [|f IH]; intros n acc Hn Hf; [lia|].
  simpl. destruct (Z.ltb_spec n 10) as [Hlt|Hge].
  - simpl. rewrite digit_char_value by (rewrite Z.mod_small; lia).
    rewrite Z.mod_small by lia. f_equal.
  - rewrite IH.
    + simpl. rewrite digit_char_value by (apply Z.mod_pos_bound; lia).
      f_equal. pose proof (Z.div_mod n 10). lia.
    + apply Z.div_pos; lia.
    + assert (n / 10 < n) by (apply Z.div_lt; lia). lia.
Qed.

Lemma str_of_int_nonneg n :
  0 <= n -> str_of_int n = digits_acc (S (Z.to_nat n)) n "".
Proof. intros H. unfold str_of_int. destruct (Z.ltb_spec n 0); [lia | reflexivity]. Qed.

(** [int(str(n)) == n] for a non-negative [n]. *)
Lemma int_of_str n : 0 <= n -> int_of_digits (str_of_int n) = n.
Proof.
  intros H. rewrite str_of_int_nonneg by exact H. unfold int_of_digits.
  rewrite int_acc_digits_acc by lia. reflexivity.
Qed.

Lemma str_of_int_digits n : 0 <= n -> sall isdigit (str_of_int n) = true.
Proof.
  intros H. rewrite str_of_int_nonneg by exact H.
  apply digits_acc_all; [exact H | reflexivity].
Qed.

Lemma str_of_int_nonempty n : str_of_int n <> "".
Proof.
  unfold str_of_int. destruct (n <? 0); [discriminate | apply digits_acc_nonempty].
Qed.

Lemma digits_acc_length f n acc w :
  0 <= n < 10 ^ Z.of_nat w -> (1 <= w)%nat ->
  (String.length (digits_acc f n acc) <= String.length acc + w)%nat.
Proof.
  revert n acc w. induction f as [|f IH]; intros n acc w Hn Hw; simpl; [lia|].
  destruct (Z.ltb_spec n 10) as [Hlt|Hge]; [simpl; lia|].
  destruct w as [|[|w']]; [lia | simpl in Hn; lia |].
  specialize (IH (n / 10) (String (digit_char (n mod 10)) acc) (S w')).
  simpl String.length in IH.
  assert (0 <= n / 10 < 10 ^ Z.of_nat (S w')).
  { split; [apply Z.div_pos; lia|]. apply Z.div_lt_upper_bound; [lia|].
    replace (Z.of_nat (S (S w'))) with (Z.succ (Z.of_nat (S w'))) in Hn by lia.
    rewrite Z.pow_succ_r in Hn by lia. lia. }
  specialize (IH ltac:(assumption) ltac:(lia)). lia.
Qed.

Lemma zeros_length k : String.length (zeros k) = k.
Proof. induction k as [|k IH]; simpl; [reflexivity | rewrite IH; reflexivity]. Qed.

Lemma zeros_digits k : sall isdigit (zeros k) = true.
Proof. induction k as [|k IH]; simpl; [reflexivity | exact IH]. Qed.

(** A field in range is rendered on exactly [w] digits. *)
Lemma pad0_field w n :
  0 <= n < 10 ^ Z.of_nat w -> (1 <= w)%nat ->
  String.length (pad0 w n) = w /\ sall isdigit (pad0 w n) = true.
Proof.
  intros Hn Hw. unfold pad0. split.
  - rewrite str_length_app, zeros_length.
    assert (String.length (str_of_int n) <= w)%nat; [|lia].
    rewrite str_of_int_nonneg by lia.
    exact (digits_acc_length _ n "" w Hn Hw).
  - rewrite sall_app, zeros_digits, str_of_int_digits by lia. reflexivity.
Qed.

Lemma digit_nonspace c : isdigit c = true -> isspace c = false.
Proof. destruct c as [[] [] [] [] [] [] [] []]; (discriminate || reflexivity). Qed.

Lemma digit_upper c : isdigit c = true -> upper_char c = c.
Proof. destruct c as [[] [] [] [] [] [] [] []]; (discriminate || reflexivity). Qed.

Lemma digits_ends_nonspace s :
  s <> "" -> sall isdigit s = true -> ends_nonspace s = true.
Proof.
  induction s as [|c s IH]; [congruence|]. intros _ [Hc Hs]%andb_true_iff.
  destruct s as [|c' s'].
  - simpl. rewrite (digit_nonspace c Hc). reflexivity.
  - apply IH; [discriminate | exact Hs].
Qed.

Lemma upper_digits s : sall isdigit s = true -> upper s = s.
Proof. apply smap_id, digit_upper. Qed.
(** *** Reading a field back *)

Lemma slice_at pre f post a b :
  String.length pre = a -> String.length f = (b - a)%nat ->
  slice a b (pre +:+ f +:+ post) = f.
Proof.
  intros <- Hf. unfold slice. rewrite str_drop_app, <- Hf. apply str_take_app.
Qed.

Lemma int_acc_zeros k s : int_acc 0 (zeros k +:+ s) = int_acc 0 s.
Proof.
  induction k as [|k IH]; [rewrite str_app_nil_l; reflexivity|].
  cbn [zeros]. rewrite str_app_cons. cbn [int_acc]. exact IH.
Qed.

Lemma int_of_pad0 w n : 0 <= n -> int_of_digits (pad0 w n) = n.
Proof.
  intros H. unfold int_of_digits, pad0. rewrite int_acc_zeros.
  exact (int_of_str n H).
Qed.

End PyStrFacts.

(** ** The codec: frames that are formatted and parsed back *)

Module ProtocolFacts.
Import PyStr PyStrFacts Protocol.

Lemma callsign_char_nonspace c : callsign_char c = true -> isspace c = false.
Proof. destruct c as [[] [] [] [] [] [] [] []]; (discriminate || reflexivity). Qed.

Lemma callsign_char_upper c : callsign_char c = true -> upper_char c = c.
Proof. destruct c as [[] [] [] [] [] [] [] []]; (discriminate || reflexivity). Qed.

Lemma callsign_upper s : is_callsign s = true -> upper s = s.
Proof.
  intros [_ H]%andb_true_iff. exact (smap_id _ _ _ callsign_char_upper H).
Qed.

Lemma callsign_starts s : is_callsign s = true -> starts_nonspace s = true.
Proof.
  destruct s as [|c s]; [discriminate|].
  intros [_ H]%andb_true_iff. simpl in H. apply andb_true_iff in H as [Hc _].
  simpl. rewrite (callsign_char_nonspace c Hc). reflexivity.
Qed.

(** A frame [<remote> <local> JS8CHESS <payload>] is parsed by its
    payload. *)
Lemma parse_message_directed rc lc p :
  is_callsign rc = true -> is_callsign lc = true -> ends_nonspace p = true ->
  parse_message (rc +:+ " " +:+ lc +:+ " JS8CHESS " +:+ p) lc rc "" =
  Some (parse_payload rc lc (strip (upper p))).
Proof.
  intros Hrc Hlc Hp. unfold parse_message.
  rewrite strip_id.
  2: { apply starts_nonspace_app, callsign_starts, Hrc. }
  2: { do 4 apply ends_nonspace_app. exact Hp. }
  rewrite !upper_app, (callsign_upper rc Hrc), (callsign_upper lc Hlc).
  change (upper " ") with " ". change (upper " JS8CHESS ") with " JS8CHESS ".
  replace (rc +:+ " " +:+ lc +:+ " JS8CHESS " +:+ upper p)
    with ((rc +:+ " " +:+ lc +:+ " JS8CHESS") +:+ String " " (upper p)).
  2: { rewrite !str_app_assoc. reflexivity. }
  rewrite startswith_app. simpl. rewrite str_drop_app.
  rewrite strip_space_cons. reflexivity.
Qed.

Lemma lit_app p r : lit p (p +:+ r) = Some r.
Proof. unfold lit. rewrite startswith_app, str_drop_app. reflexivity. Qed.

Lemma digits_n_app ts r :
  sall isdigit ts = true ->
  digits_n (String.length ts) (ts +:+ r) = Some (ts, r).
Proof.
  induction ts as [|c ts IH]; [reflexivity|].
  intros [Hc Hts]%andb_true_iff. rewrite str_app_cons. simpl.
  rewrite Hc. simpl. rewrite (IH Hts). reflexivity.
Qed.

Lemma span_all p s : sall p s = true -> span p s = (s, "").
Proof.
  induction s as [|c s IH]; [reflexivity|].
  intros [Hc Hs]%andb_true_iff. simpl. rewrite Hc, (IH Hs). reflexivity.
Qed.

Lemma digits_plus_all s :
  s <> "" -> sall isdigit s = true -> digits_plus s = Some (s, "").
Proof.
  intros Hne Hs. unfold digits_plus. rewrite (span_all _ _ Hs).
  destruct s; [congruence | reflexivity].
Qed.

(** A payload that opens with a digit is neither an acknowledgement nor a
    proposal. *)
Lemma digit_payload_not_ack c s :
  isdigit c = true ->
  String.eqb (String c s) ">" || String.eqb (String c s) "" = false.
Proof. destruct c as [[] [] [] [] [] [] [] []]; (discriminate || reflexivity). Qed.

Lemma digit_payload_not_new c s : isdigit c = true -> re_new (String c s) = None.
Proof. destruct c as [[] [] [] [] [] [] [] []]; (discriminate || reflexivity). Qed.

Lemma timestamp_cons ts :
  is_timestamp ts = true ->
  String.length ts = 12%nat /\ sall isdigit ts = true /\
  exists c s, ts = String c s /\ isdigit c = true.
Proof.
  intros [Hl Hd]%andb_true_iff. apply Nat.eqb_eq in Hl.
  repeat split; [exact Hl | exact Hd |].
  destruct ts as [|c s]; [discriminate|]. exists c, s. split; [reflexivity|].
  simpl in Hd. apply andb_true_iff in Hd as [Hc _]. exact Hc.
Qed.

Lemma parse_payload_acceptance rc lc ts c :
  is_timestamp ts = true -> c = "W" \/ c = "B" ->
  parse_payload rc lc (ts +:+ " " +:+ c) =
  {| from_call := rc; to_call := lc; msg_type := ACCEPTANCE;
     color := Some c; timestamp := Some ts; move_num := None; move := None;
     error_code := None; resync_move_num := None |}.
Proof.
  intros Hts Hc. destruct (timestamp_cons ts Hts) as (Hl & Hd & d & s & E & Hdig).
  unfold parse_payload.
  assert (Hack : String.eqb (ts +:+ " " +:+ c) ">"
                 || String.eqb (ts +:+ " " +:+ c) "" = false).
  { rewrite E, str_app_cons. apply digit_payload_not_ack, Hdig. }
  rewrite Hack.
  assert (Hnew : re_new (ts +:+ " " +:+ c) = None).
  { rewrite E, str_app_cons. apply digit_payload_not_new, Hdig. }
  rewrite Hnew.
  unfold re_acceptance. rewrite <- Hl, (digits_n_app ts _ Hd).
  destruct Hc as [-> | ->]; reflexivity.
Qed.

Lemma parse_payload_resync_ok rc lc ts n :
  is_timestamp ts = true -> 0 <= n ->
  parse_payload rc lc ("OK RS " +:+ ts +:+ " MN=" +:+ str_of_int n) =
  {| from_call := rc; to_call := lc; msg_type := RESYNC_OK;
     color := None; timestamp := Some ts; move_num := None; move := None;
     error_code := None; resync_move_num := Some n |}.
Proof.
  intros Hts Hn. destruct (timestamp_cons ts Hts) as (Hl & Hd & _).
  unfold parse_payload.
  set (rest := ts +:+ " MN=" +:+ str_of_int n).
  assert (E : forall t : string,
             String.eqb (String "O" t) ">" || String.eqb (String "O" t) "" = false /\
             re_new (String "O" t) = None /\
             re_acceptance (String "O" t) = None /\
             re_error (String "O" t) = None /\
             re_resync_request (String "O" t) = None).
  { intros t. repeat split; reflexivity. }
  change ("OK RS " +:+ rest) with (String "O" ("K RS " +:+ rest)).
  destruct (E ("K RS " +:+ rest)) as (-> & -> & -> & -> & ->).
  change (String "O" ("K RS " +:+ rest)) with ("OK RS " +:+ rest).
  unfold re_resync_ok. rewrite lit_app. simpl.
  unfold re_resync_tail, rest. rewrite <- Hl, (digits_n_app ts _ Hd). simpl.
  rewrite lit_app. simpl.
  rewrite (digits_plus_all _ (str_of_int_nonempty n) (str_of_int_digits n Hn)).
  simpl. rewrite (int_of_str n Hn). reflexivity.
Qed.

Lemma timestamp_strip ts r :
  is_timestamp ts = true -> ends_nonspace r = true ->
  strip (upper (ts +:+ r)) = ts +:+ upper r /\ ends_nonspace (ts +:+ r) = true.
Proof.
  intros Hts Hr. destruct (timestamp_cons ts Hts) as (_ & Hd & c & s & E & Hc).
  split; [|apply ends_nonspace_app, Hr].
  rewrite upper_app, (upper_digits ts Hd). apply strip_id.
  - rewrite E, str_app_cons. simpl. rewrite (digit_nonspace c Hc). reflexivity.
  - apply ends_nonspace_app.
    clear -Hr. induction r as [|a r IH]; [discriminate|].
    destruct r as [|b r].
    + simpl in *. destruct a as [[] [] [] [] [] [] [] []]; (discriminate || reflexivity).
    + exact (IH Hr).
Qed.

(** C2 (as amended).  A frame is accepted as directed to a station when
    it begins [<remote> <local> JS8CHESS] in that station's terms, for the
    acceptance and resync-ok kinds too: the frames [fmt_acceptance(L, R,
    ts, c)] and [fmt_resync_ok(L, R, ts, n)] that station [L] sends to [R]
    parse, at [R] (local_call=R, remote_call=L), to an Acceptance with
    timestamp [ts] and color [c] and to a ResyncOk with timestamp [ts] and
    ordinal [n]. *)
Theorem parse_fmt_acceptance_resync_ok_at_peer L R ts c n :
  is_callsign L = true -> is_callsign R = true ->
  is_timestamp ts = true -> c = "W" \/ c = "B" -> 0 <= n ->
  parse_message (fmt_acceptance L R ts c) R L "" =
    Some {| from_call := L; to_call := R; msg_type := ACCEPTANCE;
            color := Some c; timestamp := Some ts; move_num := None;
            move := None; error_code := None; resync_move_num := None |}
  /\ parse_message (fmt_resync_ok L R ts n) R L "" =
    Some {| from_call := L; to_call := R; msg_type := RESYNC_OK;
            color := None; timestamp := Some ts; move_num := None;
            move := None; error_code := None; resync_move_num := Some n |}.
Proof.
  intros HL HR Hts Hc Hn. split.
  - unfold fmt_acceptance.
    assert (Hup : upper c = c) by (destruct Hc as [-> | ->]; reflexivity).
    rewrite Hup.
    assert (He : ends_nonspace (" " +:+ c) = true)
      by (destruct Hc as [-> | ->]; reflexivity).
    destruct (timestamp_strip ts (" " +:+ c) Hts He) as [Hs Hends].
    rewrite (parse_message_directed L R _ HL HR Hends), Hs.
    rewrite upper_app, Hup. change (upper " ") with " ".
    f_equal. exact (parse_payload_acceptance L R ts c Hts Hc).
  - unfold fmt_resync_ok.
    pose proof (str_of_int_digits n Hn) as Hd.
    pose proof (str_of_int_nonempty n) as Hne.
    assert (He : ends_nonspace (" MN=" +:+ str_of_int n) = true)
      by (apply ends_nonspace_app, digits_ends_nonspace; assumption).
    destruct (timestamp_strip ts _ Hts He) as [Hs Hends].
    change (L +:+ " " +:+ R +:+ " JS8CHESS OK RS " +:+ ts +:+ " MN=" +:+ str_of_int n)
      with (L +:+ " " +:+ R +:+ " JS8CHESS " +:+ "OK RS " +:+ ts +:+ " MN=" +:+ str_of_int n).
    assert (Hp : ends_nonspace ("OK RS " +:+ ts +:+ " MN=" +:+ str_of_int n) = true)
      by (apply ends_nonspace_app, Hends).
    rewrite (parse_message_directed L R _ HL HR Hp).
    rewrite upper_app. change (upper "OK RS ") with "OK RS ".
    assert (Hs' : strip ("OK RS " +:+ upper (ts +:+ " MN=" +:+ str_of_int n))
                  = "OK RS " +:+ ts +:+ " MN=" +:+ str_of_int n).
    { rewrite upper_app, (upper_digits ts) by (apply timestamp_cons, Hts).
      rewrite upper_app, (upper_digits _ Hd). change (upper " MN=") with " MN=".
      apply strip_id; [reflexivity|]. apply ends_nonspace_app, Hends. }
    rewrite Hs'. f_equal. exact (parse_payload_resync_ok L R ts n Hts Hn).
Qed.

Lemma parse_fmt_acceptance_resync_ok_at_peer_witness :
  parse_message (fmt_acceptance "CALLSIGN" "SWL" "202506011430" "B") "SWL" "CALLSIGN" "" =
    Some {| from_call := "CALLSIGN"; to_call := "SWL"; msg_type := ACCEPTANCE;
            color := Some "B"; timestamp := Some "202506011430"; move_num := None;
            move := None; error_code := None; resync_move_num := None |}
  /\ parse_message (fmt_resync_ok "CALLSIGN" "SWL" "202506011430" 3) "SWL" "CALLSIGN" "" =
    Some {| from_call := "CALLSIGN"; to_call := "SWL"; msg_type := RESYNC_OK;
            color := None; timestamp := Some "202506011430"; move_num := None;
            move := None; error_code := None; resync_move_num := Some 3 |}.
Proof.
  apply (parse_fmt_acceptance_resync_ok_at_peer "CALLSIGN" "SWL" "202506011430" "B" 3);
    [reflexivity | reflexivity | reflexivity | right; reflexivity | lia].
Defined.

(** C2 (as stated) fails: parsed from the sender's own side (local_call=L,
    remote_call=R), the frames it formats are not directed to it. *)
Lemma parse_fmt_acceptance_own_side_counterexample :
  is_callsign "CALLSIGN" = true /\ is_callsign "SWL" = true /\
  "CALLSIGN" <> "SWL" /\ is_timestamp "202506011430" = true /\
  parse_message (fmt_acceptance "CALLSIGN" "SWL" "202506011430" "W")
    "CALLSIGN" "SWL" "" = None /\
  parse_message (fmt_resync_ok "CALLSIGN" "SWL" "202506011430" 3)
    "CALLSIGN" "SWL" "" = None.
Proof. repeat apply conj; first [discriminate | vm_compute; reflexivity]. Qed.
End ProtocolFacts.

(** ** The game session *)

Module GameFacts.
Import PyStr Chess Fs Game.

Section Session.
Context {lib : Lib}.

Lemma push_stack_length (b : Board) (mv : Move) :
  length (move_stack (push b mv)) = S (length (move_stack b)).
Proof. unfold push. simpl. rewrite length_app. simpl. lia. Qed.

Lemma move_list_uci_map (s : GameSession) :
  move_list_uci s = map uci (move_stack (board s)).
Proof.
  unfold move_list_uci.
  assert (H : forall (l : list Move) (acc : list string),
             fold_left (fun moves mv => moves ++ [uci mv]) l acc = acc ++ map uci l).
  { induction l as [|m l IH]; intros acc; simpl.
    - rewrite app_nil_r. reflexivity.
    - rewrite IH, <- app_assoc. reflexivity. }
  apply (H _ []).
Qed.

Lemma move_list_uci_length (s : GameSession) :
  length (move_list_uci s) = length (move_stack (board s)).
Proof. rewrite move_list_uci_map. apply length_map. Qed.

(** What [apply_move] returns, by the two checks it makes. *)
Lemma apply_move_cases (s : GameSession) (u : string) (d : Disk) :
  (validate_move s u = false /\ apply_move s u d = (false, s, d))
  \/ (exists mv,
        from_uci u = Some mv /\ legal (position (board s)) mv = true /\
        validate_move s u = true /\
        (apply_move s u d).1.1 = true /\
        board (apply_move s u d).1.2 = push (board s) mv /\
        game_id (apply_move s u d).1.2 = game_id s /\
        pgn_path (apply_move s u d).1.2 = pgn_path s).
Proof.
  unfold apply_move, validate_move.
  destruct (from_uci u) as [mv|]; [|left; split; reflexivity].
  destruct (legal (position (board s)) mv) eqn:E; simpl.
  - right. exists mv. destruct (add_variation (pgn_game s) (pgn_node s) mv).
    simpl. repeat split; first [reflexivity | exact E].
  - left. split; reflexivity.
Qed.

Lemma apply_move_result (s : GameSession) (u : string) (d : Disk) :
  (apply_move s u d).1.1 = validate_move s u.
Proof.
  destruct (apply_move_cases s u d) as [[Hv ->] | (mv & _ & _ & Hv & Hr & _)];
    simpl; congruence.
Qed.

(** C6.  [apply_move(s)] returns false exactly when [s] does not parse
    as coordinate notation or is illegal in the current position, and a
    failed [apply_move] changes nothing: the session (board, move stack,
    notation document and its current node) and the disk are as
    before. *)
Theorem apply_move_false_iff_and_unchanged
    (s : GameSession) (u : string) (d : Disk) :
  ((apply_move s u d).1.1 = false <->
     from_uci u = None \/
     exists mv, from_uci u = Some mv /\ legal (position (board s)) mv = false)
  /\ ((apply_move s u d).1.1 = false ->
        (apply_move s u d).1.2 = s /\ (apply_move s u d).2 = d).
Proof.
  split.
  - rewrite apply_move_result. unfold validate_move.
    destruct (from_uci u) as [mv|].
    + split.
      * intros H. right. exists mv. split; [reflexivity | exact H].
      * intros [H | (mv' & H & Hl)]; [discriminate | congruence].
    + split; [intros _; left; reflexivity | reflexivity].
  - intros H.
    destruct (apply_move_cases s u d) as [[_ ->] | (mv & _ & _ & _ & Hr & _)].
    + split; reflexivity.
    + congruence.
Qed.

Lemma apply_move_expected (s : GameSession) (u : string) (d : Disk) :
  (apply_move s u d).1.1 = true ->
  expected_move_num (apply_move s u d).1.2 = expected_move_num s + 1.
Proof.
  intros H.
  destruct (apply_move_cases s u d) as [[_ E] | (mv & _ & _ & _ & _ & Hb & _)].
  - rewrite E in H. discriminate.
  - unfold expected_move_num. rewrite Hb, push_stack_length. lia.
Qed.

(** C5.  In every reachable session state [expected_move_num] is the
    number of applied plies (the length of the move stack, which is the
    length of the move list) plus one, and every successful
    [apply_move] increases it by exactly 1. *)
Theorem expected_move_num_is_plies_plus_one
    (s : GameSession) (u : string) (d : Disk) :
  reachable s ->
  expected_move_num s = Z.of_nat (length (move_stack (board s))) + 1
  /\ expected_move_num s = Z.of_nat (length (move_list_uci s)) + 1
  /\ ((apply_move s u d).1.1 = true ->
       reachable (apply_move s u d).1.2
       /\ expected_move_num (apply_move s u d).1.2 = expected_move_num s + 1).
Proof.
  intros Hs. split; [reflexivity|]. split.
  - rewrite move_list_uci_length. reflexivity.
  - intros H. split; [apply reach_apply, Hs | apply apply_move_expected, H].
Qed.

(** *** Restoring from the notation file *)

Lemma replay_spec (target : Z) (moves : list Move) (b : Board)
    (node : NodeRef) (applied : Z) :
  forall k, k = Z.to_nat (Z.min (Z.of_nat (length moves)) (target - applied)) ->
  replay target moves b node applied =
  (fold_left push (take k moves) b, node ++ repeat O k, applied + Z.of_nat k).
Proof.
  revert b node applied. induction moves as [|mv rest IH]; intros b node applied k Hk.
  - destruct k as [|k']; [|simpl in Hk; lia].
    simpl. rewrite app_nil_r, Z.add_0_r. reflexivity.
  - cbn [replay]. destruct (Z.leb_spec target applied) as [Hle|Hgt].
    + destruct k as [|k']; [|lia].
      simpl. rewrite app_nil_r, Z.add_0_r. reflexivity.
    + destruct k as [|k']; [simpl length in Hk; lia|].
      rewrite (IH _ _ _ k') by (simpl length in Hk; lia).
      cbn [take fold_left repeat]. rewrite <- app_assoc.
      f_equal; try reflexivity; lia.
Qed.

Lemma fold_push_stack_length (ms : list Move) (b : Board) :
  length (move_stack (fold_left push ms b)) = (length (move_stack b) + length ms)%nat.
Proof.
  revert b. induction ms as [|m ms IH]; intros b; simpl; [lia|].
  rewrite IH, push_stack_length. lia.
Qed.

Lemma restored_stack_length (s : GameSession) (target_ply : Z) (g : Game Move) :
  Z.of_nat (length (move_stack (board (restored s target_ply g)))) =
  Z.max 0 (Z.min (Z.of_nat (length (mainline_moves g))) target_ply).
Proof.
  unfold restored. rewrite (replay_spec _ _ _ _ _ _ eq_refl). simpl.
  rewrite fold_push_stack_length, length_take. simpl. lia.
Qed.

Lemma restored_game_id (s : GameSession) (target_ply : Z) (g : Game Move) :
  game_id (restored s target_ply g) = game_id s.
Proof.
  unfold restored.
  destruct (replay target_ply (mainline_moves g) new_board [] 0) as [[? ?] ?].
  reflexivity.
Qed.

Lemma restore_to_ply_cases (s : GameSession) (target_ply : Z) (d : Disk) :
  (restore_to_ply s target_ply d = (false, s) /\
   (files d !! pgn_path s = None \/ readable d = false \/
    exists text, files d !! pgn_path s = Some text /\
                 (read_game text = ReadRaises \/ read_game text = ReadNone)))
  \/ (exists text g,
        files d !! pgn_path s = Some text /\ readable d = true /\
        read_game text = ReadGame g /\
        restore_to_ply s target_ply d = (true, restored s target_ply g)).
Proof.
  unfold restore_to_ply, file_exists, read_file, restored.
  destruct (files d !! pgn_path s) as [text|] eqn:Ef.
  2: { left. rewrite bool_decide_eq_false_2 by (intros [? ?]; discriminate).
       simpl. split; [reflexivity | left; reflexivity]. }
  rewrite bool_decide_eq_true_2 by eauto. simpl.
  destruct (readable d) eqn:Er.
  2: { left. split; [reflexivity | right; left; reflexivity]. }
  destruct (read_game text) as [| |g] eqn:Eg.
  - left. split; [reflexivity|]. right; right. exists text. auto.
  - left. split; [reflexivity|]. right; right. exists text. auto.
  - right. exists text, g.
    destruct (replay target_ply (mainline_moves g) new_board [] 0) as [[b node] k].
    auto.
Qed.

(** A failed restore leaves the session as it was. *)
Lemma restore_to_ply_failure_unchanged (s : GameSession) (n : Z) (d : Disk) :
  (restore_to_ply s n d).1 = false -> (restore_to_ply s n d).2 = s.
Proof.
  destruct (restore_to_ply_cases s n d) as [[-> _] | (text & g & _ & _ & _ & ->)];
    [reflexivity | discriminate].
Qed.

(** A restore to a ply the file holds replays exactly that many plies. *)
Lemma restore_to_ply_within (s : GameSession) (n : Z) (d : Disk) text g :
  files d !! pgn_path s = Some text -> readable d = true ->
  read_game text = ReadGame g ->
  0 <= n <= Z.of_nat (length (mainline_moves g)) ->
  (restore_to_ply s n d).1 = true /\
  Z.of_nat (length (move_stack (board (restore_to_ply s n d).2))) = n /\
  pgn_game (restore_to_ply s n d).2 = g.
Proof.
  intros Hf Hr Hg Hn.
  destruct (restore_to_ply_cases s n d)
    as [[_ [H | [H | (t & H & H')]]] | (t & g' & Hf' & _ & Hg' & ->)].
  - congruence.
  - congruence.
  - assert (t = text) by congruence. subst t. destruct H'; congruence.
  - assert (t = text) by congruence. subst t.
    assert (g' = g) by congruence. subst g'.
    simpl. split; [reflexivity|]. split.
    + rewrite restored_stack_length. lia.
    + unfold restored.
      destruct (replay n (mainline_moves g) new_board [] 0) as [[b node] k].
      reflexivity.
Qed.

(** A restore past the end of the file succeeds all the same, with the
    plies the file has. *)
Lemma restore_to_ply_beyond (s : GameSession) (n : Z) (d : Disk) text g :
  files d !! pgn_path s = Some text -> readable d = true ->
  read_game text = ReadGame g ->
  Z.of_nat (length (mainline_moves g)) < n ->
  (restore_to_ply s n d).1 = true /\
  length (move_stack (board (restore_to_ply s n d).2)) = length (mainline_moves g).
Proof.
  intros Hf Hr Hg Hn.
  destruct (restore_to_ply_cases s n d)
    as [[_ [H | [H | (t & H & H')]]] | (t & g' & Hf' & _ & Hg' & ->)].
  - congruence.
  - congruence.
  - assert (t = text) by congruence. subst t. destruct H'; congruence.
  - assert (t = text) by congruence. subst t.
    assert (g' = g) by congruence. subst g'.
    simpl. split; [reflexivity|].
    pose proof (restored_stack_length s n g). lia.
Qed.
End Session.
End GameFacts.

(** ** The session on concrete games *)

Module GameRuns.
Import PyStr Chess Fs Game GameFacts Book Scenario.
#[local] Existing Instance Book.lib.

Example session0_facts :
  expected_move_num session0 = 1 /\
  pgn_path session0 = "~/.js8chess/MM7XYZ-202506011430.pgn" /\
  headers (pgn_game session0) !! "Date" = Some "2025.06.01" /\
  headers (pgn_game session0) !! "White" = Some "MM7MMU" /\
  headers (pgn_game session0) !! "Black" = Some "MM7XYZ" /\
  is_local_turn session0 = true.
Proof. cbv zeta. repeat apply conj; vm_compute; reflexivity. Qed.

Example apply_move_runs :
  (apply_move session0 "e2e4" empty_disk).1.1 = true /\
  (apply_move session0 "e2e5" empty_disk).1.1 = false /\
  (apply_move session0 "e7e5" empty_disk).1.1 = false /\
  (apply_move session0 "zzzz" empty_disk).1.1 = false /\
  move_list_uci after2.1 = ["e2e4"; "e7e5"] /\
  expected_move_num after4.1 = 5 /\
  files after4.2 !! pgn_path session0 = Some "e2e4 e7e5 d2d4 d7d5 *".
Proof. cbv zeta. repeat apply conj; vm_compute; reflexivity. Qed.

Example restore_to_ply_runs :
  let r2 := restore_to_ply after4.1 2 after4.2 in
  let r0 := restore_to_ply after2.1 0 after2.2 in
  r2.1 = true /\ expected_move_num r2.2 = 3 /\
  move_list_uci r2.2 = ["e2e4"; "e7e5"] /\
  r0.1 = true /\ expected_move_num r0.2 = 1 /\
  (restore_to_ply session0 3 empty_disk).1 = false.
Proof. cbv zeta. repeat apply conj; vm_compute; reflexivity. Qed.

Lemma apply_move_false_iff_and_unchanged_witness :
  (apply_move after2.1 "e2e4" after2.2).1.1 = false /\
  (apply_move after2.1 "e2e4" after2.2).1.2 = after2.1 /\
  (apply_move after2.1 "e2e4" after2.2).2 = after2.2.
Proof.
  assert (H : (apply_move after2.1 "e2e4" after2.2).1.1 = false)
    by (vm_compute; reflexivity).
  split; [exact H|].
  exact (proj2 (apply_move_false_iff_and_unchanged after2.1 "e2e4" after2.2) H).
Defined.

Lemma expected_move_num_is_plies_plus_one_witness :
  reachable session0 /\
  (apply_move session0 "e2e4" empty_disk).1.1 = true /\
  expected_move_num session0 = 1 /\
  expected_move_num (apply_move session0 "e2e4" empty_disk).1.2 = 2.
Proof.
  assert (Hr : reachable session0) by apply reach_new.
  assert (Ha : (apply_move session0 "e2e4" empty_disk).1.1 = true)
    by (vm_compute; reflexivity).
  destruct (expected_move_num_is_plies_plus_one session0 "e2e4" empty_disk Hr)
    as (H1 & _ & H3).
  split; [exact Hr|]. split; [exact Ha|]. split; [exact H1|].
  exact (proj2 (H3 Ha)).
Defined.

(** C3 at an input where it fails: the notation file holds the two plies
    e2e4 e7e5 and the session is asked to restore to ply 5.  The restore
    reports success with a move stack of length 2. *)
Theorem restore_to_ply_beyond_file :
  files after2.2 !! pgn_path after2.1 = Some "e2e4 e7e5 *" /\
  (restore_to_ply after2.1 5 after2.2).1 = true /\
  length (move_stack (board (restore_to_ply after2.1 5 after2.2).2)) = 2%nat /\
  expected_move_num (restore_to_ply after2.1 5 after2.2).2 = 3.
Proof. cbv zeta. repeat apply conj; vm_compute; reflexivity. Qed.
End GameRuns.

(** ** The controller *)

Module EngineFacts.
Import PyStr PyStrFacts Protocol ProtocolFacts Chess Fs Game GameFacts Engine.

Section Controller.
Context {lib : Lib}.
Variable cfg : Config.

Abbreviation L := (cfg_local_callsign cfg).
Abbreviation R := (cfg_remote_callsign cfg).

Lemma send_error_replied code w :
  replied cfg (fmt_error L R code) w (send_error cfg code w).
Proof. unfold replied, send_error. simpl. repeat split; reflexivity. Qed.

Lemma set_game_same w g : game w = Some g -> set_game (Some g) w = w.
Proof. destruct w. simpl. intros ->. reflexivity. Qed.

(** *** Proposals *)

(** C10.  An inbound NewProposal received while the engine state is
    GameActive is ignored entirely: the handler returns the world it
    was given, so the engine state, the session (board, move stack,
    game id, colors), the position cache, the disk and the queue are
    unchanged; nothing is transmitted and nothing is printed. *)
Theorem new_proposal_while_active_ignored
    (from_call to_call text : string) (msg : OTAMessage) (w : World) :
  state w = GAME_ACTIVE ->
  parse_message text L R from_call = Some msg ->
  msg_type msg = NEW_PROPOSAL ->
  handle_new_proposal cfg msg w = w /\
  on_radio_message cfg from_call to_call text w = (Ok (), w).
Proof.
  intros Hs Hp Ht.
  assert (H : handle_new_proposal cfg msg w = w).
  { unfold handle_new_proposal. destruct (decide (state w = GAME_ACTIVE)); congruence. }
  split; [exact H|].
  unfold on_radio_message. rewrite Hp.
  destruct (decide (msg_type msg = NEW_PROPOSAL)); [|contradiction].
  rewrite H. reflexivity.
Qed.

Lemma now_timestamp_is_timestamp t :
  valid_clock t -> is_timestamp (now_timestamp t) = true.
Proof.
  intros (Hy & Hm & Hd & Hh & Hmi). unfold is_timestamp, now_timestamp.
  destruct (pad0_field 4 (year t)) as [L1 D1]; [simpl; lia | lia |].
  destruct (pad0_field 2 (month t)) as [L2 D2]; [simpl; lia | lia |].
  destruct (pad0_field 2 (day t)) as [L3 D3]; [simpl; lia | lia |].
  destruct (pad0_field 2 (hour t)) as [L4 D4]; [simpl; lia | lia |].
  destruct (pad0_field 2 (minute t)) as [L5 D5]; [simpl; lia | lia |].
  rewrite !str_length_app, !sall_app, L1, L2, L3, L4, L5, D1, D2, D3, D4, D5.
  reflexivity.
Qed.

(** The timestamp is the clock reading: its fields, read back as
    numbers, are year, month, day, hour and minute. *)
Lemma now_timestamp_fields t :
  valid_clock t ->
  let ts := now_timestamp t in
  int_of_digits (slice 0 4 ts) = year t /\
  int_of_digits (slice 4 6 ts) = month t /\
  int_of_digits (slice 6 8 ts) = day t /\
  int_of_digits (slice 8 10 ts) = hour t /\
  int_of_digits (slice 10 12 ts) = minute t.
Proof.
  intros (Hy & Hm & Hd & Hh & Hmi). cbv zeta. unfold now_timestamp.
  destruct (pad0_field 4 (year t)) as [L1 _]; [simpl; lia | lia |].
  destruct (pad0_field 2 (month t)) as [L2 _]; [simpl; lia | lia |].
  destruct (pad0_field 2 (day t)) as [L3 _]; [simpl; lia | lia |].
  destruct (pad0_field 2 (hour t)) as [L4 _]; [simpl; lia | lia |].
  destruct (pad0_field 2 (minute t)) as [L5 _]; [simpl; lia | lia |].
  set (Y := pad0 4 (year t)) in *. set (Mo := pad0 2 (month t)) in *.
  set (D := pad0 2 (day t)) in *. set (H := pad0 2 (hour t)) in *.
  set (Mi := pad0 2 (minute t)) in *.
  assert (E1 : slice 0 4 (Y +:+ Mo +:+ D +:+ H +:+ Mi) = Y).
  { rewrite <- (str_app_nil_l (Y +:+ Mo +:+ D +:+ H +:+ Mi)).
    apply slice_at; [reflexivity | exact L1]. }
  assert (E2 : slice 4 6 (Y +:+ Mo +:+ D +:+ H +:+ Mi) = Mo).
  { apply slice_at; [exact L1 | exact L2]. }
  assert (E3 : slice 6 8 (Y +:+ Mo +:+ D +:+ H +:+ Mi) = D).
  { rewrite <- (str_app_assoc Y Mo).
    apply slice_at; [rewrite str_length_app, L1, L2; reflexivity | exact L3]. }
  assert (E4 : slice 8 10 (Y +:+ Mo +:+ D +:+ H +:+ Mi) = H).
  { rewrite <- (str_app_assoc Mo D), <- (str_app_assoc Y (Mo +:+ D)).
    apply slice_at; [rewrite !str_length_app, L1, L2, L3; reflexivity | exact L4]. }
  assert (E5 : slice 10 12 (Y +:+ Mo +:+ D +:+ H +:+ Mi) = Mi).
  { replace (Y +:+ Mo +:+ D +:+ H +:+ Mi)
      with ((Y +:+ Mo +:+ D +:+ H) +:+ Mi +:+ "")
      by (rewrite str_app_nil_r, !str_app_assoc; reflexivity).
    apply slice_at; [rewrite !str_length_app, L1, L2, L3, L4; reflexivity | exact L5]. }
  rewrite E1, E2, E3, E4, E5. subst Y Mo D H Mi.
  repeat apply conj; apply int_of_pad0; lia.
Qed.

(** C7.  With auto-accept enabled and no game active, an inbound
    NewProposal proposing color [c] moves the engine to GameActive with
    a newly created session whose local color is the opposite of [c],
    and transmits the Acceptance frame [<local> <remote> JS8CHESS
    <timestamp> <local color letter>], where the timestamp is minted from
    the clock at that moment: twelve digits that read back as its year,
    month, day, hour and minute.  That timestamp is the session's game
    id. *)
Theorem new_proposal_auto_accepted
    (from_call to_call text : string) (msg : OTAMessage) (c : Color) (w : World) :
  auto_accept cfg = true ->
  state w <> GAME_ACTIVE ->
  valid_clock (clock w) ->
  parse_message text L R from_call = Some msg ->
  msg_type msg = NEW_PROPOSAL ->
  color msg = Some (color_letter c) ->
  let ts := now_timestamp (clock w) in
  let g := new_session ts L R (other c) in
  let w' := handle_new_proposal cfg msg w in
  on_radio_message cfg from_call to_call text w = (Ok (), w') /\
  state w' = GAME_ACTIVE /\
  game w' = Some g /\
  local_color g = other c /\ remote_color g = c /\
  game_id g = ts /\ is_timestamp ts = true /\
  move_stack (board g) = [] /\
  sent w' = sent w ++
    [(upper R,
      L +:+ " " +:+ R +:+ " JS8CHESS " +:+ ts +:+ " "
      +:+ match c with WHITE => "B" | BLACK => "W" end)] /\
  last_position_moves w' = [] /\
  disk w' = disk w /\
  String.length ts = 12%nat /\ sall isdigit ts = true /\
  int_of_digits (slice 0 4 ts) = year (clock w) /\
  int_of_digits (slice 4 6 ts) = month (clock w) /\
  int_of_digits (slice 6 8 ts) = day (clock w) /\
  int_of_digits (slice 8 10 ts) = hour (clock w) /\
  int_of_digits (slice 10 12 ts) = minute (clock w).
Proof.
  intros Ha Hs Hc Hp Ht Hcol ts g w'.
  split.
  { unfold on_radio_message. rewrite Hp.
    destruct (decide (msg_type msg = NEW_PROPOSAL)); [reflexivity | contradiction]. }
  assert (Hw : w' =
    uci_out ("info string Game started — ID: " +:+ ts +:+ ", local: "
             +:+ color_letter (other c) +:+ ", remote: " +:+ color_letter c)
      (set_last_position_moves [] (set_state GAME_ACTIVE (set_game (Some g)
        (bridge_send R (fmt_acceptance L R ts (color_letter (other c)))
          (uci_out ("info string TX acceptance: "
                    +:+ fmt_acceptance L R ts (color_letter (other c)))
             (set_state AWAITING_PROPOSAL w))))))).
  { subst w' g ts. unfold handle_new_proposal.
    destruct (decide (state w = GAME_ACTIVE)); [contradiction|].
    rewrite Ha, Hcol. destruct c; reflexivity. }
  pose proof (now_timestamp_is_timestamp _ Hc) as Hts. fold ts in Hts.
  pose proof (now_timestamp_fields _ Hc) as Hf. cbv zeta in Hf. fold ts in Hf.
  rewrite Hw. cbn [state game sent last_position_moves disk uci_out
                   set_last_position_moves set_state set_game bridge_send].
  split; [reflexivity|]. split; [reflexivity|].
  split; [reflexivity|]. split; [destruct c; reflexivity|].
  split; [reflexivity|]. split; [exact Hts|]. split; [reflexivity|].
  split; [destruct c; reflexivity|].
  split; [reflexivity|]. split; [reflexivity|].
  unfold is_timestamp in Hts. apply andb_true_iff in Hts as [Hlen Hdig].
  split; [apply Nat.eqb_eq, Hlen|]. split; [exact Hdig | exact Hf].
Qed.

(** *** Resync *)

(** C8.  When a ResyncRequest [RS <timestamp> MN=n] arrives while a
    session is active: if the timestamp differs from the session's game
    id the controller replies ERR05; otherwise it attempts
    [restore_to_ply(n-1)], replies [OK RS <id> MN=n] when the restore
    succeeds (the session is then the restored one) and ERR05 when it
    fails. *)
Theorem resync_request_handled
    (msg : OTAMessage) (ts : string) (n : Z) (g : GameSession) (w : World) :
  game w = Some g ->
  timestamp msg = Some ts ->
  resync_move_num msg = Some n ->
  let r := handle_resync_request cfg msg w in
  let restore := restore_to_ply g (n - 1) (disk w) in
  r.1 = Ok () /\
  (ts <> game_id g -> replied cfg (fmt_error L R "ERR05") w r.2) /\
  (ts = game_id g -> restore.1 = false ->
     replied cfg (fmt_error L R "ERR05") w r.2) /\
  (ts = game_id g -> restore.1 = true ->
     sent r.2 = sent w ++ [(upper R, fmt_resync_ok L R (game_id g) n)] /\
     fmt_resync_ok L R (game_id g) n =
       L +:+ " " +:+ R +:+ " JS8CHESS OK RS " +:+ game_id g +:+ " MN=" +:+ str_of_int n /\
     game r.2 = Some restore.2 /\ disk r.2 = disk w /\ state r.2 = state w).
Proof.
  intros Hg Hts Hn r restore. subst r. unfold handle_resync_request.
  rewrite Hg, Hts, Hn.
  destruct (decide (ts = game_id g)) as [E|NE].
  - rewrite bool_decide_eq_true_2 by congruence. simpl.
    fold restore. destruct restore as [ok g'] eqn:Er. destruct ok; simpl.
    + split; [reflexivity|]. split; [contradiction|]. split; [discriminate|].
      intros _ _.
      assert (Hid : game_id g' = game_id g).
    { destruct (restore_to_ply_cases g (n - 1) (disk w))
        as [[H _] | (t & pg & _ & _ & _ & H)];
        fold restore in H; rewrite Er in H; inversion H; subst.
      apply restored_game_id. }
    rewrite Hid. repeat split; reflexivity.
    + split; [reflexivity|]. split; [contradiction|]. split; [|discriminate].
      intros _ _.
      assert (g' = g).
      { pose proof (restore_to_ply_failure_unchanged g (n - 1) (disk w)) as H.
        fold restore in H. rewrite Er in H. exact (H eq_refl). }
      subst g'. rewrite (set_game_same w g Hg). apply send_error_replied.
  - rewrite bool_decide_eq_false_2 by congruence. simpl.
    split; [reflexivity|]. split; [intros _; apply send_error_replied|].
    split; intros; contradiction.
Qed.

(** *** Items taken from the radio queue *)






(** The wait the worker reaches once the state is [GAME_ACTIVE] and the
    front-end has no move the session lacks. *)
Lemma go_play_waits evs w g :
  state w = GAME_ACTIVE -> game w = Some g ->
  drop (length (move_list_uci g)) (last_position_moves w) = [] ->
  go_play cfg evs w =
  match await_radio_move cfg None evs
          (uci_out "info string Waiting for remote move via radio" w) with
  | (Ok (Returned None), evs, w) =>
      (Ok (Returned ()), evs, uci_out "bestmove 0000" w)
  | (Ok (Returned (Some remote_move)), evs, w) =>
      (Ok (Returned ()), evs, uci_out ("bestmove " +:+ remote_move) w)
  | (Ok Blocked, evs, w) => (Ok Blocked, evs, w)
  | (Raise e, evs, w) => (Raise e, evs, w)
  end.
Proof.
  intros Hs Hg Hd. unfold go_play. rewrite Hg, Hs, Hd. simpl.
  rewrite Hg, Hs. simpl. reflexivity.
Qed.

(** Whatever is taken from the queue ends [_await_radio_move]: the result
    of processing the item is returned at once. *)
Lemma await_radio_move_dequeues evs w item q :
  go_stop_event w = false -> 0 <= move_response_wait_seconds cfg ->
  radio_queue w = item :: q ->
  await_radio_move cfg None evs w =
  let '(r, w') := dequeued cfg item (set_radio_queue q w) in (r, evs, w').
Proof.
  intros Hstop Hw Hq. unfold await_radio_move. rewrite Hstop. simpl.
  destruct (Z.ltb_spec (move_response_wait_seconds cfg) 0); [lia|].
  destruct evs; simpl; rewrite Hq; reflexivity.
Qed.

Lemma dequeued_never_blocks item w : (dequeued cfg item w).1 <> Ok Blocked.
Proof.
  unfold dequeued. destruct item as [|msg]; [discriminate|].
  destruct (process_radio_item cfg msg w) as [[r|e] w']; discriminate.
Qed.


(** *** Timeouts and retransmission *)

Lemma retransmit_keeps w :
  let w' := retransmit_last_local_move cfg w in
  state w' = state w /\ game w' = game w /\ disk w' = disk w /\
  radio_queue w' = radio_queue w /\ go_stop_event w' = go_stop_event w /\
  last_position_moves w' = last_position_moves w.
Proof.
  unfold retransmit_last_local_move.
  destruct (game w) as [g|] eqn:Eg;
    [|repeat apply conj; first [reflexivity | exact Eg]].
  destruct (bool_decide _); [repeat apply conj; first [reflexivity | exact Eg]|].
  destruct (_ || _); [repeat apply conj; first [reflexivity | exact Eg]|].
  destruct (_ !! _); repeat apply conj; first [reflexivity | exact Eg].
Qed.

(** The frame a retransmission sends: the last move of the list under the
    ordinal it was played at. *)
Lemma retransmit_frame w g l u :
  game w = Some g -> move_list_uci g = l ++ [u] ->
  retransmit_last_local_move cfg w =
  bridge_send R (fmt_move L R (expected_move_num g - 1) u)
    (uci_out ("info string RETRY TX: " +:+ fmt_move L R (expected_move_num g - 1) u) w).
Proof.
  intros Hg Hl. unfold retransmit_last_local_move. rewrite Hg.
  assert (Hlen : expected_move_num g - 1 = Z.of_nat (length l) + 1).
  { unfold expected_move_num. rewrite <- move_list_uci_length, Hl, length_app.
    simpl. lia. }
  rewrite Hl, Hlen.
  rewrite bool_decide_eq_false_2 by (destruct l; discriminate).
  rewrite length_app. simpl length.
  destruct (Z.ltb_spec (Z.of_nat (length l) + 1) 1) as [?|_]; [lia|].
  destruct (Z.ltb_spec (Z.of_nat (length l + 1)) (Z.of_nat (length l) + 1)) as [?|_]; [lia|].
  simpl orb. cbv iota.
  replace (Z.to_nat (Z.of_nat (length l) + 1 - 1)) with (length l) by lia.
  rewrite lookup_app_r by lia. rewrite Nat.sub_diag. reflexivity.
Qed.

Lemma iter_retransmit n w g l u :
  game w = Some g -> move_list_uci g = l ++ [u] ->
  let frame := fmt_move L R (expected_move_num g - 1) u in
  let w' := Nat.iter n (retransmit_last_local_move cfg) w in
  sent w' = sent w ++ repeat (upper R, frame) n /\
  uci_lines w' = uci_lines w ++ repeat ("info string RETRY TX: " +:+ frame) n /\
  game w' = Some g /\ state w' = state w /\ disk w' = disk w /\
  radio_queue w' = radio_queue w /\ go_stop_event w' = go_stop_event w.
Proof.
  intros Hg Hl frame. cbv zeta. induction n as [|n IH].
  - simpl. rewrite !app_nil_r. repeat apply conj; (reflexivity || exact Hg).
  - rewrite Nat.iter_succ.
    destruct IH as (Hs & Hu & Hg' & Hst & Hd & Hq & Hstop).
    rewrite (retransmit_frame _ g l u Hg' Hl). fold frame. simpl.
    rewrite Hs, Hu, <- !app_assoc, <- !repeat_cons.
    repeat apply conj; (reflexivity || assumption).
Qed.

Lemma await_loop_quiet j evs wait r w :
  radio_queue w = [] -> go_stop_event w = false ->
  5 * Z.of_nat j < wait \/ j = O ->
  await_loop cfg (repeat Timeout j ++ evs) None wait r w =
  await_loop cfg evs None (wait - 5 * Z.of_nat j) r w.
Proof.
  intros Hq Hstop. revert wait. induction j as [|j IH]; intros wait Hj.
  - cbn [repeat app]. f_equal. lia.
  - destruct Hj as [Hj|Hj]; [|discriminate].
    cbn [repeat app await_loop]. rewrite Hq, Hstop.
    rewrite bool_decide_eq_true_2 by reflexivity.
    destruct (Z.leb_spec (wait - 5) 0) as [?|_]; [lia|].
    destruct (Z.ltb_spec (wait - 5) 0) as [?|_]; [lia|].
    cbn [andb]. rewrite IH by lia. f_equal. lia.
Qed.

Lemma await_loop_expiry evs wait r w :
  radio_queue w = [] -> go_stop_event w = false ->
  wait - 5 <= 0 -> 0 <= move_response_wait_seconds cfg ->
  await_loop cfg (Timeout :: evs) None wait r w =
  if 0 <? r
  then await_loop cfg evs None (move_response_wait_seconds cfg) (r - 1)
         (retransmit_last_local_move cfg w)
  else (Ok (Returned None), evs,
        uci_out "info string ERROR: no response after max retries" w).
Proof.
  intros Hq Hstop Hw Hm. cbn [await_loop]. rewrite Hq, Hstop.
  rewrite bool_decide_eq_true_2 by reflexivity.
  destruct (Z.leb_spec (wait - 5) 0) as [_|?]; [|lia]. cbn [andb].
  destruct (0 <? r); [|reflexivity].
  destruct (Z.ltb_spec (move_response_wait_seconds cfg) 0) as [?|_]; [lia | reflexivity].
Qed.

Lemma polls_per_cycle_bounds :
  0 <= move_response_wait_seconds cfg ->
  (1 <= polls_per_cycle cfg)%nat /\
  move_response_wait_seconds cfg <= 5 * Z.of_nat (polls_per_cycle cfg) /\
  (5 * (Z.of_nat (polls_per_cycle cfg) - 1) < move_response_wait_seconds cfg
   \/ polls_per_cycle cfg = 1%nat).
Proof.
  intros Hm. unfold polls_per_cycle.
  pose proof (Z.div_mod (move_response_wait_seconds cfg + 4) 5 ltac:(lia)) as Hdm.
  pose proof (Z.mod_pos_bound (move_response_wait_seconds cfg + 4) 5 ltac:(lia)) as Hb.
  lia.
Qed.

(** One whole cycle of timeouts ends in a retransmission, or in giving up
    when no retry is left. *)
Lemma await_loop_cycle evs r w :
  radio_queue w = [] -> go_stop_event w = false ->
  0 <= move_response_wait_seconds cfg ->
  await_loop cfg (repeat Timeout (polls_per_cycle cfg) ++ evs) None
    (move_response_wait_seconds cfg) r w =
  if 0 <? r
  then await_loop cfg evs None (move_response_wait_seconds cfg) (r - 1)
         (retransmit_last_local_move cfg w)
  else (Ok (Returned None), evs,
        uci_out "info string ERROR: no response after max retries" w).
Proof.
  intros Hq Hstop Hm. destruct (polls_per_cycle_bounds Hm) as (H1 & H2 & H3).
  destruct (polls_per_cycle cfg) as [|p] eqn:Ep; [lia|].
  replace (repeat Timeout (S p) ++ evs) with (repeat Timeout p ++ Timeout :: evs).
  2: { cbn [repeat]. rewrite repeat_cons, <- app_assoc. reflexivity. }
  rewrite await_loop_quiet by (assumption || lia).
  apply await_loop_expiry; (assumption || lia).
Qed.

Lemma await_loop_short k r w :
  radio_queue w = [] -> go_stop_event w = false ->
  0 <= move_response_wait_seconds cfg -> (k < polls_per_cycle cfg)%nat ->
  await_loop cfg (repeat Timeout k) None (move_response_wait_seconds cfg) r w =
  (Ok Blocked, [], w).
Proof.
  intros Hq Hstop Hm Hk. destruct (polls_per_cycle_bounds Hm) as (H1 & H2 & H3).
  rewrite <- (app_nil_r (repeat Timeout k)).
  rewrite await_loop_quiet by (assumption || lia).
  cbn [await_loop]. rewrite Hq. reflexivity.
Qed.

(** The wait over nothing but timeouts: one retransmission per completed
    cycle while retries are left, then the error line. *)
Lemma await_loop_timeouts (r k : nat) w :
  radio_queue w = [] -> go_stop_event w = false ->
  0 <= move_response_wait_seconds cfg ->
  await_loop cfg (repeat Timeout k) None (move_response_wait_seconds cfg)
    (Z.of_nat r) w =
  if (k / polls_per_cycle cfg <=? r)%nat
  then (Ok Blocked, [],
        Nat.iter (k / polls_per_cycle cfg) (retransmit_last_local_move cfg) w)
  else (Ok (Returned None),
        repeat Timeout (k - (r + 1) * polls_per_cycle cfg),
        uci_out "info string ERROR: no response after max retries"
          (Nat.iter r (retransmit_last_local_move cfg) w)).
Proof.
  intros Hq Hstop Hm. destruct (polls_per_cycle_bounds Hm) as (Hp & _).
  set (p := polls_per_cycle cfg) in *.
  revert k w Hq Hstop. induction r as [|r IH]; intros k w Hq Hstop.
  - destruct (Nat.lt_ge_cases k p) as [Hk|Hk].
    + rewrite (Nat.div_small k p Hk). simpl.
      apply await_loop_short; assumption.
    + assert (Hd : (1 <= k / p)%nat) by (apply Nat.div_le_lower_bound; lia).
      destruct (Nat.leb_spec (k / p) 0) as [?|_]; [lia|].
      replace (repeat Timeout k) with (repeat Timeout p ++ repeat Timeout (k - p))
        by (rewrite <- repeat_app; f_equal; lia).
      rewrite await_loop_cycle by assumption. simpl.
      repeat f_equal. lia.
  - destruct (Nat.lt_ge_cases k p) as [Hk|Hk].
    + rewrite (Nat.div_small k p Hk). simpl.
      apply await_loop_short; assumption.
    + replace (repeat Timeout k) with (repeat Timeout p ++ repeat Timeout (k - p))
        by (rewrite <- repeat_app; f_equal; lia).
      rewrite await_loop_cycle by assumption.
      destruct (Z.ltb_spec 0 (Z.of_nat (S r))) as [_|?]; [|lia].
      replace (Z.of_nat (S r) - 1) with (Z.of_nat r) by lia.
      destruct (retransmit_keeps w) as (_ & _ & _ & Hq' & Hstop' & _).
      rewrite IH by congruence.
      assert (Hdiv : (k / p = S ((k - p) / p))%nat).
      { replace k with ((k - p) + 1 * p)%nat at 1 by lia.
        rewrite Nat.div_add by lia. lia. }
      rewrite Hdiv. rewrite <- !Nat.iter_succ_r.
      destruct (Nat.leb_spec ((k - p) / p) r), (Nat.leb_spec (S ((k - p) / p)) (S r));
        try lia; [reflexivity|].
      replace (k - p - (r + 1) * p)%nat with (k - (S r + 1) * p)%nat by lia.
      reflexivity.
Qed.


Lemma local_move_transmitted w g u m :
  from_uci u = Some m -> legal (position (board g)) m = true ->
  1 <= max_retries cfg ->
  let g' := (apply_move g u (disk w)).1.2 in
  let frame := fmt_move L R (expected_move_num g) u in
  board g' = push (board g) m /\
  apply_and_transmit_local_move cfg g u w =
  (true, g',
   bridge_send R frame
     (uci_out ("info string TX: " +:+ frame)
        (set_disk (apply_move g u (disk w)).2 (set_game (Some g') w)))).
Proof.
  intros Hm Hl Hr g' frame.
  destruct (apply_move_cases g u (disk w))
    as [[Hv _] | (m' & Hm' & _ & Hv & Hok & Hb & _)].
  { unfold validate_move in Hv. rewrite Hm, Hl in Hv. discriminate. }
  assert (m' = m) by congruence. subst m'.
  split; [exact Hb|].
  unfold apply_and_transmit_local_move. rewrite Hv. cbn [negb].
  subst g'. destruct (apply_move g u (disk w)) as [[ok g1] d1].
  cbn [fst snd] in *. subst ok. cbn [negb].
  destruct (Z.leb_spec 1 (max_retries cfg)) as [_|?]; [reflexivity | lia].
Qed.

(** C9 (as amended).  After a local move [u] was applied and transmitted
    (one retry allowed at least), the worker's wait over [k] poll timeouts
    has retransmitted, once per completed timeout cycle and never more
    than [max_retries] times, the frame rebuilt from the board: the
    ordinal of the original transmission with the text the move has on
    the move stack.  That is the text of the original transmission
    whenever the rules library records the move the way it was
    submitted.  Once a cycle completes with no retry left the worker
    prints the error info string and [bestmove 0000]. *)
Theorem timeouts_retransmit_then_give_up
    (g : GameSession) (u : string) (m : Move) (k : nat) (w : World) :
  state w = GAME_ACTIVE -> game w = Some g ->
  radio_queue w = [] -> go_stop_event w = false ->
  last_position_moves w = move_list_uci g ++ [u] ->
  from_uci u = Some m -> legal (position (board g)) m = true ->
  1 <= max_retries cfg -> 0 <= move_response_wait_seconds cfg ->
  let frame text :=
    R +:+ " " +:+ L +:+ " JS8CHESS " +:+ str_of_int (expected_move_num g)
    +:+ upper text in
  let first := frame u in
  let again := frame (uci (stacked (position (board g)) m)) in
  let retries := Z.to_nat (max_retries cfg) in
  let cycles := (k / polls_per_cycle cfg)%nat in
  let run := go_play cfg (repeat Timeout k) w in
  ((cycles <= retries)%nat ->
     run.1 = (Ok Blocked, []) /\
     sent run.2 = sent w ++ (upper R, first) :: repeat (upper R, again) cycles)
  /\ ((retries < cycles)%nat ->
        run.1 = (Ok (Returned ()),
                 repeat Timeout (k - (retries + 1) * polls_per_cycle cfg)) /\
        sent run.2 = sent w ++ (upper R, first) :: repeat (upper R, again) retries /\
        uci_lines run.2 =
          uci_lines w
          ++ ["info string TX: " +:+ first;
              "info string Waiting for remote move via radio"]
          ++ repeat ("info string RETRY TX: " +:+ again) retries
          ++ ["info string ERROR: no response after max retries";
              "bestmove 0000"])
  /\ (uci (stacked (position (board g)) m) = u -> again = first).
Proof.
  intros Hs Hg Hq Hstop Hpos Hm Hl Hr Hw frame first again retries cycles run.
  destruct (local_move_transmitted w g u m Hm Hl Hr) as [Hb Htx].
  set (g' := (apply_move g u (disk w)).1.2) in *.
  assert (Hlist : move_list_uci g' =
                  move_list_uci g ++ [uci (stacked (position (board g)) m)]).
  { rewrite !move_list_uci_map, Hb. unfold push. simpl.
    rewrite map_app. reflexivity. }
  assert (Hexp : expected_move_num g' - 1 = expected_move_num g).
  { unfold expected_move_num. rewrite Hb, push_stack_length. lia. }
  set (w1 := bridge_send R first
               (uci_out ("info string TX: " +:+ first)
                  (set_disk (apply_move g u (disk w)).2 (set_game (Some g') w)))) in *.
  set (w2 := uci_out "info string Waiting for remote move via radio" w1).
  assert (Hrun : run =
    match await_loop cfg (repeat Timeout k) None (move_response_wait_seconds cfg)
            (Z.of_nat retries) w2 with
    | (Ok (Returned None), evs, w) =>
        (Ok (Returned ()), evs, uci_out "bestmove 0000" w)
    | (Ok (Returned (Some remote_move)), evs, w) =>
        (Ok (Returned ()), evs, uci_out ("bestmove " +:+ remote_move) w)
    | (Ok Blocked, evs, w) => (Ok Blocked, evs, w)
    | (Raise e, evs, w) => (Raise e, evs, w)
    end).
  { subst run. unfold go_play. rewrite Hg, Hs, Hpos.
    rewrite bool_decide_eq_true_2 by reflexivity. cbn [negb].
    rewrite drop_app_length. cbn [transmit_new_moves].
    rewrite Htx. cbn [negb].
    cbn [game state go_stop_event bridge_send uci_out set_disk set_game].
    rewrite (bool_decide_eq_false_2 (Some g' = None)) by discriminate.
    rewrite Hs, bool_decide_eq_true_2 by reflexivity. cbn [negb orb].
    unfold await_radio_move.
    cbn [game state go_stop_event bridge_send uci_out set_disk set_game].
    rewrite Hstop. cbn [default from_option].
    destruct (Z.ltb_spec (move_response_wait_seconds cfg) 0) as [?|_]; [lia|].
    unfold retries. rewrite Z2Nat.id by lia. reflexivity. }
  assert (Hq2 : radio_queue w2 = []) by exact Hq.
  assert (Hstop2 : go_stop_event w2 = false) by exact Hstop.
  rewrite (await_loop_timeouts retries k w2 Hq2 Hstop2 Hw) in Hrun.
  fold cycles in Hrun.
  assert (Hg2 : game w2 = Some g') by reflexivity.
  assert (Hsent2 : sent w2 = sent w ++ [(upper R, first)]) by reflexivity.
  assert (Hlines2 : uci_lines w2 =
            uci_lines w ++ ["info string TX: " +:+ first;
                            "info string Waiting for remote move via radio"]).
  { subst w2 w1. cbn [uci_lines uci_out bridge_send set_disk set_game].
    rewrite <- app_assoc. reflexivity. }
  assert (Hit : forall n,
    sent (Nat.iter n (retransmit_last_local_move cfg) w2)
      = sent w ++ (upper R, first) :: repeat (upper R, again) n /\
    uci_lines (Nat.iter n (retransmit_last_local_move cfg) w2)
      = uci_lines w ++ ["info string TX: " +:+ first;
                        "info string Waiting for remote move via radio"]
        ++ repeat ("info string RETRY TX: " +:+ again) n).
  { intros n.
    destruct (iter_retransmit n w2 g' _ _ Hg2 Hlist) as (Hsent & Hlines & _).
    rewrite Hexp in Hsent, Hlines.
    change (fmt_move L R (expected_move_num g)
              (uci (stacked (position (board g)) m))) with again in Hsent, Hlines.
    rewrite Hsent, Hlines, Hsent2, Hlines2, <- !app_assoc. split; reflexivity. }
  split; [|split].
  - intros Hc. destruct (Nat.leb_spec cycles retries) as [_|?]; [|lia].
    rewrite Hrun. split; [reflexivity|]. cbn [snd]. apply Hit.
  - intros Hc. destruct (Nat.leb_spec cycles retries) as [?|_]; [lia|].
    rewrite Hrun. split; [reflexivity|]. cbn [snd].
    destruct (Hit retries) as [Hsent Hlines].
    split.
    + cbn [sent uci_out]. exact Hsent.
    + cbn [uci_lines uci_out]. rewrite Hlines, <- !app_assoc. reflexivity.
  - intros Huci. unfold again. rewrite Huci. reflexivity.
Qed.

(** *** An inbound Move *)






(** *** Items that end the wait *)

(** Every item the worker takes from the queue ends its wait: the worker
    prints [bestmove] and returns, whatever the item was. *)
Lemma dequeued_item_ends_worker evs w g item q :
  state w = GAME_ACTIVE -> game w = Some g ->
  drop (length (move_list_uci g)) (last_position_moves w) = [] ->
  go_stop_event w = false -> 0 <= move_response_wait_seconds cfg ->
  radio_queue w = item :: q ->
  (go_play cfg evs w).1.1 <> Ok Blocked /\ (go_play cfg evs w).1.2 = evs.
Proof.
  intros Hs Hg Hd Hstop Hw Hq.
  rewrite (go_play_waits evs w g Hs Hg Hd).
  rewrite (await_radio_move_dequeues evs
             (uci_out "info string Waiting for remote move via radio" w)
             item q Hstop Hw Hq).
  pose proof (dequeued_never_blocks item
    (set_radio_queue q (uci_out "info string Waiting for remote move via radio" w))) as Hn.
  destruct (dequeued cfg item _) as [[[[r|]|]|e] w']; cbn [fst snd] in *;
    (split; [discriminate || congruence | reflexivity]).
Qed.

(** An Ack, a ResyncOk or an Error report taken from the queue makes the
    worker print [bestmove 0000] and return. *)
Lemma absorbed_item_ends_worker evs w g msg q :
  state w = GAME_ACTIVE -> game w = Some g ->
  drop (length (move_list_uci g)) (last_position_moves w) = [] ->
  go_stop_event w = false -> 0 <= move_response_wait_seconds cfg ->
  radio_queue w = Item msg :: q ->
  msg_type msg = ACK \/ msg_type msg = RESYNC_OK \/ msg_type msg = ERROR ->
  exists w',
    go_play cfg evs w = (Ok (Returned ()), evs, uci_out "bestmove 0000" w') /\
    game w' = game w /\ sent w' = sent w.
Proof.
  intros Hs Hg Hd Hstop Hw Hq Ht.
  rewrite (go_play_waits evs w g Hs Hg Hd).
  rewrite (await_radio_move_dequeues evs
             (uci_out "info string Waiting for remote move via radio" w)
             (Item msg) q Hstop Hw Hq).
  unfold dequeued, process_radio_item.
  destruct Ht as [-> | [-> | ->]]; eexists; (split; [reflexivity|]);
    split; reflexivity.
Qed.

End Controller.
End EngineFacts.

(** ** The controller on concrete games *)

Module EngineRuns.
Import PyStr Protocol Chess Fs Game Engine EngineFacts Book Scenario.
#[local] Existing Instance Book.lib.

(** The end-to-end scenarios: a proposal accepted as White, a local move
    sent and the reply played, an illegal reply and a reply out of turn
    refused. *)
Example accept_proposal_run :
  state accepted = GAME_ACTIVE /\
  sent accepted = [("SWL", "CALLSIGN SWL JS8CHESS 202506011430 W")] /\
  (game_id <$> game accepted) = Some "202506011430" /\
  (local_color <$> game accepted) = Some WHITE.
Proof. repeat apply conj; vm_compute; reflexivity. Qed.

Example local_move_and_reply_run :
  let r := handle_go cfg [frame "2E7E5"] positioned in
  r.1 = (Ok (Returned ()), []) /\
  sent r.2 = [("SWL", "CALLSIGN SWL JS8CHESS 202506011430 W");
              ("SWL", "SWL CALLSIGN JS8CHESS 1E2E4")] /\
  last (uci_lines r.2) = Some "bestmove e7e5" /\
  (move_list_uci <$> game r.2) = Some ["e2e4"; "e7e5"].
Proof. cbv zeta. repeat apply conj; vm_compute; reflexivity. Qed.

Example refused_replies_run :
  let illegal := handle_go cfg [frame "2E2E4"] positioned in
  let early := handle_go cfg [frame "3D7D5"] positioned in
  last (sent illegal.2) = Some ("SWL", "SWL CALLSIGN JS8CHESS ERR01 >") /\
  last (sent early.2) = Some ("SWL", "SWL CALLSIGN JS8CHESS ERR02 >") /\
  (move_list_uci <$> game illegal.2) = Some ["e2e4"] /\
  (move_list_uci <$> game early.2) = Some ["e2e4"].
Proof. cbv zeta. repeat apply conj; vm_compute; reflexivity. Qed.

(** C1 at inputs where it fails.  After the local move 1E2E4 was sent, an
    Ack, a ResyncOk, an Error report or an illegal Move arrives, and the
    peer's real reply 2E7E5 after it.  Each time the worker returns at the
    first frame with [bestmove 0000]; the reply is never waited for. *)
Theorem non_terminal_frame_ends_wait :
  Forall
    (fun payload =>
       let r := handle_go cfg [frame payload; frame "2E7E5"] positioned in
       r.1 = (Ok (Returned ()), [frame "2E7E5"]) /\
       last (uci_lines r.2) = Some "bestmove 0000" /\
       (move_list_uci <$> game r.2) = Some ["e2e4"])
    [">"; "OK RS 202506011430 MN=2"; "ERR01 >"; "2E2E4"].
Proof. repeat constructor; vm_compute; reflexivity. Qed.

Lemma new_proposal_while_active_ignored_witness :
  state accepted = GAME_ACTIVE /\
  on_radio_message cfg "SWL" "CALLSIGN" "SWL CALLSIGN JS8CHESS NEW W" accepted
  = (Ok (), accepted).
Proof.
  assert (Hs : state accepted = GAME_ACTIVE) by (vm_compute; reflexivity).
  assert (Hp : parse_message "SWL CALLSIGN JS8CHESS NEW W"
                 (cfg_local_callsign cfg) (cfg_remote_callsign cfg) "SWL"
               = Some (proposal_msg "W")) by (vm_compute; reflexivity).
  split; [exact Hs|].
  exact (proj2 (new_proposal_while_active_ignored cfg "SWL" "CALLSIGN"
                  "SWL CALLSIGN JS8CHESS NEW W" (proposal_msg "W") accepted
                  Hs Hp eq_refl)).
Defined.

Lemma new_proposal_auto_accepted_witness :
  let w := init empty_disk noon in
  let w' := handle_new_proposal cfg (proposal_msg "W") w in
  on_radio_message cfg "SWL" "CALLSIGN" "SWL CALLSIGN JS8CHESS NEW W" w = (Ok (), w') /\
  state w' = GAME_ACTIVE /\
  game w' = Some (new_session "202506011430" "CALLSIGN" "SWL" BLACK) /\
  sent w' = [("SWL", "CALLSIGN SWL JS8CHESS 202506011430 B")] /\
  int_of_digits (slice 0 4 "202506011430") = 2025 /\
  int_of_digits (slice 8 10 "202506011430") = 14.
Proof.
  assert (Hp : parse_message "SWL CALLSIGN JS8CHESS NEW W"
                 (cfg_local_callsign cfg) (cfg_remote_callsign cfg) "SWL"
               = Some (proposal_msg "W")) by (vm_compute; reflexivity).
  assert (Hc : valid_clock noon) by (unfold valid_clock; simpl; lia).
  assert (Hs : state (init empty_disk noon) <> GAME_ACTIVE) by discriminate.
  destruct (new_proposal_auto_accepted cfg "SWL" "CALLSIGN"
              "SWL CALLSIGN JS8CHESS NEW W" (proposal_msg "W") WHITE
              (init empty_disk noon) eq_refl Hs Hc Hp eq_refl eq_refl)
    as (H1 & H2 & H3 & _ & _ & _ & _ & _ & H4 & _ & _ & _ & _ & H5 & _ & _ & H6 & _).
  cbv zeta. split; [exact H1|]. split; [exact H2|]. split; [exact H3|].
  split; [exact H4|]. split; [exact H5 | exact H6].
Defined.

Lemma resync_request_handled_witness :
  let w := in_game (after_plies ["e2e4"; "e7e5"]) [] ["e2e4"] in
  let r := handle_resync_request cfg (resync_msg "202506011430" 2) w in
  let wrong := handle_resync_request cfg (resync_msg "202506011431" 2) w in
  r.1 = Ok () /\
  sent r.2 = [("SWL", "CALLSIGN SWL JS8CHESS OK RS 202506011430 MN=2")] /\
  (move_list_uci <$> game r.2) = Some ["e2e4"] /\
  sent wrong.2 = [("SWL", "SWL CALLSIGN JS8CHESS ERR05 >")].
Proof.
  cbv zeta.
  set (w := in_game (after_plies ["e2e4"; "e7e5"]) [] ["e2e4"]).
  assert (Hg : game w = Some (after_plies ["e2e4"; "e7e5"]).1) by reflexivity.
  destruct (resync_request_handled cfg (resync_msg "202506011430" 2)
              "202506011430" 2 _ w Hg eq_refl eq_refl)
    as (H1 & _ & _ & H4).
  destruct (resync_request_handled cfg (resync_msg "202506011431" 2)
              "202506011431" 2 _ w Hg eq_refl eq_refl)
    as (_ & H2' & _).
  assert (Hok : (restore_to_ply (after_plies ["e2e4"; "e7e5"]).1 (2 - 1) (disk w)).1 = true)
    by (vm_compute; reflexivity).
  destruct (H4 eq_refl Hok) as (Hs & _ & Hgame & _).
  assert (Hne : "202506011431" <> game_id (after_plies ["e2e4"; "e7e5"]).1)
    by (vm_compute; discriminate).
  destruct (H2' Hne) as (Hs' & _).
  split; [exact H1|]. split; [rewrite Hs; vm_compute; reflexivity|].
  split; [rewrite Hgame; vm_compute; reflexivity|].
  rewrite Hs'. vm_compute. reflexivity.
Defined.


Lemma timeouts_retransmit_then_give_up_witness :
  let w := in_game (after_plies []) [] ["e2e4"] in
  let early := go_play cfg (repeat Timeout 30) w in
  let late := go_play cfg (repeat Timeout 200) w in
  polls_per_cycle cfg = 24%nat /\
  early.1 = (Ok Blocked, []) /\
  sent early.2 = repeat ("SWL", "SWL CALLSIGN JS8CHESS 1E2E4") 2 /\
  late.1 = (Ok (Returned ()), repeat Timeout 104) /\
  sent late.2 = repeat ("SWL", "SWL CALLSIGN JS8CHESS 1E2E4") 4 /\
  uci_lines late.2 =
    ["info string TX: SWL CALLSIGN JS8CHESS 1E2E4";
     "info string Waiting for remote move via radio";
     "info string RETRY TX: SWL CALLSIGN JS8CHESS 1E2E4";
     "info string RETRY TX: SWL CALLSIGN JS8CHESS 1E2E4";
     "info string RETRY TX: SWL CALLSIGN JS8CHESS 1E2E4";
     "info string ERROR: no response after max retries"; "bestmove 0000"].
Proof.
  cbv zeta.
  set (w := in_game (after_plies []) [] ["e2e4"]).
  assert (Hr : 1 <= max_retries cfg) by (simpl; lia).
  assert (Hw : 0 <= move_response_wait_seconds cfg) by (simpl; lia).
  assert (Hl : legal (position (board (after_plies []).1)) ("e2e4" : Move) = true)
    by (vm_compute; reflexivity).
  destruct (timeouts_retransmit_then_give_up cfg (after_plies []).1 "e2e4" "e2e4"
              30 w eq_refl eq_refl eq_refl eq_refl eq_refl eq_refl Hl Hr Hw)
    as (He & _).
  destruct (timeouts_retransmit_then_give_up cfg (after_plies []).1 "e2e4" "e2e4"
              200 w eq_refl eq_refl eq_refl eq_refl eq_refl eq_refl Hl Hr Hw)
    as (_ & Hlate & _).
  destruct (He ltac:(vm_compute; lia)) as (He1 & He2).
  destruct (Hlate ltac:(vm_compute; lia)) as (Hl1 & Hl2 & Hl3).
  split; [vm_compute; reflexivity|].
  split; [exact He1|]. split; [rewrite He2; vm_compute; reflexivity|].
  split; [rewrite Hl1; vm_compute; reflexivity|].
  split; [rewrite Hl2; vm_compute; reflexivity|].
  rewrite Hl3. vm_compute. reflexivity.
Defined.
End EngineRuns.

(** ** A retransmission under rules that rewrite the move *)

Module CastlingRuns.
Import PyStr Protocol Chess Fs Game Engine Book CastlingRun.
#[local] Existing Instance Castling.lib.

(** C9 (as stated) fails: White castles, written [e1h1] by the front-end.
    The move goes out as [7E1H1]; the board holds it as [e1g1], and after
    one timeout cycle it is retransmitted as [7E1G1]. *)
Lemma retransmission_not_identical_counterexample :
  let run := go_play cfg (repeat Timeout 24) castling_world in
  polls_per_cycle cfg = 24%nat /\
  last_position_moves castling_world =
    ["e2e4"; "e7e5"; "g1f3"; "b8c6"; "f1c4"; "f8c5"; "e1h1"] /\
  run.1 = (Ok Blocked, []) /\
  sent run.2 = [("SWL", "SWL CALLSIGN JS8CHESS 7E1H1");
                ("SWL", "SWL CALLSIGN JS8CHESS 7E1G1")] /\
  "SWL CALLSIGN JS8CHESS 7E1H1" <> "SWL CALLSIGN JS8CHESS 7E1G1".
Proof.
  cbv zeta. repeat apply conj; first [discriminate | vm_compute; reflexivity].
Qed.
End CastlingRuns.

(** ** More of the codec: what a parsed message carries, letter case,
    foreign senders, and the frames of the other formatters *)

Module CodecFacts.
Import PyStr PyStrFacts Protocol ProtocolFacts.

(** *** What the scanners accept *)

Lemma class_inv p s c r : class p s = Some (c, r) -> s = String c r /\ p c = true.
Proof.
  destruct s as [|x s]; [discriminate|]. simpl.
  destruct (p x) eqn:E; [|discriminate]. intros [= <- <-]. auto.
Qed.

Lemma startswith_inv s p : startswith s p = true -> s = p +:+ str_drop (String.length p) s.
Proof.
  unfold startswith. revert s. induction p as [|c p IH]; intros s H.
  - reflexivity.
  - destruct s as [|x s]; [discriminate|]. simpl in H.
    destruct (ascii_dec c x) as [->|]; [|discriminate].
    rewrite str_app_cons. simpl. f_equal. apply IH, H.
Qed.

Lemma lit_inv p s r : lit p s = Some r -> s = p +:+ r.
Proof.
  unfold lit. destruct (startswith s p) eqn:E; [|discriminate].
  intros [= <-]. apply startswith_inv, E.
Qed.

Lemma at_end_inv {A} s (x y : A) : at_end s x = Some y -> s = "" /\ y = x.
Proof. destruct s; [intros [= <-]; auto | discriminate]. Qed.

Lemma span_inv p s a r : span p s = (a, r) -> s = a +:+ r /\ sall p a = true.
Proof.
  revert a r. induction s as [|c s IH]; intros a r; simpl.
  - intros [= <- <-]. auto.
  - destruct (p c) eqn:E.
    + destruct (span p s) as [a' r']. intros [= <- <-].
      destruct (IH a' r' eq_refl) as [-> H]. simpl. rewrite E, H. auto.
    + intros [= <- <-]. auto.
Qed.

Lemma digits_plus_inv s a r :
  digits_plus s = Some (a, r) -> s = a +:+ r /\ a <> "" /\ sall isdigit a = true.
Proof.
  unfold digits_plus. destruct (span isdigit s) as [a' r'] eqn:E.
  destruct (span_inv _ _ _ _ E) as [-> H].
  destruct a' as [|c a']; [discriminate|]. intros [= <- <-].
  repeat apply conj; [reflexivity | discriminate | exact H].
Qed.

Lemma digits_n_inv k s a r :
  digits_n k s = Some (a, r) ->
  s = a +:+ r /\ String.length a = k /\ sall isdigit a = true.
Proof.
  revert s a r. induction k as [|k IH]; intros s a r.
  - simpl. intros [= <- <-]. auto.
  - cbn [digits_n]. destruct (class isdigit s) as [[c s']|] eqn:Ec;
      cbn [mbind option_bind]; [|discriminate].
    destruct (class_inv _ _ _ _ Ec) as [-> Hc].
    destruct (digits_n k s') as [[d r']|] eqn:Ed;
      cbn [mbind option_bind]; [|discriminate].
    intros [= <- <-]. destruct (IH _ _ _ Ed) as (-> & Hl & Hd).
    simpl. rewrite Hc, Hd, Hl. auto.
Qed.

Lemma int_acc_nonneg s acc : 0 <= acc -> sall isdigit s = true -> 0 <= int_acc acc s.
Proof.
  revert acc. induction s as [|c s IH]; intros acc Ha; simpl; [auto|].
  intros [Hc Hs]%andb_true_iff. apply IH; [|exact Hs].
  unfold isdigit, in_range in Hc. apply andb_true_iff in Hc as [H1 H2].
  apply N.leb_le in H1, H2. lia.
Qed.

Lemma int_of_digits_nonneg s : sall isdigit s = true -> 0 <= int_of_digits s.
Proof. apply int_acc_nonneg. lia. Qed.

Lemma is_WB_cases c : is_WB c = true -> chr c = "W" \/ chr c = "B".
Proof.
  unfold is_WB. intros [H|H]%orb_true_iff; apply Ascii.eqb_eq in H; subst; auto.
Qed.

Lemma upper_class_lower a :
  (is_AH a = true -> is_file_lc (lower_char a) = true) /\
  (is_18 a = true -> is_18 (lower_char a) = true) /\
  (is_QRBN a = true -> is_promo_lc (lower_char a) = true).
Proof.
  destruct a as [[] [] [] [] [] [] [] []];
    repeat apply conj; intros H; first [discriminate H | reflexivity].
Qed.

Lemma file_upper a :
  is_file_lc a = true ->
  is_AH (upper_char a) = true /\ lower_char (upper_char a) = a /\
  isdigit (upper_char a) = false /\ isspace (upper_char a) = false.
Proof.
  destruct a as [[] [] [] [] [] [] [] []];
    intros H; first [discriminate H | repeat apply conj; reflexivity].
Qed.

Lemma rank_upper b :
  is_18 b = true -> upper_char b = b /\ lower_char b = b /\ isspace b = false.
Proof.
  destruct b as [[] [] [] [] [] [] [] []];
    intros H; first [discriminate H | repeat apply conj; reflexivity].
Qed.

Lemma promo_upper p :
  is_promo_lc p = true ->
  is_QRBN (upper_char p) = true /\ lower_char (upper_char p) = p /\
  isspace (upper_char p) = false.
Proof.
  destruct p as [[] [] [] [] [] [] [] []];
    intros H; first [discriminate H | repeat apply conj; reflexivity].
Qed.

(** *** What each pattern captures *)

Lemma re_new_inv payload c :
  re_new payload = Some c -> c = "W" \/ c = "B".
Proof.
  unfold re_new. destruct (lit "NEW " payload) as [r|];
    cbn [mbind option_bind]; [|discriminate].
  destruct (class is_WB r) as [[x r']|] eqn:Ec;
    cbn [mbind option_bind]; [|discriminate].
  intros [_ ->]%at_end_inv. apply is_WB_cases.
  exact (proj2 (class_inv _ _ _ _ Ec)).
Qed.

Lemma re_acceptance_inv payload ts c :
  re_acceptance payload = Some (ts, c) ->
  is_timestamp ts = true /\ (c = "W" \/ c = "B").
Proof.
  unfold re_acceptance. destruct (digits_n 12 payload) as [[t r]|] eqn:Ed;
    cbn [mbind option_bind]; [|discriminate].
  destruct (lit " " r) as [r1|]; cbn [mbind option_bind]; [|discriminate].
  destruct (class is_WB r1) as [[x r2]|] eqn:Ec;
    cbn [mbind option_bind]; [|discriminate].
  intros [_ [= -> ->]]%at_end_inv.
  destruct (digits_n_inv _ _ _ _ Ed) as (_ & Hl & Hd).
  split.
  - unfold is_timestamp. rewrite Hl, Hd. reflexivity.
  - apply is_WB_cases. exact (proj2 (class_inv _ _ _ _ Ec)).
Qed.

Lemma re_error_inv payload e :
  re_error payload = Some e -> is_error_code e = true.
Proof.
  unfold re_error. destruct (lit "ERR0" payload) as [r|];
    cbn [mbind option_bind]; [|discriminate].
  destruct (class is_15 r) as [[x r']|] eqn:Ec;
    cbn [mbind option_bind]; [|discriminate].
  intros [_ ->]%at_end_inv.
  pose proof (proj2 (class_inv _ _ _ _ Ec)) as Hx. clear -Hx.
  destruct x as [[] [] [] [] [] [] [] []]; first [discriminate Hx | reflexivity].
Qed.

Lemma re_resync_tail_inv s ts n :
  re_resync_tail s = Some (ts, n) ->
  is_timestamp ts = true /\ sall isdigit n = true.
Proof.
  unfold re_resync_tail. destruct (digits_n 12 s) as [[t r]|] eqn:Ed;
    cbn [mbind option_bind]; [|discriminate].
  destruct (lit " MN=" r) as [r1|]; cbn [mbind option_bind]; [|discriminate].
  destruct (digits_plus r1) as [[d r2]|] eqn:Ep;
    cbn [mbind option_bind]; [|discriminate].
  intros [_ [= -> ->]]%at_end_inv.
  destruct (digits_n_inv _ _ _ _ Ed) as (_ & Hl & Hd).
  destruct (digits_plus_inv _ _ _ Ep) as (_ & _ & Hn).
  split; [|exact Hn]. unfold is_timestamp. rewrite Hl, Hd. reflexivity.
Qed.

Lemma re_move_inv payload n m :
  re_move payload = Some (n, m) ->
  sall isdigit n = true /\ is_uci_move (lower m) = true.
Proof.
  unfold re_move. destruct (digits_plus payload) as [[d r]|] eqn:Ep;
    cbn [mbind option_bind]; [|discriminate].
  destruct (class is_AH r) as [[a r1]|] eqn:E1; cbn [mbind option_bind]; [|discriminate].
  destruct (class is_18 r1) as [[b r2]|] eqn:E2; cbn [mbind option_bind]; [|discriminate].
  destruct (class is_AH r2) as [[c r3]|] eqn:E3; cbn [mbind option_bind]; [|discriminate].
  destruct (class is_18 r3) as [[e r4]|] eqn:E4; cbn [mbind option_bind]; [|discriminate].
  apply class_inv in E1 as [_ Ha], E2 as [_ Hb], E3 as [_ Hc], E4 as [_ He].
  destruct (digits_plus_inv _ _ _ Ep) as (_ & _ & Hd).
  apply (proj1 (upper_class_lower a)) in Ha.
  apply (proj1 (proj2 (upper_class_lower b))) in Hb.
  apply (proj1 (upper_class_lower c)) in Hc.
  apply (proj1 (proj2 (upper_class_lower e))) in He.
  destruct (class is_QRBN r4) as [[p r5]|] eqn:E5.
  - apply class_inv in E5 as [_ Hp].
    apply (proj2 (proj2 (upper_class_lower p))) in Hp.
    intros [_ [= -> ->]]%at_end_inv. split; [exact Hd|].
    change (lower (String a (String b (String c (chr e))) +:+ chr p))
      with (String (lower_char a) (String (lower_char b) (String (lower_char c)
              (String (lower_char e) (String (lower_char p) ""))))).
    unfold is_uci_move. rewrite Ha, Hb, Hc, He, Hp. reflexivity.
  - intros [_ [= -> ->]]%at_end_inv. split; [exact Hd|].
    change (lower (String a (String b (String c (chr e)))))
      with (String (lower_char a) (String (lower_char b) (String (lower_char c)
              (String (lower_char e) "")))).
    unfold is_uci_move. rewrite Ha, Hb, Hc, He. reflexivity.
Qed.

Lemma parse_payload_calls rc lc payload :
  from_call (parse_payload rc lc payload) = rc /\
  to_call (parse_payload rc lc payload) = lc.
Proof.
  unfold parse_payload.
  destruct (_ || _); [split; reflexivity|].
  destruct (re_new payload); [split; reflexivity|].
  destruct (re_acceptance payload) as [[? ?]|]; [split; reflexivity|].
  destruct (re_error payload); [split; reflexivity|].
  destruct (re_resync_request payload) as [[? ?]|]; [split; reflexivity|].
  destruct (re_resync_ok payload) as [[? ?]|]; [split; reflexivity|].
  destruct (re_move payload) as [[? ?]|]; split; reflexivity.
Qed.

Lemma parse_payload_well_formed rc lc payload :
  well_formed (parse_payload rc lc payload).
Proof.
  unfold parse_payload, well_formed.
  destruct (_ || _); [exact I|].
  destruct (re_new payload) as [c|] eqn:En.
  { cbn [msg_type color]. destruct (re_new_inv _ _ En) as [-> | ->]; auto. }
  destruct (re_acceptance payload) as [[ts c]|] eqn:Ea.
  { cbn [msg_type color timestamp].
    destruct (re_acceptance_inv _ _ _ Ea) as [Hts Hc].
    split; [destruct Hc as [-> | ->]; auto | eauto]. }
  destruct (re_error payload) as [e|] eqn:Ee.
  { cbn [msg_type error_code]. exists e. split; [reflexivity|].
    exact (re_error_inv _ _ Ee). }
  destruct (re_resync_request payload) as [[ts n]|] eqn:Er.
  { cbn [msg_type timestamp resync_move_num].
    unfold re_resync_request in Er.
    destruct (lit "RS " payload) as [r|]; cbn [mbind option_bind] in Er; [|discriminate].
    destruct (re_resync_tail_inv _ _ _ Er) as [Hts Hn].
    exists ts, (int_of_digits n). repeat apply conj; auto.
    apply int_of_digits_nonneg, Hn. }
  destruct (re_resync_ok payload) as [[ts n]|] eqn:Eo.
  { cbn [msg_type timestamp resync_move_num].
    unfold re_resync_ok in Eo.
    destruct (lit "OK RS " payload) as [r|]; cbn [mbind option_bind] in Eo; [|discriminate].
    destruct (re_resync_tail_inv _ _ _ Eo) as [Hts Hn].
    exists ts, (int_of_digits n). repeat apply conj; auto.
    apply int_of_digits_nonneg, Hn. }
  destruct (re_move payload) as [[n m]|] eqn:Em; [|exact I].
  cbn [msg_type move_num move].
  destruct (re_move_inv _ _ _ Em) as [Hn Hm].
  exists (int_of_digits n), (lower m). repeat apply conj; auto.
  apply int_of_digits_nonneg, Hn.
Qed.

Lemma parse_message_inv text l r f msg :
  parse_message text l r f = Some msg ->
  exists payload, msg = parse_payload (upper r) (upper l) payload.
Proof.
  unfold parse_message.
  destruct (startswith _ _).
  - cbn [mbind option_bind]. destruct (_ && _); [discriminate|].
    intros [= <-]. eexists. reflexivity.
  - destruct (startswith _ _); [|discriminate].
    cbn [mbind option_bind]. destruct (_ && _); [discriminate|].
    intros [= <-]. eexists. reflexivity.
Qed.

Lemma parse_message_fields text l r f msg :
  parse_message text l r f = Some msg ->
  from_call msg = upper r /\ to_call msg = upper l /\ well_formed msg.
Proof.
  intros [payload ->]%parse_message_inv.
  destruct (parse_payload_calls (upper r) (upper l) payload) as [H1 H2].
  repeat apply conj; [exact H1 | exact H2 | apply parse_payload_well_formed].
Qed.

(** Every message [parse_message] returns names the configured stations
    in upper case (the peer as sender, us as addressee) and carries the
    fields of its kind: a color W or B, a twelve-digit timestamp, a
    non-negative ordinal, a lower-case coordinate move, one of the five
    error codes. *)
Theorem parsed_message_well_formed text l r f msg :
  parse_message text l r f = Some msg ->
  from_call msg = upper r /\ to_call msg = upper l /\ well_formed msg.
Proof.
  intros [payload ->]%parse_message_inv.
  destruct (parse_payload_calls (upper r) (upper l) payload) as [H1 H2].
  repeat apply conj; [exact H1 | exact H2 | apply parse_payload_well_formed].
Qed.

Lemma parsed_message_well_formed_witness :
  parse_message "swl callsign js8chess 15e7e8q" "Callsign" "swl" "SWL" =
    Some {| from_call := "SWL"; to_call := "CALLSIGN"; msg_type := MOVE;
            color := None; timestamp := None; move_num := Some 15;
            move := Some "e7e8q"; error_code := None; resync_move_num := None |}
  /\ well_formed {| from_call := "SWL"; to_call := "CALLSIGN"; msg_type := MOVE;
            color := None; timestamp := None; move_num := Some 15;
            move := Some "e7e8q"; error_code := None; resync_move_num := None |}.
Proof.
  assert (H : parse_message "swl callsign js8chess 15e7e8q" "Callsign" "swl" "SWL" =
    Some {| from_call := "SWL"; to_call := "CALLSIGN"; msg_type := MOVE;
            color := None; timestamp := None; move_num := Some 15;
            move := Some "e7e8q"; error_code := None; resync_move_num := None |})
    by (vm_compute; reflexivity).
  split; [exact H|].
  exact (proj2 (proj2 (parsed_message_well_formed _ _ _ _ _ H))).
Defined.

(** *** Letter case and foreign senders *)

Lemma isspace_upper c : isspace (upper_char c) = isspace c.
Proof. destruct c as [[] [] [] [] [] [] [] []]; reflexivity. Qed.

Lemma lstrip_upper s : lstrip (upper s) = upper (lstrip s).
Proof.
  induction s as [|c s IH]; [reflexivity|].
  change (upper (String c s)) with (String (upper_char c) (upper s)).
  cbn [lstrip]. rewrite isspace_upper. destruct (isspace c); [exact IH | reflexivity].
Qed.

Lemma upper_nil_iff s : upper s = "" <-> s = "".
Proof. destruct s; split; (reflexivity || discriminate). Qed.

Lemma rstrip_upper s : rstrip (upper s) = upper (rstrip s).
Proof.
  induction s as [|c s IH]; [reflexivity|].
  change (upper (String c s)) with (String (upper_char c) (upper s)).
  cbn [rstrip]. rewrite IH, isspace_upper.
  destruct (rstrip s) as [|x r]; [destruct (isspace c); reflexivity | reflexivity].
Qed.

Lemma strip_upper s : strip (upper s) = upper (strip s).
Proof. unfold strip. rewrite lstrip_upper, rstrip_upper. reflexivity. Qed.

Lemma eqb_nil_upper f : String.eqb (upper f) "" = String.eqb f "".
Proof. destruct f; reflexivity. Qed.

(** Case insensitivity on parse: texts, callsigns and sender that differ
    only in letter case parse to the same result. *)
Theorem parse_message_case_insensitive text text' l l' r r' f f' :
  upper text' = upper text -> upper l' = upper l -> upper r' = upper r ->
  upper f' = upper f ->
  parse_message text' l' r' f' = parse_message text l r f.
Proof.
  intros Ht Hl Hr Hf. unfold parse_message. cbv zeta.
  rewrite <- (strip_upper text'), <- (strip_upper text), Ht, Hl, Hr.
  rewrite <- (eqb_nil_upper f'), <- (eqb_nil_upper f), Hf. reflexivity.
Qed.

Lemma parse_message_case_insensitive_witness :
  parse_message "swl callsign js8chess 1e2e4" "callsign" "Swl" "swl" =
  parse_message "SWL CALLSIGN JS8CHESS 1E2E4" "CALLSIGN" "SWL" "SWL".
Proof.
  apply parse_message_case_insensitive; vm_compute; reflexivity.
Defined.

(** When the transport names a sender and it is not the configured peer,
    the frame is not for us, whatever its text says. *)
Theorem parse_message_foreign_sender text l r f :
  f <> "" -> upper f <> upper r -> parse_message text l r f = None.
Proof.
  intros Hf Hne. unfold parse_message. cbv zeta.
  assert (E : negb (String.eqb f "") && negb (String.eqb (upper f) (upper r)) = true).
  { apply String.eqb_neq in Hf, Hne. rewrite Hf, Hne. reflexivity. }
  rewrite E.
  destruct (startswith _ _); [reflexivity|].
  destruct (startswith _ _); reflexivity.
Qed.

Lemma parse_message_foreign_sender_witness :
  parse_message "SWL CALLSIGN JS8CHESS NEW W" "CALLSIGN" "SWL" "G0ABC" = None.
Proof.
  apply parse_message_foreign_sender; [discriminate | vm_compute; discriminate].
Defined.

(** *** The frames of the formatters, parsed on the side that wrote them *)

Lemma digit_payload_not_others c s :
  isdigit c = true ->
  re_error (String c s) = None /\ re_resync_request (String c s) = None /\
  re_resync_ok (String c s) = None.
Proof.
  destruct c as [[] [] [] [] [] [] [] []];
    intros H; first [discriminate H | repeat apply conj; reflexivity].
Qed.

Lemma sall_suffix p a r : sall p (a +:+ r) = true -> sall p r = true.
Proof. rewrite sall_app. intros [_ H]%andb_true_iff. exact H. Qed.

(** A payload without white space is no acceptance. *)
Lemma re_acceptance_nonspace s :
  sall (fun c => negb (isspace c)) s = true -> re_acceptance s = None.
Proof.
  intros Hs. unfold re_acceptance.
  destruct (digits_n 12 s) as [[ts r]|] eqn:Ed; [|reflexivity].
  cbn [mbind option_bind].
  destruct (lit " " r) as [r1|] eqn:El; [|reflexivity].
  apply digits_n_inv in Ed as (-> & _). apply lit_inv in El as ->.
  apply sall_suffix in Hs. discriminate Hs.
Qed.

Lemma span_app p a r :
  sall p a = true -> class p r = None -> span p (a +:+ r) = (a, r).
Proof.
  intros Ha Hr. induction a as [|c a IH].
  - destruct r as [|x r]; [reflexivity|]. simpl in *.
    destruct (p x); [discriminate | reflexivity].
  - simpl in Ha. apply andb_true_iff in Ha as [Hc Ha].
    rewrite str_app_cons. simpl. rewrite Hc, (IH Ha). reflexivity.
Qed.

Lemma uci_move_upper m :
  is_uci_move m = true ->
  lower (upper m) = m /\
  sall (fun c => negb (isspace c)) (upper m) = true /\
  forall n, n <> "" -> sall isdigit n = true ->
            re_move (n +:+ upper m) = Some (n, upper m).
Proof.
  destruct m as [|a [|b [|c [|d rest]]]]; try discriminate.
  cbn [is_uci_move]. intros H.
  apply andb_true_iff in H as [H Hrest]. apply andb_true_iff in H as [H Hd].
  apply andb_true_iff in H as [H Hc]. apply andb_true_iff in H as [Ha Hb].
  destruct (file_upper a Ha) as (Ha1 & Ha2 & Ha3 & Ha4).
  destruct (rank_upper b Hb) as (Hb1 & Hb2 & Hb3).
  destruct (file_upper c Hc) as (Hc1 & Hc2 & Hc3 & Hc4).
  destruct (rank_upper d Hd) as (Hd1 & Hd2 & Hd3).
  assert (Hspan : forall n t, n <> "" -> sall isdigit n = true ->
            digits_plus (n +:+ String (upper_char a) t)
            = Some (n, String (upper_char a) t)).
  { intros n t Hn Hdig. unfold digits_plus. rewrite span_app.
    - destruct n; [congruence | reflexivity].
    - exact Hdig.
    - simpl. rewrite Ha3. reflexivity. }
  destruct rest as [|p [|? ?]]; [| |discriminate].
  - change (upper (String a (String b (String c (String d "")))))
      with (String (upper_char a) (String (upper_char b) (String (upper_char c)
              (String (upper_char d) "")))).
    rewrite Hb1, Hd1. repeat apply conj.
    + cbn [lower smap]. rewrite Ha2, Hb2, Hc2, Hd2. reflexivity.
    + cbn [sall]. rewrite Ha4, Hb3, Hc4, Hd3. reflexivity.
    + intros n Hn Hdig. unfold re_move. rewrite (Hspan n _ Hn Hdig).
      cbn [mbind option_bind class]. rewrite Ha1. cbn [mbind option_bind class].
      rewrite Hb. cbn [mbind option_bind class]. rewrite Hc1.
      cbn [mbind option_bind class]. rewrite Hd. reflexivity.
  - destruct (promo_upper p Hrest) as (Hp1 & Hp2 & Hp3).
    change (upper (String a (String b (String c (String d (String p ""))))))
      with (String (upper_char a) (String (upper_char b) (String (upper_char c)
              (String (upper_char d) (String (upper_char p) ""))))).
    rewrite Hb1, Hd1. repeat apply conj.
    + cbn [lower smap]. rewrite Ha2, Hb2, Hc2, Hd2, Hp2. reflexivity.
    + cbn [sall]. rewrite Ha4, Hb3, Hc4, Hd3, Hp3. reflexivity.
    + intros n Hn Hdig. unfold re_move. rewrite (Hspan n _ Hn Hdig).
      cbn [mbind option_bind class]. rewrite Ha1. cbn [mbind option_bind class].
      rewrite Hb. cbn [mbind option_bind class]. rewrite Hc1.
      cbn [mbind option_bind class]. rewrite Hd.
      cbn [mbind option_bind class]. rewrite Hp1. reflexivity.
Qed.

Lemma nonspace_ends s :
  s <> "" -> sall (fun c => negb (isspace c)) s = true -> ends_nonspace s = true.
Proof.
  induction s as [|c s IH]; [congruence|]. intros _ H. simpl in H.
  apply andb_true_iff in H as [Hc Hs]. destruct s as [|x s]; [exact Hc|].
  apply IH; [discriminate | exact Hs].
Qed.

Lemma nonspace_starts s :
  s <> "" -> sall (fun c => negb (isspace c)) s = true -> starts_nonspace s = true.
Proof.
  destruct s as [|c s]; [congruence|]. intros _ H. simpl in H.
  apply andb_true_iff in H as [Hc _]. exact Hc.
Qed.

Lemma digits_nonspace s :
  sall isdigit s = true -> sall (fun c => negb (isspace c)) s = true.
Proof.
  induction s as [|c s IH]; [reflexivity|]. simpl.
  intros [Hc Hs]%andb_true_iff. rewrite (digit_nonspace c Hc), (IH Hs). reflexivity.
Qed.

Lemma parse_payload_move_frame rc lc n m :
  0 <= n -> is_uci_move m = true ->
  parse_payload rc lc (str_of_int n +:+ upper m) =
  {| from_call := rc; to_call := lc; msg_type := MOVE; color := None;
     timestamp := None; move_num := Some n; move := Some m;
     error_code := None; resync_move_num := None |}.
Proof.
  intros Hn Hm. destruct (uci_move_upper m Hm) as (Hlow & Hsp & Hre).
  pose proof (str_of_int_digits n Hn) as Hd.
  pose proof (str_of_int_nonempty n) as Hne.
  assert (Hns : sall (fun c => negb (isspace c)) (str_of_int n +:+ upper m) = true).
  { rewrite sall_app, (digits_nonspace _ Hd), Hsp. reflexivity. }
  unfold parse_payload.
  rewrite (re_acceptance_nonspace _ Hns), (Hre _ Hne Hd).
  destruct (str_of_int n) as [|c s] eqn:E; [congruence|].
  assert (Hc : isdigit c = true).
  { simpl in Hd. apply andb_true_iff in Hd as [Hc _]. exact Hc. }
  rewrite str_app_cons.
  rewrite (digit_payload_not_ack c _ Hc), (digit_payload_not_new c _ Hc).
  destruct (digit_payload_not_others c (s +:+ upper m) Hc) as (-> & -> & ->).
  rewrite Hlow, <- E, (int_of_str n Hn). reflexivity.
Qed.

(** Round trip of a move: the frame [fmt_move] writes parses, with the
    same local and remote callsigns, to a Move of the same ordinal and the
    same lower-case coordinates. *)
Theorem parse_fmt_move L R n m :
  is_callsign L = true -> is_callsign R = true ->
  0 <= n -> is_uci_move m = true ->
  parse_message (fmt_move L R n m) L R "" =
  Some {| from_call := R; to_call := L; msg_type := MOVE; color := None;
          timestamp := None; move_num := Some n; move := Some m;
          error_code := None; resync_move_num := None |}.
Proof.
  intros HL HR Hn Hm. unfold fmt_move.
  destruct (uci_move_upper m Hm) as (_ & Hsp & _).
  pose proof (str_of_int_digits n Hn) as Hd.
  assert (Hns : sall (fun c => negb (isspace c)) (str_of_int n +:+ upper m) = true).
  { rewrite sall_app, (digits_nonspace _ Hd), Hsp. reflexivity. }
  assert (Hne : str_of_int n +:+ upper m <> "").
  { pose proof (str_of_int_nonempty n). destruct (str_of_int n); [congruence | discriminate]. }
  rewrite (parse_message_directed R L _ HR HL (nonspace_ends _ Hne Hns)).
  assert (Hup : upper (str_of_int n +:+ upper m) = str_of_int n +:+ upper m).
  { rewrite upper_app, (upper_digits _ Hd). f_equal.
    apply (smap_id upper_char (fun c => Ascii.eqb (upper_char c) c)).
    - intros c H. apply Ascii.eqb_eq, H.
    - clear. induction m as [|c m IH]; [reflexivity|].
      change (upper (String c m)) with (String (upper_char c) (upper m)).
      simpl. rewrite IH, andb_true_r. apply Ascii.eqb_eq.
      destruct c as [[] [] [] [] [] [] [] []]; reflexivity. }
  rewrite Hup, (strip_id _ (nonspace_starts _ Hne Hns) (nonspace_ends _ Hne Hns)).
  f_equal. apply parse_payload_move_frame; assumption.
Qed.

Lemma parse_fmt_move_witness :
  parse_message (fmt_move "CALLSIGN" "SWL" 42 "e7e8q") "CALLSIGN" "SWL" "" =
  Some {| from_call := "SWL"; to_call := "CALLSIGN"; msg_type := MOVE;
          color := None; timestamp := None; move_num := Some 42;
          move := Some "e7e8q"; error_code := None; resync_move_num := None |}.
Proof. apply parse_fmt_move; [reflexivity | reflexivity | lia | reflexivity]. Defined.

Lemma parse_payload_resync_request rc lc ts n :
  is_timestamp ts = true -> 0 <= n ->
  parse_payload rc lc ("RS " +:+ ts +:+ " MN=" +:+ str_of_int n) =
  {| from_call := rc; to_call := lc; msg_type := RESYNC_REQUEST;
     color := None; timestamp := Some ts; move_num := None; move := None;
     error_code := None; resync_move_num := Some n |}.
Proof.
  intros Hts Hn. destruct (timestamp_cons ts Hts) as (Hl & Hd & _).
  unfold parse_payload.
  set (rest := ts +:+ " MN=" +:+ str_of_int n).
  assert (E : forall t : string,
             String.eqb (String "R" t) ">" || String.eqb (String "R" t) "" = false /\
             re_new (String "R" t) = None /\
             re_acceptance (String "R" t) = None /\
             re_error (String "R" t) = None).
  { intros t. repeat apply conj; reflexivity. }
  change ("RS " +:+ rest) with (String "R" ("S " +:+ rest)).
  destruct (E ("S " +:+ rest)) as (-> & -> & -> & ->).
  change (String "R" ("S " +:+ rest)) with ("RS " +:+ rest).
  unfold re_resync_request. rewrite lit_app. cbn [mbind option_bind].
  unfold re_resync_tail, rest. rewrite <- Hl, (digits_n_app ts _ Hd).
  cbn [mbind option_bind]. rewrite lit_app. cbn [mbind option_bind].
  rewrite (digits_plus_all _ (str_of_int_nonempty n) (str_of_int_digits n Hn)).
  cbn [mbind option_bind at_end]. rewrite (int_of_str n Hn). reflexivity.
Qed.

(** Round trip of a resync request, on the side that formats it. *)
Theorem parse_fmt_resync_request L R ts n :
  is_callsign L = true -> is_callsign R = true ->
  is_timestamp ts = true -> 0 <= n ->
  parse_message (fmt_resync_request L R ts n) L R "" =
  Some {| from_call := R; to_call := L; msg_type := RESYNC_REQUEST;
          color := None; timestamp := Some ts; move_num := None; move := None;
          error_code := None; resync_move_num := Some n |}.
Proof.
  intros HL HR Hts Hn. unfold fmt_resync_request.
  pose proof (str_of_int_digits n Hn) as Hd.
  pose proof (str_of_int_nonempty n) as Hne.
  assert (He : ends_nonspace (" MN=" +:+ str_of_int n) = true)
    by (apply ends_nonspace_app, digits_ends_nonspace; assumption).
  destruct (timestamp_strip ts _ Hts He) as [Hs Hends].
  change (R +:+ " " +:+ L +:+ " JS8CHESS RS " +:+ ts +:+ " MN=" +:+ str_of_int n)
    with (R +:+ " " +:+ L +:+ " JS8CHESS " +:+ "RS " +:+ ts +:+ " MN=" +:+ str_of_int n).
  assert (Hp : ends_nonspace ("RS " +:+ ts +:+ " MN=" +:+ str_of_int n) = true)
    by (apply ends_nonspace_app, Hends).
  rewrite (parse_message_directed R L _ HR HL Hp).
  rewrite upper_app. change (upper "RS ") with "RS ".
  assert (Hs' : strip ("RS " +:+ upper (ts +:+ " MN=" +:+ str_of_int n))
                = "RS " +:+ ts +:+ " MN=" +:+ str_of_int n).
  { rewrite upper_app, (upper_digits ts) by (apply timestamp_cons, Hts).
    rewrite upper_app, (upper_digits _ Hd). change (upper " MN=") with " MN=".
    apply strip_id; [reflexivity|]. apply ends_nonspace_app, Hends. }
  rewrite Hs'. f_equal. exact (parse_payload_resync_request R L ts n Hts Hn).
Qed.

Lemma parse_fmt_resync_request_witness :
  parse_message (fmt_resync_request "CALLSIGN" "SWL" "202506011430" 17)
    "CALLSIGN" "SWL" "" =
  Some {| from_call := "SWL"; to_call := "CALLSIGN"; msg_type := RESYNC_REQUEST;
          color := None; timestamp := Some "202506011430"; move_num := None;
          move := None; error_code := None; resync_move_num := Some 17 |}.
Proof.
  apply parse_fmt_resync_request; [reflexivity | reflexivity | reflexivity | lia].
Defined.

(** Round trip of a proposal: the color is put in upper case by the
    formatter and comes back as W or B. *)
Theorem parse_fmt_new_proposal L R c :
  is_callsign L = true -> is_callsign R = true ->
  upper c = "W" \/ upper c = "B" ->
  parse_message (fmt_new_proposal L R c) L R "" =
  Some {| from_call := R; to_call := L; msg_type := NEW_PROPOSAL;
          color := Some (upper c); timestamp := None; move_num := None;
          move := None; error_code := None; resync_move_num := None |}.
Proof.
  intros HL HR Hc. unfold fmt_new_proposal.
  change (R +:+ " " +:+ L +:+ " JS8CHESS NEW " +:+ upper c)
    with (R +:+ " " +:+ L +:+ " JS8CHESS " +:+ "NEW " +:+ upper c).
  assert (Hp : ends_nonspace ("NEW " +:+ upper c) = true)
    by (destruct Hc as [-> | ->]; reflexivity).
  rewrite (parse_message_directed R L _ HR HL Hp).
  destruct Hc as [-> | ->]; reflexivity.
Qed.

Lemma parse_fmt_new_proposal_witness :
  parse_message (fmt_new_proposal "CALLSIGN" "SWL" "w") "CALLSIGN" "SWL" "" =
  Some {| from_call := "SWL"; to_call := "CALLSIGN"; msg_type := NEW_PROPOSAL;
          color := Some "W"; timestamp := None; move_num := None;
          move := None; error_code := None; resync_move_num := None |}.
Proof. apply (parse_fmt_new_proposal "CALLSIGN" "SWL" "w"); [reflexivity | reflexivity | left; reflexivity]. Defined.

Lemma error_code_cases code :
  is_error_code code = true ->
  code = "ERR01" \/ code = "ERR02" \/ code = "ERR03" \/ code = "ERR04" \/ code = "ERR05".
Proof.
  unfold is_error_code. intros H%bool_decide_eq_true.
  repeat (apply elem_of_cons in H as [H|H]; [auto 6|]).
  inversion H.
Qed.

(** Round trip of an error report, for each of the five codes. *)
Theorem parse_fmt_error L R code :
  is_callsign L = true -> is_callsign R = true ->
  is_error_code code = true ->
  parse_message (fmt_error L R code) L R "" =
  Some {| from_call := R; to_call := L; msg_type := ERROR; color := None;
          timestamp := None; move_num := None; move := None;
          error_code := Some code; resync_move_num := None |}.
Proof.
  intros HL HR Hc. unfold fmt_error.
  assert (Hp : ends_nonspace (code +:+ " >") = true)
    by (apply ends_nonspace_app; reflexivity).
  rewrite (parse_message_directed R L _ HR HL Hp).
  destruct (error_code_cases code Hc) as [-> | [-> | [-> | [-> | ->]]]]; reflexivity.
Qed.

Lemma parse_fmt_error_witness :
  parse_message (fmt_error "CALLSIGN" "SWL" "ERR05") "CALLSIGN" "SWL" "" =
  Some {| from_call := "SWL"; to_call := "CALLSIGN"; msg_type := ERROR;
          color := None; timestamp := None; move_num := None; move := None;
          error_code := Some "ERR05"; resync_move_num := None |}.
Proof. apply parse_fmt_error; reflexivity. Defined.

(** *** Frames that begin with our own callsign *)

Lemma callsign_char_not_space c : callsign_char c = true -> c <> " "%char.
Proof. intros H ->. discriminate H. Qed.

Lemma startswith_callsigns a b x y :
  sall callsign_char a = true -> sall callsign_char b = true ->
  startswith (a +:+ String " " x) (b +:+ String " " y) = true ->
  a = b /\ startswith x y = true.
Proof.
  unfold startswith. revert b. induction a as [|c a IH]; intros b Ha Hb H.
  - destruct b as [|d b].
    + rewrite !str_app_nil_l in H. cbn [String.prefix] in H.
      destruct (ascii_dec " " " "); [auto | discriminate].
    + rewrite str_app_cons, str_app_nil_l in H. cbn [String.prefix] in H.
      cbn [sall] in Hb. apply andb_true_iff in Hb as [Hd _].
      destruct (ascii_dec d " ") as [E|]; [|discriminate H].
      exfalso. exact (callsign_char_not_space d Hd E).
  - cbn [sall] in Ha. apply andb_true_iff in Ha as [Hc Ha].
    destruct b as [|d b].
    + rewrite str_app_cons, str_app_nil_l in H. cbn [String.prefix] in H.
      destruct (ascii_dec " " c) as [E|]; [|discriminate H].
      exfalso. exact (callsign_char_not_space c Hc (eq_sym E)).
    + cbn [sall] in Hb. apply andb_true_iff in Hb as [Hd Hb].
      rewrite !str_app_cons in H. cbn [String.prefix] in H.
      destruct (ascii_dec d c) as [->|]; [|discriminate].
      destruct (IH b Ha Hb H) as [-> Hxy]. auto.
Qed.

Lemma startswith_inside b z q :
  sall (fun c => negb (Ascii.eqb c " ")) q = true ->
  startswith (b +:+ String " " z) q = true -> startswith b q = true.
Proof.
  unfold startswith. revert q. induction b as [|c b IH]; intros q Hq H.
  - destruct q as [|d q]; [reflexivity|].
    rewrite str_app_nil_l in H. cbn [String.prefix] in H. cbn [sall] in Hq.
    apply andb_true_iff in Hq as [Hd _].
    destruct (ascii_dec d " ") as [->|]; [discriminate Hd | discriminate H].
  - destruct q as [|d q]; [reflexivity|]. cbn [sall] in Hq.
    apply andb_true_iff in Hq as [_ Hq].
    rewrite str_app_cons in H. cbn [String.prefix] in H |- *.
    destruct (ascii_dec d c); [apply IH; assumption | discriminate].
Qed.

Lemma rstrip_keep p r :
  ends_nonspace p = true -> exists r', rstrip (p +:+ r) = p +:+ r'.
Proof.
  induction p as [|c p IH]; [discriminate|]. intros H.
  destruct p as [|d p].
  - simpl in H. rewrite str_app_cons, str_app_nil_l. cbn [rstrip].
    destruct (rstrip r) as [|x r0].
    + destruct (isspace c); [discriminate|]. exists "". reflexivity.
    + exists (String x r0). reflexivity.
  - destruct (IH H) as [r' Hr']. exists r'.
    rewrite str_app_cons. cbn [rstrip]. rewrite Hr'.
    rewrite !str_app_cons. reflexivity.
Qed.

Lemma callsign_sall s : is_callsign s = true -> sall callsign_char s = true /\ s <> "".
Proof.
  intros [H1 H2]%andb_true_iff. split; [exact H2|].
  intros ->. discriminate H1.
Qed.

Lemma callsign_ends s : is_callsign s = true -> ends_nonspace s = true.
Proof.
  intros [Hs Hne]%callsign_sall. apply nonspace_ends; [exact Hne|].
  clear Hne. induction s as [|c s IH]; [reflexivity|]. simpl in *.
  apply andb_true_iff in Hs as [Hc Hs].
  rewrite (callsign_char_nonspace c Hc), (IH Hs). reflexivity.
Qed.

(** A frame that begins [<local> <remote> JS8CHESS] is not for us: with
    distinct callsigns (the remote one not itself beginning JS8CHESS),
    [parse_message] returns [None] whatever follows.  These are the frames
    [fmt_acceptance] and [fmt_resync_ok] write, seen from the side that
    wrote them, and the frames the other formatters write, seen from the
    station they are sent to. *)
Theorem frame_from_local_rejected A B rest f :
  is_callsign A = true -> is_callsign B = true -> A <> B ->
  startswith B "JS8CHESS" = false ->
  parse_message (A +:+ " " +:+ B +:+ " JS8CHESS" +:+ rest) A B f = None.
Proof.
  intros HA HB Hne HJ.
  destruct (callsign_sall A HA) as [HsA _]. destruct (callsign_sall B HB) as [HsB _].
  unfold parse_message. cbv zeta.
  assert (Hstrip : exists rest',
            strip (A +:+ " " +:+ B +:+ " JS8CHESS" +:+ rest)
            = A +:+ " " +:+ B +:+ " JS8CHESS" +:+ rest').
  { unfold strip. rewrite lstrip_id by (apply starts_nonspace_app, callsign_starts, HA).
    destruct (rstrip_keep (A +:+ " " +:+ B +:+ " JS8CHESS") rest) as [r' Hr'].
    { do 3 apply ends_nonspace_app. reflexivity. }
    exists r'. rewrite !str_app_assoc in Hr'. exact Hr'. }
  destruct Hstrip as [rest' ->].
  rewrite !upper_app, (callsign_upper A HA), (callsign_upper B HB).
  change (upper " ") with " ". change (upper " JS8CHESS") with " JS8CHESS".
  destruct (startswith _ (B +:+ " " +:+ A +:+ " JS8CHESS")) eqn:E1.
  { apply (startswith_callsigns A B) in E1 as [E _]; [congruence | assumption..]. }
  destruct (startswith _ (A +:+ " JS8CHESS")) eqn:E2; [|reflexivity].
  change (A +:+ " JS8CHESS") with (A +:+ String " " "JS8CHESS") in E2.
  apply (startswith_callsigns A A) in E2 as [_ E2]; [|assumption..].
  change (B +:+ " JS8CHESS" +:+ upper rest')
    with (B +:+ String " " ("JS8CHESS" +:+ upper rest')) in E2.
  apply startswith_inside in E2; [congruence | reflexivity].
Qed.

Lemma frame_from_local_rejected_witness :
  parse_message (fmt_move "SWL" "CALLSIGN" 1 "e2e4") "CALLSIGN" "SWL" "" = None.
Proof.
  exact (frame_from_local_rejected "CALLSIGN" "SWL" " 1E2E4" ""
           eq_refl eq_refl ltac:(discriminate) eq_refl).
Defined.
End CodecFacts.

(** ** More of the game session: creation, persistence, results, and the
    notation document kept in step with the board *)

Module SessionFacts.
Import PyStr PyStrFacts Chess Fs Game GameFacts.

Section Session.
Context {lib : Lib}.

Lemma with_play_fields (s : GameSession) b g n :
  game_id (with_play s b g n) = game_id s /\
  local_callsign (with_play s b g n) = local_callsign s /\
  remote_callsign (with_play s b g n) = remote_callsign s /\
  local_color (with_play s b g n) = local_color s /\
  remote_color (with_play s b g n) = remote_color s /\
  pgn_path (with_play s b g n) = pgn_path s.
Proof. repeat apply conj; reflexivity. Qed.

Lemma apply_move_shape (s : GameSession) (u : string) (d : Disk) :
  exists b g n, (apply_move s u d).1.2 = with_play s b g n.
Proof.
  unfold apply_move. destruct (from_uci u) as [mv|].
  - destruct (negb _).
    + exists (board s), (pgn_game s), (pgn_node s). destruct s; reflexivity.
    + destruct (add_variation (pgn_game s) (pgn_node s) mv) as [g n].
      eexists _, _, _. reflexivity.
  - exists (board s), (pgn_game s), (pgn_node s). destruct s; reflexivity.
Qed.

Lemma restore_to_ply_shape (s : GameSession) (n : Z) (d : Disk) :
  exists b g k, (restore_to_ply s n d).2 = with_play s b g k.
Proof.
  destruct (restore_to_ply_cases s n d) as [[-> _] | (t & g & _ & _ & _ & ->)].
  - exists (board s), (pgn_game s), (pgn_node s). destruct s; reflexivity.
  - unfold restored.
    destruct (replay n (mainline_moves g) new_board [] 0) as [[b k] ?].
    eexists _, _, _. reflexivity.
Qed.

Lemma upper_char_idem c : upper_char (upper_char c) = upper_char c.
Proof. destruct c as [[] [] [] [] [] [] [] []]; reflexivity. Qed.

Lemma upper_idem s : upper (upper s) = upper s.
Proof.
  unfold upper. induction s as [|c s IH]; [reflexivity|].
  cbn [smap]. rewrite upper_char_idem, IH. reflexivity.
Qed.

(** Whatever moves, resyncs and results a session goes through, the two
    sides keep opposite colors, the callsigns stay in upper case, and the
    notation file stays [<PGN_DIR>/<REMOTE>-<game id>.pgn]. *)
Theorem session_identity_kept (s : GameSession) :
  reachable s ->
  remote_color s = other (local_color s) /\
  local_color s <> remote_color s /\
  upper (local_callsign s) = local_callsign s /\
  upper (remote_callsign s) = remote_callsign s /\
  pgn_path s = PGN_DIR +:+ "/" +:+ remote_callsign s +:+ "-" +:+ game_id s +:+ ".pgn".
Proof.
  assert (Hshape : forall s0 b g n,
            (remote_color s0 = other (local_color s0) /\
             local_color s0 <> remote_color s0 /\
             upper (local_callsign s0) = local_callsign s0 /\
             upper (remote_callsign s0) = remote_callsign s0 /\
             pgn_path s0 = PGN_DIR +:+ "/" +:+ remote_callsign s0 +:+ "-"
                           +:+ game_id s0 +:+ ".pgn") ->
            remote_color (with_play s0 b g n) = other (local_color (with_play s0 b g n)) /\
            local_color (with_play s0 b g n) <> remote_color (with_play s0 b g n) /\
            upper (local_callsign (with_play s0 b g n)) = local_callsign (with_play s0 b g n) /\
            upper (remote_callsign (with_play s0 b g n)) = remote_callsign (with_play s0 b g n) /\
            pgn_path (with_play s0 b g n) =
              PGN_DIR +:+ "/" +:+ remote_callsign (with_play s0 b g n) +:+ "-"
              +:+ game_id (with_play s0 b g n) +:+ ".pgn").
  { intros s0 b g n H. exact H. }
  induction 1 as [gid l r c | s u d _ IH | s n d _ IH | s res d _ IH].
  - cbn [new_session remote_color local_color local_callsign remote_callsign
         pgn_path game_id].
    repeat apply conj; try reflexivity; try apply upper_idem.
    destruct c; discriminate.
  - destruct (apply_move_shape s u d) as (b & g & n & ->). apply Hshape, IH.
  - destruct (restore_to_ply_shape s n d) as (b & g & k & ->). apply Hshape, IH.
  - unfold set_result. cbn [fst]. apply Hshape, IH.
Qed.

(** [validate_move] answers what [apply_move] will do, and a successful
    [apply_move] appends exactly one move to the move list: the earlier
    moves keep their places. *)
Theorem validated_move_is_appended (s : GameSession) (u : string) (d : Disk) :
  ((apply_move s u d).1.1 = true <-> validate_move s u = true) /\
  (validate_move s u = true ->
   exists mv, from_uci u = Some mv /\
     move_list_uci (apply_move s u d).1.2 =
     move_list_uci s ++ [uci (stacked (position (board s)) mv)]).
Proof.
  destruct (apply_move_cases s u d) as [[Hv E] | (mv & Hm & _ & Hv & Hr & Hb & _)].
  - rewrite E, Hv. cbn [fst snd]. split; [split; discriminate | discriminate].
  - rewrite Hr, Hv. split; [split; reflexivity|]. intros _. exists mv.
    split; [exact Hm|]. rewrite !move_list_uci_map, Hb. unfold push.
    cbn [move_stack]. rewrite map_app. reflexivity.
Qed.

(** A successful [apply_move] flushes the document: on a writable disk the
    notation file holds the export of the new document and no other file
    changes; when the file cannot be written the move is applied all the
    same and the disk is as before. *)
Theorem applied_move_is_saved (s : GameSession) (u : string) (d : Disk) :
  validate_move s u = true ->
  let r := apply_move s u d in
  r.1.1 = true /\
  (writable d = true ->
     files r.2 = <[pgn_path s := export (pgn_game r.1.2)]> (files d) /\
     forall path, path <> pgn_path s -> files r.2 !! path = files d !! path) /\
  (writable d = false -> r.2 = d).
Proof.
  intros Hv r. subst r. unfold apply_move, validate_move in *.
  destruct (from_uci u) as [mv|]; [|discriminate]. rewrite Hv. cbn [negb].
  destruct (add_variation (pgn_game s) (pgn_node s) mv) as [g n]. cbn [fst snd].
  split; [reflexivity|]. unfold save_pgn, write_file. cbn [pgn_path pgn_game with_play].
  split.
  - intros ->. cbn [files]. split; [reflexivity|].
    intros path Hne. rewrite lookup_insert_ne by congruence. reflexivity.
  - intros ->. reflexivity.
Qed.

(** [set_result] changes the Result header and nothing of the game: board,
    move list and next ordinal are as before; on a writable disk the
    notation file is rewritten with the new header. *)
Theorem set_result_effects (s : GameSession) (res : string) (d : Disk) :
  let r := set_result s res d in
  headers (pgn_game r.1) !! "Result" = Some res /\
  (forall key, key <> "Result" ->
     headers (pgn_game r.1) !! key = headers (pgn_game s) !! key) /\
  board r.1 = board s /\ move_list_uci r.1 = move_list_uci s /\
  expected_move_num r.1 = expected_move_num s /\
  mainline_moves (pgn_game r.1) = mainline_moves (pgn_game s) /\
  (writable d = true ->
     files r.2 = <[pgn_path s := export (pgn_game r.1)]> (files d)) /\
  (writable d = false -> r.2 = d).
Proof.
  unfold set_result. cbn [fst snd pgn_game with_play headers board pgn_path].
  repeat apply conj; try reflexivity.
  - apply lookup_insert_eq.
  - intros key Hne. apply lookup_insert_ne. congruence.
  - unfold save_pgn, write_file. cbn [pgn_path with_play]. intros ->. reflexivity.
  - unfold save_pgn, write_file. intros ->. reflexivity.
Qed.

(** *** The headers of a new session *)

Lemma slice_app a b r :
  slice (String.length a) (String.length a + String.length b) (a +:+ b +:+ r) = b.
Proof.
  unfold slice. rewrite str_drop_app.
  replace (String.length a + String.length b - String.length a)%nat
    with (String.length b) by lia.
  apply str_take_app.
Qed.

(** A new session is at ordinal 1 with no moves; its document names the
    players by color in upper case, dates the game [YYYY.MM.DD] from the
    first eight digits of the game id, and leaves the result open. *)
Theorem new_session_headers (y mo dd hm local remote : string) (c : Color) :
  String.length y = 4%nat -> String.length mo = 2%nat -> String.length dd = 2%nat ->
  let s := new_session (y +:+ mo +:+ dd +:+ hm) local remote c in
  let h := headers (pgn_game s) in
  h !! "Date" = Some (y +:+ "." +:+ mo +:+ "." +:+ dd) /\
  h !! "White" = Some (upper (if decide (c = WHITE) then local else remote)) /\
  h !! "Black" = Some (upper (if decide (c = WHITE) then remote else local)) /\
  h !! "Result" = Some "*" /\ h !! "Event" = Some "JS8Chess Radio Game" /\
  expected_move_num s = 1 /\ move_list_uci s = [] /\
  mainline_moves (pgn_game s) = [].
Proof.
  intros Hy Hm Hd. cbv zeta.
  cbn [new_session pgn_game headers].
  assert (Hslice :
    slice 0 4 (y +:+ mo +:+ dd +:+ hm) = y /\
    slice 4 6 (y +:+ mo +:+ dd +:+ hm) = mo /\
    slice 6 8 (y +:+ mo +:+ dd +:+ hm) = dd).
  { pose proof (slice_app "" y (mo +:+ dd +:+ hm)) as H1.
    pose proof (slice_app y mo (dd +:+ hm)) as H2.
    pose proof (slice_app (y +:+ mo) dd hm) as H3.
    rewrite str_length_app, str_app_assoc in H3.
    rewrite Hy in H1. rewrite Hy, Hm in H2. rewrite Hy, Hm, Hd in H3.
    repeat apply conj; [exact H1 | exact H2 | exact H3]. }
  destruct Hslice as (-> & -> & ->).
  repeat apply conj; try reflexivity.
  - rewrite !lookup_insert_ne by discriminate. apply lookup_insert_eq.
  - rewrite !lookup_insert_ne by discriminate. apply lookup_insert_eq.
  - rewrite !lookup_insert_ne by discriminate. apply lookup_insert_eq.
  - apply lookup_insert_eq.
  - rewrite !lookup_insert_ne by discriminate. apply lookup_insert_eq.
Qed.

(** *** Restoring *)

(** A restore to a ply the file holds rebuilds the board from the first
    [n] moves of the file's main line and adopts the file's document, with
    the current node [n] moves down the main line. *)
Theorem restore_to_ply_replays_prefix
    (s : GameSession) (n : Z) (d : Disk) (text : string) (g : Game Move) :
  files d !! pgn_path s = Some text -> readable d = true ->
  read_game text = ReadGame g ->
  0 <= n <= Z.of_nat (length (mainline_moves g)) ->
  let r := restore_to_ply s n d in
  r.1 = true /\
  board r.2 = fold_left push (take (Z.to_nat n) (mainline_moves g)) new_board /\
  expected_move_num r.2 = n + 1 /\
  pgn_game r.2 = g /\ pgn_node r.2 = repeat O (Z.to_nat n) /\
  game_id r.2 = game_id s /\ local_color r.2 = local_color s.
Proof.
  intros Hf Hr Hg Hn r. subst r.
  destruct (restore_to_ply_cases s n d)
    as [[_ [H | [H | (t & H & H')]]] | (t & g' & Hf' & _ & Hg' & ->)].
  - congruence.
  - congruence.
  - assert (t = text) by congruence. subst t. destruct H'; congruence.
  - assert (t = text) by congruence. subst t.
    assert (g' = g) by congruence. subst g'. cbn [fst snd].
    pose proof (restored_stack_length s n g) as Hlen.
    unfold restored in *.
    rewrite (replay_spec n (mainline_moves g) new_board [] 0 (Z.to_nat n)) in * by lia.
    cbn [board with_play pgn_game pgn_node game_id local_color] in *.
    repeat apply conj; try reflexivity.
    unfold expected_move_num. cbn [board with_play]. lia.
Qed.

(** A restore fails exactly when the notation file is missing, cannot be
    opened, or gives no game when read; a failed restore leaves the session
    as it was. *)
Theorem restore_to_ply_fails_iff (s : GameSession) (n : Z) (d : Disk) :
  ((restore_to_ply s n d).1 = false <->
     files d !! pgn_path s = None \/ readable d = false \/
     exists text, files d !! pgn_path s = Some text /\
                  (read_game text = ReadRaises \/ read_game text = ReadNone))
  /\ ((restore_to_ply s n d).1 = false -> (restore_to_ply s n d).2 = s).
Proof.
  destruct (restore_to_ply_cases s n d)
    as [[-> H] | (t & g & Hf & Hr & Hg & ->)]; cbn [fst snd].
  - split; [split; [intros _; exact H | reflexivity] | reflexivity].
  - split; [|discriminate]. split; [discriminate|].
    intros [H | [H | (t' & H & H')]]; [congruence | congruence |].
    assert (t' = t) by congruence. subst t'. destruct H'; congruence.
Qed.

(** *** The document and the board *)

Lemma add_at_first (mv : Move) (cs rest : list (GameNode Move))
    (path : NodeRef) (m : Move) :
  add_at (Node mv cs :: rest) (O :: path) m =
  (Node mv (add_at cs path m).1 :: rest, (add_at cs path m).2).
Proof.
  simpl. destruct (add_at cs path m) as [cs' k]. reflexivity.
Qed.

Lemma add_at_main_line_end (vs : list (GameNode Move)) (path : NodeRef) (m : Move) :
  main_line_end vs path = true ->
  (add_at vs path m).2 = O /\
  main_line_end (add_at vs path m).1 (path ++ [O]) = true /\
  main_line (add_at vs path m).1 = main_line vs ++ [m] /\
  length path = length (main_line vs).
Proof.
  revert vs. induction path as [|i path IH]; intros vs H.
  - destruct vs; [|discriminate]. repeat apply conj; reflexivity.
  - cbn [main_line_end] in H. destruct i; [|discriminate].
    destruct vs as [|[mv cs] rest]; [discriminate|].
    destruct (IH cs H) as (Hk & He & Hm & Hl).
    rewrite add_at_first. cbn [fst snd].
    repeat apply conj.
    + exact Hk.
    + exact He.
    + change (main_line (Node mv (add_at cs path m).1 :: rest))
        with (mv :: main_line (add_at cs path m).1).
      rewrite Hm. reflexivity.
    + change (main_line (Node mv cs :: rest)) with (mv :: main_line cs).
      cbn [length]. rewrite Hl. reflexivity.
Qed.

(** While a game is only played (no resync), the document keeps step with
    the board: the current node is the end of the main line, the main line
    has one move per ply, and a successful [apply_move] appends its move to
    the main line. *)
Theorem document_follows_board (s : GameSession) (u : string) (d : Disk) :
  played s ->
  main_line_end (root (pgn_game s)) (pgn_node s) = true /\
  length (mainline_moves (pgn_game s)) = length (move_stack (board s)) /\
  length (pgn_node s) = length (move_stack (board s)) /\
  (forall mv, from_uci u = Some mv -> legal (position (board s)) mv = true ->
     mainline_moves (pgn_game (apply_move s u d).1.2)
     = mainline_moves (pgn_game s) ++ [mv]).
Proof.
  intros Hp.
  assert (Hinv : main_line_end (root (pgn_game s)) (pgn_node s) = true /\
                 length (mainline_moves (pgn_game s)) = length (move_stack (board s))).
  { clear u d. induction Hp as [gid l r c | s u d _ IH | s res d _ IH].
    - split; reflexivity.
    - destruct IH as [He Hl]. unfold apply_move.
      destruct (from_uci u) as [mv|]; [|split; assumption].
      destruct (negb _); [split; assumption|].
      destruct (add_at_main_line_end _ _ mv He) as (Hk & He' & Hm & _).
      unfold add_variation.
      destruct (add_at (root (pgn_game s)) (pgn_node s) mv) as [vs k].
      cbn [fst snd] in *. subst k.
      cbn [pgn_game pgn_node with_play root board]. split; [exact He'|].
      change (mainline_moves {| headers := headers (pgn_game s); root := vs |})
        with (main_line vs).
      rewrite Hm, length_app, push_stack_length.
      change (main_line (root (pgn_game s))) with (mainline_moves (pgn_game s)).
      rewrite Hl. simpl. lia.
    - exact IH. }
  destruct Hinv as [He Hl].
  repeat apply conj; [exact He | exact Hl | |].
  - destruct (pgn_node s) as [|i path] eqn:En.
    + destruct (root (pgn_game s)) eqn:Er; [|discriminate He].
      unfold mainline_moves in Hl. rewrite Er in Hl. exact Hl.
    + cbn [main_line_end] in He. destruct i; [|discriminate He].
      destruct (root (pgn_game s)) as [|[mv cs] rest] eqn:Er; [discriminate He|].
      assert (Hm : Move) by exact mv.
      destruct (add_at_main_line_end cs path Hm He) as (_ & _ & _ & Hlen).
      unfold mainline_moves in Hl. rewrite Er in Hl.
      change (mainline_node (Node mv cs)) with (mv :: main_line cs) in Hl.
      cbn [length] in *. lia.
  - intros mv Hm Hleg. unfold apply_move. rewrite Hm, Hleg. cbn [negb].
    destruct (add_at_main_line_end _ _ mv He) as (_ & _ & Hmain & _).
    unfold add_variation.
    destruct (add_at (root (pgn_game s)) (pgn_node s) mv) as [vs k].
    cbn [fst snd pgn_game with_play] in *. exact Hmain.
Qed.
End Session.
End SessionFacts.

(** ** More of the controller: negotiation, routing, the worker's other
    ways out, and what never happens *)

Module ControllerFacts.
Import PyStr PyStrFacts Protocol ProtocolFacts CodecFacts Chess Fs Game GameFacts Engine EngineFacts.

Section Controller.
Context {lib : Lib}.
Variable cfg : Config.

Abbreviation L := (cfg_local_callsign cfg).
Abbreviation R := (cfg_remote_callsign cfg).

(** *** Negotiation *)

(** Our proposal accepted: in [PROPOSAL_SENT] an Acceptance with timestamp
    [ts] and the acceptor's color [c] starts the game, with a new session
    whose id is [ts] and whose local color is the other one; nothing is
    transmitted and the front-end's move list is forgotten. *)
Theorem acceptance_starts_game (msg : OTAMessage) (ts : string) (c : Color) (w : World) :
  state w = PROPOSAL_SENT ->
  timestamp msg = Some ts -> color msg = Some (color_letter c) ->
  let r := handle_acceptance cfg msg w in
  r.1 = Ok () /\ state r.2 = GAME_ACTIVE /\
  game r.2 = Some (new_session ts L R (other c)) /\
  sent r.2 = sent w /\ last_position_moves r.2 = [] /\
  disk r.2 = disk w /\ radio_queue r.2 = radio_queue w.
Proof.
  intros Hs Hts Hc. unfold handle_acceptance. rewrite Hs, Hts, Hc.
  rewrite bool_decide_eq_true_2 by reflexivity. cbn [negb].
  destruct c; cbn; repeat apply conj; reflexivity.
Qed.

(** An Acceptance in any other state is ignored: nothing changes. *)
Theorem acceptance_ignored (msg : OTAMessage) (w : World) :
  state w <> PROPOSAL_SENT -> handle_acceptance cfg msg w = (Ok (), w).
Proof.
  intros Hs. unfold handle_acceptance.
  rewrite bool_decide_eq_false_2 by exact Hs. reflexivity.
Qed.

(** A proposal with auto-accept off is declined silently: nothing is
    transmitted, no session is created, one info line is printed, and the
    engine is left in [NO_GAME] whatever state it was in short of an
    active game (a proposal of our own that was pending is forgotten). *)
Theorem proposal_declined (msg : OTAMessage) (w : World) :
  auto_accept cfg = false -> state w <> GAME_ACTIVE ->
  let w' := handle_new_proposal cfg msg w in
  state w' = NO_GAME /\ game w' = game w /\ sent w' = sent w /\
  disk w' = disk w /\ radio_queue w' = radio_queue w /\
  last_position_moves w' = last_position_moves w /\
  uci_lines w' = uci_lines w ++
    ["info string Game proposal from " +:+ from_call msg
     +:+ " ignored (auto_accept is false in config)"].
Proof.
  intros Ha Hs. unfold handle_new_proposal.
  destruct (decide (state w = GAME_ACTIVE)); [contradiction|].
  rewrite Ha. cbn. repeat apply conj; reflexivity.
Qed.

(** [send_new_proposal]: short of an active game the engine moves to
    [PROPOSAL_SENT] and transmits [<remote> <local> JS8CHESS NEW <color>]
    with the color in upper case; during a game nothing happens. *)
Theorem send_new_proposal_effects (c : string) (w : World) :
  (state w = GAME_ACTIVE -> send_new_proposal cfg c w = w) /\
  (state w <> GAME_ACTIVE ->
     let w' := send_new_proposal cfg c w in
     state w' = PROPOSAL_SENT /\
     sent w' = sent w ++ [(upper R, R +:+ " " +:+ L +:+ " JS8CHESS NEW " +:+ upper c)] /\
     game w' = game w /\ disk w' = disk w /\ radio_queue w' = radio_queue w).
Proof.
  unfold send_new_proposal. split; intros Hs.
  - destruct (decide (state w = GAME_ACTIVE)); [reflexivity | contradiction].
  - destruct (decide (state w = GAME_ACTIVE)); [contradiction|].
    cbn. repeat apply conj; reflexivity.
Qed.

(** *** Routing of inbound frames *)

(** During a game every frame for us that is neither a proposal nor an
    acceptance is put at the back of the radio queue, and nothing else
    changes: no reply, no change of session or state. *)
Theorem active_frame_is_queued (from_call to_call text : string)
    (msg : OTAMessage) (w : World) :
  state w = GAME_ACTIVE ->
  parse_message text L R from_call = Some msg ->
  msg_type msg <> NEW_PROPOSAL -> msg_type msg <> ACCEPTANCE ->
  on_radio_message cfg from_call to_call text w =
  (Ok (), set_radio_queue (radio_queue w ++ [Item msg]) w).
Proof.
  intros Hs Hp Hn Ha. unfold on_radio_message. rewrite Hp.
  destruct (decide (msg_type msg = NEW_PROPOSAL)); [contradiction|].
  destruct (decide (msg_type msg = ACCEPTANCE)); [contradiction|].
  destruct (decide (state w = GAME_ACTIVE)); [reflexivity | contradiction].
Qed.

(** A frame that is not for us changes nothing. *)
Theorem foreign_frame_ignored (from_call to_call text : string) (w : World) :
  parse_message text L R from_call = None ->
  on_radio_message cfg from_call to_call text w = (Ok (), w).
Proof. intros Hp. unfold on_radio_message. rewrite Hp. reflexivity. Qed.

(** A resync request without a session is answered with ERR03. *)
Theorem resync_without_session (msg : OTAMessage) (w : World) :
  game w = None ->
  let r := handle_resync_request cfg msg w in
  r.1 = Ok () /\ replied cfg (fmt_error L R "ERR03") w r.2 /\
  fmt_error L R "ERR03" = R +:+ " " +:+ L +:+ " JS8CHESS ERR03 >".
Proof.
  intros Hg. unfold handle_resync_request. rewrite Hg. cbn [fst snd].
  split; [reflexivity|]. split; [apply send_error_replied | reflexivity].
Qed.

(** *** What never happens *)

Lemma handle_resync_request_ok (msg : OTAMessage) (w : World) :
  well_formed msg -> msg_type msg = RESYNC_REQUEST ->
  (handle_resync_request cfg msg w).1 = Ok ().
Proof.
  unfold well_formed. intros Hw Ht. rewrite Ht in Hw.
  destruct Hw as (ts & n & Hts & _ & Hn & _).
  unfold handle_resync_request. rewrite Hts, Hn.
  destruct (game w) as [g|]; [|reflexivity].
  destruct (negb _); [reflexivity|].
  destruct (restore_to_ply g (n - 1) (disk w)) as [ok g'].
  destruct (negb ok); reflexivity.
Qed.


(** Nor does the worker raise on an item that came from the codec. *)
Theorem parsed_item_never_raises (text from_call : string) (msg : OTAMessage) (w : World) :
  parse_message text L R from_call = Some msg ->
  exists r, (process_radio_item cfg msg w).1 = Ok r.
Proof.
  intros Hp. destruct (parse_message_fields _ _ _ _ _ Hp) as (_ & _ & Hw).
  unfold process_radio_item.
  destruct (msg_type msg) eqn:Ht; try (eexists; reflexivity).
  - unfold well_formed in Hw. rewrite Ht in Hw.
    destruct Hw as (n & m & _ & _ & -> & _).
    destruct (game w) as [g|]; [|eexists; reflexivity].
    destruct (negb _); [eexists; reflexivity|].
    destruct (negb _); [eexists; reflexivity|].
    destruct (apply_move g m (disk w)) as [[ok g'] d']. eexists; reflexivity.
  - pose proof (handle_resync_request_ok msg w Hw Ht) as Hr.
    destruct (handle_resync_request cfg msg w) as [r w']. cbn [fst] in Hr. subst r.
    eexists; reflexivity.
Qed.

(** *** The state and the session agree *)

Lemma consistent_ext (w w' : World) :
  state w' = state w -> (game w' = None <-> game w = None) ->
  consistent w -> consistent w'.
Proof. unfold consistent. intros Hs Hg. rewrite Hs. tauto. Qed.

Lemma consistent_active (w : World) :
  state w = GAME_ACTIVE -> game w <> None -> consistent w.
Proof. unfold consistent. tauto. Qed.

Lemma consistent_idle (w : World) :
  state w <> GAME_ACTIVE -> game w = None -> consistent w.
Proof. unfold consistent. intros Hs Hg. rewrite Hg. tauto. Qed.

Lemma consistent_no_game (w : World) :
  consistent w -> state w <> GAME_ACTIVE -> game w = None.
Proof.
  unfold consistent. intros Hc Hs.
  destruct (game w); [|reflexivity]. exfalso. apply Hs, Hc. discriminate.
Qed.

Lemma send_error_consistent code w :
  consistent w -> consistent (send_error cfg code w).
Proof. apply consistent_ext; reflexivity. Qed.

Lemma handle_resync_request_consistent msg w :
  consistent w -> consistent (handle_resync_request cfg msg w).2.
Proof.
  intros Hc. unfold handle_resync_request.
  destruct (game w) as [g|] eqn:Hg; [|apply send_error_consistent, Hc].
  destruct (negb _); [apply send_error_consistent, Hc|].
  destruct (resync_move_num msg) as [mn|]; [|exact Hc].
  destruct (restore_to_ply g (mn - 1) (disk w)) as [ok g'].
  assert (consistent (set_game (Some g') w)) as Hc'.
  { revert Hc. apply consistent_ext; [reflexivity|].
    cbn [game set_game]. rewrite Hg. split; discriminate. }
  destruct (negb ok); [apply send_error_consistent, Hc'|].
  revert Hc'. apply consistent_ext; reflexivity.
Qed.

Lemma process_radio_item_consistent msg w :
  consistent w -> consistent (process_radio_item cfg msg w).2.
Proof.
  intros Hc. unfold process_radio_item.
  destruct (msg_type msg); try exact Hc.
  - destruct (game w) as [g|] eqn:Hg; [|apply send_error_consistent, Hc].
    destruct (negb _); [apply send_error_consistent, Hc|].
    destruct (move msg) as [mv|]; [|exact Hc].
    destruct (negb _); [apply send_error_consistent, Hc|].
    destruct (apply_move g mv (disk w)) as [[ok g'] d'].
    revert Hc. apply consistent_ext; [reflexivity|].
    cbn [snd game uci_out set_disk set_game]. rewrite Hg. split; discriminate.
  - pose proof (handle_resync_request_consistent msg w Hc) as Hr.
    destruct (handle_resync_request cfg msg w) as [[|e] w']; exact Hr.
Qed.

Lemma handle_new_proposal_consistent msg w :
  consistent w -> consistent (handle_new_proposal cfg msg w).
Proof.
  intros Hc. unfold handle_new_proposal.
  destruct (decide (state w = GAME_ACTIVE)) as [|Hs]; [exact Hc|].
  destruct (negb (auto_accept cfg)).
  - apply consistent_idle; [discriminate|]. apply (consistent_no_game w Hc Hs).
  - apply consistent_active; [reflexivity | discriminate].
Qed.

Lemma handle_acceptance_consistent msg w :
  consistent w -> consistent (handle_acceptance cfg msg w).2.
Proof.
  intros Hc. unfold handle_acceptance.
  destruct (negb _); [exact Hc|].
  destruct (timestamp msg); [|exact Hc].
  apply consistent_active; [reflexivity | discriminate].
Qed.

Lemma on_radio_message_consistent f t x w :
  consistent w -> consistent (on_radio_message cfg f t x w).2.
Proof.
  intros Hc. unfold on_radio_message.
  destruct (parse_message x L R f) as [msg|]; [|exact Hc].
  destruct (decide (msg_type msg = NEW_PROPOSAL));
    [apply handle_new_proposal_consistent, Hc|].
  destruct (decide (msg_type msg = ACCEPTANCE));
    [apply handle_acceptance_consistent, Hc|].
  destruct (decide (state w = GAME_ACTIVE)).
  { revert Hc. apply consistent_ext; reflexivity. }
  destruct (decide (msg_type msg = RESYNC_REQUEST));
    [apply handle_resync_request_consistent, Hc | exact Hc].
Qed.

Lemma retransmit_consistent w :
  consistent w -> consistent (retransmit_last_local_move cfg w).
Proof.
  destruct (retransmit_keeps cfg w) as (Hs & Hg & _).
  apply consistent_ext; [exact Hs | rewrite Hg; reflexivity].
Qed.

Lemma dequeued_consistent item w :
  consistent w -> consistent (dequeued cfg item w).2.
Proof.
  intros Hc. destruct item as [|msg]; [exact Hc|]. unfold dequeued.
  pose proof (process_radio_item_consistent msg w Hc) as Hp.
  destruct (process_radio_item cfg msg w) as [[r|e] w']; exact Hp.
Qed.

Lemma await_loop_consistent evs : forall t wait r w,
  consistent w -> consistent (await_loop cfg evs t wait r w).2.
Proof.
  assert (Hdq : forall (evs : list Event) item q w, consistent w ->
    consistent (let '(r, w0) := dequeued cfg item (set_radio_queue q w)
                in (r, evs, w0)).2).
  { intros evs' item q w Hc.
    assert (consistent (set_radio_queue q w)) as Hc'
      by (revert Hc; apply consistent_ext; reflexivity).
    pose proof (dequeued_consistent item _ Hc') as Hd.
    destruct (dequeued cfg item (set_radio_queue q w)) as [r w0]. exact Hd. }
  induction evs as [|e evs IH]; intros t wait r w Hc; cbn [await_loop].
  - destruct (radio_queue w) as [|item q]; [exact Hc | apply Hdq, Hc].
  - destruct (radio_queue w) as [|item q]; [|apply Hdq, Hc].
    destruct e as [| |f to x].
    + destruct (go_stop_event w); [exact Hc|].
      destruct (_ && _).
      * destruct (0 <? r).
        -- destruct (_ <? 0); [apply retransmit_consistent, Hc|].
           apply IH, retransmit_consistent, Hc.
        -- revert Hc. apply consistent_ext; reflexivity.
      * destruct (_ <? 0); [exact Hc | apply IH, Hc].
    + apply IH. revert Hc. apply consistent_ext; reflexivity.
    + apply IH, on_radio_message_consistent, Hc.
Qed.

Lemma await_radio_move_consistent t evs w :
  consistent w -> consistent (await_radio_move cfg t evs w).2.
Proof.
  intros Hc. unfold await_radio_move.
  destruct (go_stop_event w); [exact Hc|].
  destruct (_ <? 0); [exact Hc | apply await_loop_consistent, Hc].
Qed.

Lemma apply_and_transmit_active g u w :
  state w = GAME_ACTIVE -> game w <> None ->
  state (apply_and_transmit_local_move cfg g u w).2 = GAME_ACTIVE /\
  game (apply_and_transmit_local_move cfg g u w).2 <> None.
Proof.
  intros Hs Hg. unfold apply_and_transmit_local_move.
  destruct (negb (validate_move g u)); [split; assumption|].
  destruct (apply_move g u (disk w)) as [[ok g'] d'].
  destruct (negb ok); [split; [exact Hs | discriminate]|].
  destruct (1 <=? max_retries cfg); (split; [exact Hs | discriminate]).
Qed.

Lemma transmit_new_moves_active ms : forall g w,
  state w = GAME_ACTIVE -> game w <> None ->
  state (transmit_new_moves cfg g ms w).2 = GAME_ACTIVE /\
  game (transmit_new_moves cfg g ms w).2 <> None.
Proof.
  induction ms as [|u ms IH]; intros g w Hs Hg; cbn [transmit_new_moves].
  - split; assumption.
  - pose proof (apply_and_transmit_active g u w Hs Hg) as Ha.
    destruct (apply_and_transmit_local_move cfg g u w) as [[ok g'] w'].
    cbn [snd] in Ha. destruct (negb ok); [exact Ha|].
    apply IH; apply Ha.
Qed.

Lemma go_play_consistent evs w :
  consistent w -> consistent (go_play cfg evs w).2.
Proof.
  intros Hc. unfold go_play.
  destruct (game w) as [g|] eqn:Hg.
  2: { revert Hc. apply consistent_ext; reflexivity. }
  destruct (negb _) eqn:Hs.
  { revert Hc. apply consistent_ext; reflexivity. }
  apply negb_false_iff, bool_decide_eq_true in Hs.
  assert (Hn : game w <> None) by (rewrite Hg; discriminate).
  pose proof (transmit_new_moves_active
                (drop (length (move_list_uci g)) (last_position_moves w))
                g w Hs Hn) as [Hs1 Hg1].
  destruct (transmit_new_moves cfg g _ w) as [ok w1]. cbn [snd] in Hs1, Hg1.
  pose proof (consistent_active w1 Hs1 Hg1) as Hc1.
  destruct (negb ok); [exact Hc1|].
  destruct (_ || _).
  { revert Hc1. apply consistent_ext; reflexivity. }
  assert (Hc2 : consistent
            (uci_out "info string Waiting for remote move via radio" w1))
    by (revert Hc1; apply consistent_ext; reflexivity).
  pose proof (await_radio_move_consistent None evs _ Hc2) as Ha.
  destruct (await_radio_move cfg None evs _) as [[[[[m|]|]|e] evs'] w2];
    cbn [snd] in Ha |- *; try exact Ha;
    revert Ha; apply consistent_ext; reflexivity.
Qed.

Lemma go_handler_consistent evs w :
  consistent w -> consistent (go_handler cfg evs w).2.
Proof.
  intros Hc. unfold go_handler.
  destruct (_ || _); [|apply go_play_consistent, Hc].
  assert (Hc2 : consistent
    (uci_out "info string Waiting for JS8Chess game to be established via radio" w))
    by (revert Hc; apply consistent_ext; reflexivity).
  pose proof (await_radio_move_consistent None evs _ Hc2) as Ha.
  destruct (await_radio_move cfg None evs _) as [[[[[m|]|]|e] evs'] w2];
    cbn [snd] in Ha |- *; try exact Ha.
  apply go_play_consistent, Ha.
Qed.

(** The engine has a session exactly when it is in [GAME_ACTIVE]: this
    holds at start-up and every entry point keeps it, whatever arrives
    (the bridge's callback, the worker on a queue item, a whole [go]
    under any events, [ucinewgame], [position], a proposal of our own). *)
Theorem state_and_session_agree (w : World) :
  (forall d t, consistent (init d t)) /\
  (consistent w ->
   (forall f t x, consistent (on_radio_message cfg f t x w).2) /\
   (forall msg, consistent (process_radio_item cfg msg w).2) /\
   (forall evs, consistent (handle_go cfg evs w).2) /\
   (forall c, consistent (send_new_proposal cfg c w)) /\
   (forall tokens, consistent (handle_position tokens w)) /\
   consistent (uci_new_game w)).
Proof.
  split.
  { intros d t. apply consistent_idle; [discriminate | reflexivity]. }
  intros Hc. refine (conj _ (conj _ (conj _ (conj _ (conj _ _))))).
  - intros f t x. apply on_radio_message_consistent, Hc.
  - intros msg. apply process_radio_item_consistent, Hc.
  - intros evs. unfold handle_go. apply go_handler_consistent.
    revert Hc. apply consistent_ext; reflexivity.
  - intros c. unfold send_new_proposal.
    destruct (decide (state w = GAME_ACTIVE)) as [|Hs]; [exact Hc|].
    apply consistent_idle; [discriminate|]. apply (consistent_no_game w Hc Hs).
  - intros [|tok toks]; [exact Hc|].
    revert Hc. apply consistent_ext; reflexivity.
  - apply consistent_idle; [discriminate | reflexivity].
Qed.

(** *** The worker's other ways out *)

Lemma await_loop_stop evs t wait r w :
  radio_queue w = [] ->
  await_loop cfg (Stop :: evs) t wait r w =
  await_loop cfg evs t wait r (set_go_stop_event true w).
Proof. intros Hq. cbn [await_loop]. rewrite Hq. reflexivity. Qed.

Lemma await_loop_stopped evs t wait r w :
  radio_queue w = [] -> go_stop_event w = true ->
  await_loop cfg (Timeout :: evs) t wait r w = (Ok (Returned None), evs, w).
Proof. intros Hq Hs. cbn [await_loop]. rewrite Hq, Hs. reflexivity. Qed.

Lemma quiet_polls k :
  0 <= move_response_wait_seconds cfg -> (k < polls_per_cycle cfg)%nat ->
  5 * Z.of_nat k < move_response_wait_seconds cfg \/ k = O.
Proof.
  intros Hw Hk. destruct (polls_per_cycle_bounds cfg Hw) as (_ & _ & [H|H]).
  - left. lia.
  - right. lia.
Qed.

(** A [stop] while the worker waits for the remote move: after any
    number of quiet polls short of a retry cycle, the stop event is seen
    at the next poll and the worker answers [bestmove 0000]; nothing is
    transmitted and the session stays as it was. *)
Theorem stop_ends_worker (k : nat) (evs : list Event) (g : GameSession) (w : World) :
  state w = GAME_ACTIVE -> game w = Some g ->
  drop (length (move_list_uci g)) (last_position_moves w) = [] ->
  radio_queue w = [] -> 0 <= move_response_wait_seconds cfg ->
  (k < polls_per_cycle cfg)%nat ->
  let r := handle_go cfg (repeat Timeout k ++ Stop :: Timeout :: evs) w in
  r.1 = (Ok (Returned ()), evs) /\
  uci_lines r.2 = uci_lines w ++
    ["info string Waiting for remote move via radio"; "bestmove 0000"] /\
  sent r.2 = sent w /\ game r.2 = Some g /\ state r.2 = GAME_ACTIVE /\
  disk r.2 = disk w /\ go_stop_event r.2 = true.
Proof.
  intros Hs Hg Hd Hq Hw Hk. cbv zeta. unfold handle_go, go_handler.
  cbn [state set_go_stop_event]. rewrite Hs.
  rewrite !bool_decide_eq_false_2 by discriminate. cbn [orb].
  rewrite (go_play_waits cfg _ _ g) by assumption.
  unfold await_radio_move. cbn [go_stop_event uci_out set_go_stop_event default].
  destruct (Z.ltb_spec (move_response_wait_seconds cfg) 0) as [?|_]; [lia|].
  rewrite await_loop_quiet by (first [exact Hq | reflexivity | apply quiet_polls; assumption]).
  rewrite await_loop_stop by exact Hq.
  rewrite await_loop_stopped by (first [exact Hq | reflexivity]).
  cbn. rewrite <- app_assoc. repeat apply conj; first [reflexivity | assumption].
Qed.

(** A move from the front-end that is not legal in the session's position
    is refused: the worker prints the error and [bestmove 0000] and
    returns without waiting; nothing is transmitted and neither session
    nor disk changes. *)
Theorem invalid_local_move_refused (evs : list Event) (g : GameSession)
    (u : string) (rest : list string) (w : World) :
  state w = GAME_ACTIVE -> game w = Some g ->
  drop (length (move_list_uci g)) (last_position_moves w) = u :: rest ->
  validate_move g u = false ->
  let r := handle_go cfg evs w in
  r.1 = (Ok (Returned ()), evs) /\
  uci_lines r.2 = uci_lines w ++
    ["info string ERROR: invalid local move " +:+ u; "bestmove 0000"] /\
  sent r.2 = sent w /\ game r.2 = Some g /\ disk r.2 = disk w /\
  state r.2 = GAME_ACTIVE.
Proof.
  intros Hs Hg Hd Hv. cbv zeta. unfold handle_go, go_handler.
  cbn [state set_go_stop_event]. rewrite Hs.
  rewrite !bool_decide_eq_false_2 by discriminate. cbn [orb].
  unfold go_play. cbn [game state last_position_moves set_go_stop_event].
  rewrite Hg, Hs, Hd. rewrite bool_decide_eq_true_2 by reflexivity.
  cbn [negb transmit_new_moves]. unfold apply_and_transmit_local_move.
  rewrite Hv. cbn. rewrite <- app_assoc.
  repeat apply conj; first [reflexivity | assumption].
Qed.

(** With [max_retries] below one the loop over the attempts has no
    round: a legal local move is applied and announced to the front-end,
    and the call reports success, but no frame is handed to the bridge. *)
Theorem local_move_unsent_without_retries (g : GameSession) (u : string) (w : World) :
  max_retries cfg < 1 -> validate_move g u = true ->
  let r := apply_and_transmit_local_move cfg g u w in
  r.1.1 = true /\ sent r.2 = sent w /\
  game r.2 = Some r.1.2 /\
  expected_move_num r.1.2 = expected_move_num g + 1 /\
  uci_lines r.2 = uci_lines w ++
    ["info string TX: " +:+ fmt_move L R (expected_move_num g) u].
Proof.
  intros Hm Hv. cbv zeta. unfold apply_and_transmit_local_move. rewrite Hv.
  cbn [negb].
  destruct (apply_move_cases g u (disk w)) as [[Hf _] | (mv & _ & _ & _ & Hok & Hb & _)];
    [congruence|].
  destruct (apply_move g u (disk w)) as [[ok g'] d']. cbn [fst snd] in Hok, Hb.
  subst ok. cbn [negb].
  destruct (Z.leb_spec 1 (max_retries cfg)) as [?|_]; [lia|].
  cbn. repeat apply conj; try reflexivity.
  unfold expected_move_num. rewrite Hb, push_stack_length. lia.
Qed.

Lemma iter_retransmit_no_game n w :
  game w = None -> Nat.iter n (retransmit_last_local_move cfg) w = w.
Proof.
  intros Hg. induction n as [|n IH]; [reflexivity|].
  rewrite Nat.iter_succ, IH. unfold retransmit_last_local_move.
  rewrite Hg. reflexivity.
Qed.

(** [go] with no game and a silent radio does not wait for ever: the
    wait blocks through [max_retries + 1] retry cycles, in which nothing
    is transmitted, and then the worker reports that there was no
    response and answers [bestmove 0000]. *)
Theorem go_without_game_gives_up (w : World) :
  state w = NO_GAME -> game w = None -> radio_queue w = [] ->
  0 <= move_response_wait_seconds cfg -> 0 <= max_retries cfg ->
  let n := ((Z.to_nat (max_retries cfg) + 1) * polls_per_cycle cfg)%nat in
  (forall k, (k < n)%nat ->
     (handle_go cfg (repeat Timeout k) w).1.1 = Ok Blocked /\
     sent (handle_go cfg (repeat Timeout k) w).2 = sent w) /\
  (handle_go cfg (repeat Timeout n) w).1 = (Ok (Returned ()), []) /\
  uci_lines (handle_go cfg (repeat Timeout n) w).2 = uci_lines w ++
    ["info string Waiting for JS8Chess game to be established via radio";
     "info string ERROR: no response after max retries"; "bestmove 0000"] /\
  sent (handle_go cfg (repeat Timeout n) w).2 = sent w /\
  state (handle_go cfg (repeat Timeout n) w).2 = NO_GAME /\
  game (handle_go cfg (repeat Timeout n) w).2 = None.
Proof.
  intros Hs Hg Hq Hw Hm. cbv zeta.
  destruct (polls_per_cycle_bounds cfg Hw) as (Hp & _).
  set (w1 := uci_out "info string Waiting for JS8Chess game to be established via radio"
               (set_go_stop_event false w)).
  assert (Hgo : forall k, handle_go cfg (repeat Timeout k) w =
    match await_loop cfg (repeat Timeout k) None (move_response_wait_seconds cfg)
            (Z.of_nat (Z.to_nat (max_retries cfg))) w1 with
    | (Ok (Returned None), evs, w) =>
        (Ok (Returned ()), evs, uci_out "bestmove 0000" w)
    | (Ok (Returned (Some _)), evs, w) => go_play cfg evs w
    | (Ok Blocked, evs, w) => (Ok Blocked, evs, w)
    | (Raise e, evs, w) => (Raise e, evs, w)
    end).
  { intros k. unfold handle_go, go_handler. cbn [state set_go_stop_event].
    rewrite Hs. rewrite bool_decide_eq_true_2 by reflexivity. cbn [orb].
    unfold await_radio_move. cbn [go_stop_event uci_out set_go_stop_event default].
    destruct (Z.ltb_spec (move_response_wait_seconds cfg) 0) as [?|_]; [lia|].
    rewrite Z2Nat.id by exact Hm. reflexivity. }
  assert (Hq1 : radio_queue w1 = []) by exact Hq.
  assert (Hs1 : go_stop_event w1 = false) by reflexivity.
  assert (Hg1 : game w1 = None) by exact Hg.
  split.
  - intros k Hk. rewrite Hgo, (await_loop_timeouts cfg _ k w1 Hq1 Hs1 Hw).
    assert (Hdiv : (k / polls_per_cycle cfg <= Z.to_nat (max_retries cfg))%nat).
    { apply Nat.lt_succ_r. apply Nat.Div0.div_lt_upper_bound. lia. }
    apply Nat.leb_le in Hdiv. rewrite Hdiv.
    rewrite iter_retransmit_no_game by exact Hg1. split; reflexivity.
  - rewrite Hgo, (await_loop_timeouts cfg _ _ w1 Hq1 Hs1 Hw).
    rewrite Nat.div_mul by lia.
    destruct (Nat.leb_spec (Z.to_nat (max_retries cfg) + 1) (Z.to_nat (max_retries cfg)))
      as [?|_]; [lia|].
    rewrite Nat.sub_diag, iter_retransmit_no_game by exact Hg1.
    cbn. rewrite <- !app_assoc. repeat apply conj; first [reflexivity | assumption].
Qed.

(** *** The front-end's position *)

Lemma after_moves_app (pre ms : list string) :
  "moves" ∉ pre -> after_moves (pre ++ "moves" :: ms) = ms.
Proof.
  induction pre as [|t pre IH]; intros Hn; [reflexivity|].
  cbn [app after_moves]. apply not_elem_of_cons in Hn as [Hne Hn].
  destruct (String.eqb_spec t "moves") as [->|_]; [contradiction|].
  apply IH, Hn.
Qed.

Lemma after_moves_absent (tokens : list string) :
  "moves" ∉ tokens -> after_moves tokens = [].
Proof.
  induction tokens as [|t ts IH]; intros Hn; [reflexivity|].
  cbn [after_moves]. apply not_elem_of_cons in Hn as [Hne Hn].
  destruct (String.eqb_spec t "moves") as [->|_]; [contradiction|].
  apply IH, Hn.
Qed.

(** [position]: what follows the first token [moves] is recorded in lower
    case, whatever precedes it; without that token the recorded list is
    emptied; with no tokens at all it is left alone.  Nothing else of the
    engine changes. *)
Theorem position_records_moves (pre ms : list string) (w : World) :
  "moves" ∉ pre ->
  last_position_moves (handle_position (pre ++ "moves" :: ms) w) = map lower ms /\
  (pre <> [] -> last_position_moves (handle_position pre w) = []) /\
  handle_position [] w = w /\
  (forall tokens, let w' := handle_position tokens w in
     state w' = state w /\ game w' = game w /\ sent w' = sent w /\
     uci_lines w' = uci_lines w /\ radio_queue w' = radio_queue w).
Proof.
  intros Hn. repeat apply conj.
  - unfold handle_position.
    destruct (pre ++ "moves" :: ms) eqn:E; [destruct pre; discriminate|].
    rewrite <- E. cbn [last_position_moves set_last_position_moves].
    rewrite after_moves_app by exact Hn. reflexivity.
  - intros Hne. destruct pre as [|t pre]; [contradiction|].
    unfold handle_position. cbn [last_position_moves set_last_position_moves].
    rewrite after_moves_absent by exact Hn. reflexivity.
  - reflexivity.
  - intros [|t ts]; cbn; repeat apply conj; reflexivity.
Qed.
End Controller.
End ControllerFacts.

(** ** Two stations: the acceptance handshake *)

Module HandshakeFacts.
Import PyStr PyStrFacts Protocol ProtocolFacts Chess Fs Game GameFacts Engine EngineFacts.

Section Handshake.
Context {lib : Lib}.
Variables cfgA cfgB : Config.

Lemma parse_message_from_remote text l r f :
  upper f = upper r -> parse_message text l r f = parse_message text l r "".
Proof.
  intros Hf. unfold parse_message. cbv zeta.
  assert (E : negb (String.eqb f "") && negb (String.eqb (upper f) (upper r)) = false).
  { rewrite Hf, String.eqb_refl. apply andb_false_r. }
  rewrite E. reflexivity.
Qed.

Lemma parse_fmt_acceptance_peer a b ts c :
  is_callsign a = true -> is_callsign b = true ->
  is_timestamp ts = true -> c = "W" \/ c = "B" ->
  parse_message (fmt_acceptance a b ts c) b a a =
  Some {| from_call := a; to_call := b; msg_type := ACCEPTANCE;
          color := Some c; timestamp := Some ts; move_num := None;
          move := None; error_code := None; resync_move_num := None |}.
Proof.
  intros Ha Hb Hts Hc. rewrite parse_message_from_remote by reflexivity.
  unfold fmt_acceptance.
  assert (Hup : upper c = c) by (destruct Hc as [-> | ->]; reflexivity).
  rewrite Hup.
  assert (He : ends_nonspace (" " +:+ c) = true)
    by (destruct Hc as [-> | ->]; reflexivity).
  destruct (timestamp_strip ts (" " +:+ c) Hts He) as [Hs Hends].
  rewrite (parse_message_directed a b _ Ha Hb Hends), Hs.
  rewrite upper_app, Hup. change (upper " ") with " ".
  f_equal. exact (parse_payload_acceptance a b ts c Hts Hc).
Qed.

(** Station A auto-accepts a proposal in which the peer takes color [c];
    the acceptance frame A transmits, delivered to station B (configured
    with the two callsigns the other way round) while B's own proposal is
    pending, starts B's game.  The two sessions then carry the same game
    id, which is A's clock reading, opposite local colors, each other's
    callsigns, and the same PGN headers; B transmits nothing in reply. *)
Theorem acceptance_handshake (msg : OTAMessage) (c : Color) (to_call : string)
    (wA wB : World) :
  is_callsign (cfg_local_callsign cfgA) = true ->
  is_callsign (cfg_remote_callsign cfgA) = true ->
  cfg_local_callsign cfgB = cfg_remote_callsign cfgA ->
  cfg_remote_callsign cfgB = cfg_local_callsign cfgA ->
  auto_accept cfgA = true -> state wA <> GAME_ACTIVE -> valid_clock (clock wA) ->
  color msg = Some (color_letter c) ->
  state wB = PROPOSAL_SENT ->
  let wA' := handle_new_proposal cfgA msg wA in
  exists frame gA gB,
    sent wA' = sent wA ++ [(upper (cfg_remote_callsign cfgA), frame)] /\
    game wA' = Some gA /\ state wA' = GAME_ACTIVE /\
    let rB := on_radio_message cfgB (cfg_local_callsign cfgA) to_call frame wB in
    rB.1 = Ok () /\ game rB.2 = Some gB /\ state rB.2 = GAME_ACTIVE /\
    sent rB.2 = sent wB /\
    game_id gB = game_id gA /\ game_id gA = now_timestamp (clock wA) /\
    local_color gA = other c /\ local_color gB = c /\
    local_callsign gB = remote_callsign gA /\
    remote_callsign gB = local_callsign gA /\
    headers (pgn_game gB) = headers (pgn_game gA).
Proof.
  intros Ha Hb HlB HrB Hauto HsA Hclk Hcol HsB. cbv zeta.
  pose proof (now_timestamp_is_timestamp _ Hclk) as Hts.
  set (ts := now_timestamp (clock wA)) in *.
  set (a := cfg_local_callsign cfgA) in *.
  set (b := cfg_remote_callsign cfgA) in *.
  exists (fmt_acceptance a b ts (color_letter (other c))),
         (new_session ts a b (other c)), (new_session ts b a c).
  assert (HwA : sent (handle_new_proposal cfgA msg wA)
                = sent wA ++ [(upper b, fmt_acceptance a b ts (color_letter (other c)))]
                /\ game (handle_new_proposal cfgA msg wA)
                   = Some (new_session ts a b (other c))
                /\ state (handle_new_proposal cfgA msg wA) = GAME_ACTIVE).
  { unfold handle_new_proposal.
    destruct (decide (state wA = GAME_ACTIVE)); [contradiction|].
    rewrite Hauto, Hcol. cbn [negb].
    destruct c; cbn; repeat apply conj; reflexivity. }
  destruct HwA as (H1 & H2 & H3).
  split; [exact H1|]. split; [exact H2|]. split; [exact H3|].
  assert (HB : on_radio_message cfgB a to_call
                 (fmt_acceptance a b ts (color_letter (other c))) wB
               = handle_acceptance cfgB
                   {| from_call := a; to_call := b; msg_type := ACCEPTANCE;
                      color := Some (color_letter (other c));
                      timestamp := Some ts; move_num := None;
                      move := None; error_code := None;
                      resync_move_num := None |} wB).
  { unfold on_radio_message. rewrite HlB, HrB. fold a b.
    rewrite parse_fmt_acceptance_peer; try assumption.
    2: { destruct c; [right | left]; reflexivity. }
    reflexivity. }
  rewrite HB. unfold handle_acceptance. rewrite HsB, HlB, HrB. fold a b.
  rewrite bool_decide_eq_true_2 by reflexivity.
  cbn [negb timestamp color].
  destruct c; cbn; repeat apply conj; reflexivity.
Qed.
End Handshake.
End HandshakeFacts.

(** ** The bridge: reassembling lines and dispatching events *)

Module BridgeFacts.
Import PyStr PyStrFacts Protocol ProtocolFacts Chess Fs Game Engine Bridge.

Lemma find_char_lower c s : -1 <= find_char c s.
Proof.
  induction s as [|a s IH]; cbn [find_char]; [lia|].
  destruct (Ascii.eqb a c); [lia|].
  destruct (Z.eqb_spec (find_char c s) (-1)); lia.
Qed.

Lemma find_char_split c s :
  find_char c s <> -1 ->
  exists l r, s = l +:+ String c r /\ find_char c l = -1.
Proof.
  induction s as [|a s IH]; cbn [find_char]; [contradiction|].
  destruct (Ascii.eqb_spec a c) as [->|Hne].
  - intros _. exists "", s. split; reflexivity.
  - destruct (Z.eqb_spec (find_char c s) (-1)) as [|Hs]; [contradiction|].
    intros _. destruct (IH Hs) as (l & r & -> & Hl).
    exists (String a l), r. split; [rewrite str_app_cons; reflexivity|].
    cbn [find_char]. apply Ascii.eqb_neq in Hne. rewrite Hne, Hl. reflexivity.
Qed.

Lemma find_char_found c l r :
  find_char c l = -1 -> find_char c (l +:+ String c r) = Z.of_nat (String.length l).
Proof.
  induction l as [|a l IH]; intros H.
  - rewrite str_app_nil_l. cbn [find_char]. rewrite Ascii.eqb_refl. reflexivity.
  - cbn [find_char] in H. rewrite str_app_cons. cbn [find_char String.length].
    destruct (Ascii.eqb a c); [discriminate|].
    destruct (Z.eqb_spec (find_char c l) (-1)) as [E|E].
    2: { pose proof (find_char_lower c l). lia. }
    rewrite (IH E).
    destruct (Z.eqb_spec (Z.of_nat (String.length l)) (-1)); lia.
Qed.

Section Bridge.
Context {lib : Lib}.
Variable cfg : Config.
Variable loads : string -> option Json.

Abbreviation loop := (process_buffer_loop cfg loads).

Lemma loop_no_newline fuel s w :
  find_char NL s = -1 -> loop fuel s w = (Ok (), s, w).
Proof. intros H. destruct fuel; cbn [process_buffer_loop]; [|rewrite H]; reflexivity. Qed.

(** One round of the loop on a buffer that holds a line. *)
Lemma loop_line fuel l r w :
  find_char NL l = -1 ->
  loop (S fuel) (l +:+ String NL r) w =
  if String.eqb (strip l) "" then loop fuel r w
  else match dispatch cfg loads (strip l) w with
       | (Ok _, w') => loop fuel r w'
       | (Raise e, w') => (Raise e, r, w')
       end.
Proof.
  intros H. cbn [process_buffer_loop]. cbv zeta.
  rewrite (find_char_found NL l r H).
  destruct (Z.eqb_spec (Z.of_nat (String.length l)) (-1)) as [?|_]; [lia|].
  rewrite Nat2Z.id. unfold slice. rewrite Nat.sub_0_r. cbn [str_drop].
  rewrite str_take_app.
  replace (l +:+ String NL r) with ((l +:+ String NL "") +:+ r)
    by (rewrite str_app_assoc, str_app_cons, str_app_nil_l; reflexivity).
  replace (String.length l + 1)%nat with (String.length (l +:+ String NL ""))
    by (rewrite str_length_app; reflexivity).
  rewrite str_drop_app. reflexivity.
Qed.

Lemma length_line l r :
  String.length (l +:+ String NL r) = S (String.length l + String.length r).
Proof. rewrite str_length_app. cbn [String.length]. lia. Qed.

(** Any fuel from the length of the buffer on gives the same run. *)
Lemma fuel_enough fuel1 : forall fuel2 s w,
  (String.length s <= fuel1)%nat -> (String.length s <= fuel2)%nat ->
  loop fuel1 s w = loop fuel2 s w.
Proof.
  induction fuel1 as [|fuel1 IH]; intros fuel2 s w H1 H2.
  - destruct s; [|cbn in H1; lia]. rewrite !loop_no_newline; reflexivity.
  - destruct (Z.eq_dec (find_char NL s) (-1)) as [E|E].
    { rewrite !loop_no_newline by exact E. reflexivity. }
    destruct (find_char_split NL s E) as (l & r & -> & Hl).
    rewrite length_line in H1, H2.
    destruct fuel2 as [|fuel2]; [lia|].
    rewrite !loop_line by exact Hl.
    destruct (String.eqb (strip l) ""); [apply IH; lia|].
    destruct (dispatch cfg loads (strip l) w) as [[[]|e] w']; [apply IH; lia | reflexivity].
Qed.

Lemma loop_app fuel : forall s w buf' w',
  (String.length s <= fuel)%nat -> loop fuel s w = (Ok (), buf', w') ->
  forall b f1 f2,
    (String.length (s +:+ b) <= f1)%nat -> (String.length (buf' +:+ b) <= f2)%nat ->
    loop f1 (s +:+ b) w = loop f2 (buf' +:+ b) w'.
Proof.
  induction fuel as [|fuel IH]; intros s w buf' w' Hlen Hrun b f1 f2 H1 H2.
  - destruct s; [|cbn in Hlen; lia].
    rewrite loop_no_newline in Hrun by reflexivity. injection Hrun as <- <-.
    apply fuel_enough; assumption.
  - destruct (Z.eq_dec (find_char NL s) (-1)) as [E|E].
    { rewrite loop_no_newline in Hrun by exact E. injection Hrun as <- <-.
      apply fuel_enough; assumption. }
    destruct (find_char_split NL s E) as (l & r & -> & Hl).
    rewrite length_line in Hlen.
    rewrite loop_line in Hrun by exact Hl.
    rewrite str_app_assoc, str_app_cons in H1 |- *.
    rewrite length_line in H1.
    destruct f1 as [|f1]; [lia|].
    rewrite loop_line by exact Hl.
    rewrite str_length_app in H1.
    destruct (String.eqb (strip l) "").
    { apply (IH r w buf' w'); [lia | exact Hrun | rewrite str_length_app; lia | exact H2]. }
    destruct (dispatch cfg loads (strip l) w) as [[[]|e] w1]; [|discriminate].
    apply (IH r w1 buf' w'); [lia | exact Hrun | rewrite str_length_app; lia | exact H2].
Qed.

Lemma loop_leftover fuel : forall s w buf' w',
  (String.length s <= fuel)%nat -> loop fuel s w = (Ok (), buf', w') ->
  find_char NL buf' = -1.
Proof.
  induction fuel as [|fuel IH]; intros s w buf' w' Hlen Hrun.
  - destruct s; [|cbn in Hlen; lia].
    rewrite loop_no_newline in Hrun by reflexivity. injection Hrun as <- <-.
    reflexivity.
  - destruct (Z.eq_dec (find_char NL s) (-1)) as [E|E].
    { rewrite loop_no_newline in Hrun by exact E. injection Hrun as <- <-. exact E. }
    destruct (find_char_split NL s E) as (l & r & -> & Hl).
    rewrite length_line in Hlen.
    rewrite loop_line in Hrun by exact Hl.
    destruct (String.eqb (strip l) "").
    { apply (IH r w buf' w'); [lia | exact Hrun]. }
    destruct (dispatch cfg loads (strip l) w) as [[[]|e] w1]; [|discriminate].
    apply (IH r w1 buf' w'); [lia | exact Hrun].
Qed.

Lemma is_ascii_app a b :
  is_ascii a = true -> is_ascii b = true -> is_ascii (a +:+ b) = true.
Proof. unfold is_ascii. intros Ha Hb. rewrite sall_app, Ha, Hb. reflexivity. Qed.

(** A stream of ASCII bytes may be cut anywhere: receiving [a] and then
    [b] does what receiving [a +:+ b] at once does, as long as no dispatch
    raised on the way.  The decoder is any function that, like UTF-8
    decoding, leaves bytes below 128 as they are; on other bytes a cut
    inside a character can change the decoded text. *)
Theorem receive_in_chunks (decode : string -> string)
    (a b buf buf' : string) (w w' : World) :
  (forall s, is_ascii s = true -> decode s = s) ->
  is_ascii a = true -> is_ascii b = true ->
  receive_bytes cfg loads decode a buf w = (Ok (), buf', w') ->
  receive_bytes cfg loads decode (a +:+ b) buf w =
  receive_bytes cfg loads decode b buf' w'.
Proof.
  intros Hdec Ha Hb. unfold receive_bytes.
  rewrite (Hdec a Ha), (Hdec b Hb), (Hdec _ (is_ascii_app a b Ha Hb)).
  unfold receive, process_buffer. intros Hrun.
  rewrite <- str_app_assoc.
  apply (loop_app _ _ _ _ _ (Nat.le_refl _) Hrun); apply Nat.le_refl.
Qed.

(** What stays in the buffer after a run that did not raise holds no
    newline, so the fuel never cuts the loop short; and data without a
    newline is only kept: nothing is dispatched. *)
Theorem receive_leftover (data buf buf' : string) (w w' : World) :
  receive cfg loads data buf w = (Ok (), buf', w') ->
  find_char NL buf' = -1 /\
  (find_char NL (buf +:+ data) = -1 -> buf' = buf +:+ data /\ w' = w).
Proof.
  unfold receive, process_buffer. intros Hrun. split.
  - exact (loop_leftover _ _ _ _ _ (Nat.le_refl _) Hrun).
  - intros E. rewrite loop_no_newline in Hrun by exact E.
    injection Hrun as <- <-. split; reflexivity.
Qed.

(** *** Dispatch *)

Lemma get_selected2 k1 k2 fields s :
  selected [k1; k2] fields s ->
  (d ← get (JObj fields) k2 (JStr ""); get (JObj fields) k1 d) = Ok (JStr s).
Proof.
  cbn [selected get mbind res_bind].
  intros [-> | [-> [-> | [-> ->]]]]; reflexivity.
Qed.

Lemma get_selected3 k1 k2 k3 fields s :
  selected [k1; k2; k3] fields s ->
  (d ← get (JObj fields) k3 (JStr ""); d ← get (JObj fields) k2 d;
   get (JObj fields) k1 d) = Ok (JStr s).
Proof.
  cbn [selected get mbind res_bind].
  intros [-> | [-> [-> | [-> [-> | [-> ->]]]]]]; reflexivity.
Qed.

Lemma directed_fields_selected fields f t x :
  selected ["FROM"; "from"] fields f -> selected ["TO"; "to"] fields t ->
  selected ["TEXT"; "text"; "VALUE"] fields x ->
  directed_fields (JObj fields) = Ok (strip (upper f), strip (upper t), strip x).
Proof.
  intros Hf Ht Hx. apply get_selected2 in Hf, Ht. apply get_selected3 in Hx.
  unfold directed_fields. cbn [get mbind res_bind] in Hf, Ht, Hx |- *.
  injection Hf as Hf. injection Ht as Ht. injection Hx as Hx.
  rewrite Hf, Ht, Hx. reflexivity.
Qed.

(** A directed event of either type whose value is an object reaches
    the engine's callback with FROM and TO in upper case and stripped
    and TEXT stripped; each field is the entry of the first key present
    among its spellings (FROM, from; TO, to; TEXT, text, VALUE), or empty.
    The dispatch itself reports no error. *)
Theorem directed_event_reaches_callback (raw ty f t x : string)
    (items fields : list (string * Json)) (w : World) :
  loads raw = Some (JObj items) ->
  lookup "type" items = Some (JStr ty) ->
  ty = "RX.DIRECTED" \/ ty = "RX.DIRECTED.ME" ->
  lookup "value" items = Some (JObj fields) ->
  selected ["FROM"; "from"] fields f -> selected ["TO"; "to"] fields t ->
  selected ["TEXT"; "text"; "VALUE"] fields x ->
  dispatch cfg loads raw w =
  (Ok (), (on_radio_message cfg (strip (upper f)) (strip (upper t)) (strip x) w).2).
Proof.
  intros Hl Hty Hd Hv Hf Ht Hx. unfold dispatch. rewrite Hl.
  cbn [get]. rewrite Hty, Hv. cbn [from_option id].
  assert (is_directed (JStr ty) = true) as -> by (destruct Hd as [-> | ->]; reflexivity).
  rewrite (directed_fields_selected fields f t x Hf Ht Hx). reflexivity.
Qed.

(** Text that is not JSON, and an object of any other type, are passed
    over: the engine is not touched. *)
Theorem other_input_passed_over (raw : string) (w : World) :
  loads raw = None
  \/ (exists items, loads raw = Some (JObj items) /\
        is_directed (from_option id (JStr "") (lookup "type" items)) = false) ->
  dispatch cfg loads raw w = (Ok (), w).
Proof.
  unfold dispatch. intros [-> | (items & -> & Hd)]; [reflexivity|].
  cbn [get]. rewrite Hd. reflexivity.
Qed.

(** JSON that is not an object makes [_dispatch] raise, and so does a
    directed event whose value is not an object: the lookups are outside
    the [try]. *)
Theorem non_object_raises (raw : string) (msg : Json) (w : World) :
  loads raw = Some msg ->
  (forall items, msg <> JObj items)
  \/ (exists items ty v, msg = JObj items /\
        lookup "type" items = Some (JStr ty) /\
        (ty = "RX.DIRECTED" \/ ty = "RX.DIRECTED.ME") /\
        lookup "value" items = Some v /\ forall fields, v <> JObj fields) ->
  dispatch cfg loads raw w = (Raise "AttributeError", w).
Proof.
  intros Hl H. unfold dispatch. rewrite Hl.
  destruct H as [Hn | (items & ty & v & -> & Hty & Hd & Hv & Hn)].
  - destruct msg; try reflexivity. exfalso. exact (Hn _ eq_refl).
  - cbn [get]. rewrite Hty, Hv. cbn [from_option id].
    assert (is_directed (JStr ty) = true) as -> by (destruct Hd as [-> | ->]; reflexivity).
    destruct v; try reflexivity. exfalso. exact (Hn _ eq_refl).
Qed.

(** From the socket to the worker's queue: during a game, one complete
    line holding a directed event from the peer, whose text is a frame
    for us that neither proposes nor accepts a game, leaves the buffer
    empty and the parsed message at the back of the radio queue. *)
Theorem received_frame_is_queued (raw ty f t x : string)
    (items fields : list (string * Json)) (msg : OTAMessage) (w : World) :
  find_char NL raw = -1 -> strip raw <> "" ->
  loads (strip raw) = Some (JObj items) ->
  lookup "type" items = Some (JStr ty) ->
  ty = "RX.DIRECTED" \/ ty = "RX.DIRECTED.ME" ->
  lookup "value" items = Some (JObj fields) ->
  selected ["FROM"; "from"] fields f -> selected ["TO"; "to"] fields t ->
  selected ["TEXT"; "text"; "VALUE"] fields x ->
  state w = GAME_ACTIVE ->
  parse_message (strip x) (cfg_local_callsign cfg) (cfg_remote_callsign cfg)
    (strip (upper f)) = Some msg ->
  msg_type msg <> NEW_PROPOSAL -> msg_type msg <> ACCEPTANCE ->
  receive cfg loads (raw +:+ String NL "") "" w =
  (Ok (), "", set_radio_queue (radio_queue w ++ [Item msg]) w).
Proof.
  intros Hnl Hne Hl Hty Hd Hv Hf Ht Hx Hs Hp Hn Ha.
  unfold receive, process_buffer. rewrite str_app_nil_l, length_line.
  rewrite loop_line by exact Hnl.
  destruct (String.eqb_spec (strip raw) "") as [?|_]; [contradiction|].
  assert (Hdis : dispatch cfg loads (strip raw) w =
            (Ok (), set_radio_queue (radio_queue w ++ [Item msg]) w)).
  { unfold dispatch. rewrite Hl. cbn [get]. rewrite Hty, Hv. cbn [from_option id].
    assert (is_directed (JStr ty) = true) as -> by (destruct Hd as [-> | ->]; reflexivity).
    rewrite (directed_fields_selected fields f t x Hf Ht Hx).
    unfold on_radio_message. rewrite Hp.
    destruct (decide (msg_type msg = NEW_PROPOSAL)); [contradiction|].
    destruct (decide (msg_type msg = ACCEPTANCE)); [contradiction|].
    destruct (decide (state w = GAME_ACTIVE)); [reflexivity | contradiction]. }
  rewrite Hdis. apply loop_no_newline. reflexivity.
Qed.
End Bridge.
End BridgeFacts.

(** ** Runs of the session, the controller and the bridge *)

Module SessionRuns.
Import PyStr Protocol Chess Fs Game SessionFacts Book Scenario.
#[local] Existing Instance Book.lib.

Lemma session_identity_kept_witness :
  let s := (apply_move session0 "e2e4" empty_disk).1.2 in
  reachable s /\
  remote_color s = other (local_color s) /\
  local_color s <> remote_color s /\
  upper (local_callsign s) = local_callsign s /\
  upper (remote_callsign s) = remote_callsign s /\
  pgn_path s = PGN_DIR +:+ "/" +:+ remote_callsign s +:+ "-" +:+ game_id s +:+ ".pgn".
Proof.
  cbv zeta.
  assert (Hr : reachable (apply_move session0 "e2e4" empty_disk).1.2)
    by apply reach_apply, reach_new.
  split; [exact Hr|]. exact (session_identity_kept _ Hr).
Defined.

Lemma validated_move_is_appended_witness :
  validate_move session0 "e2e4" = true /\
  exists mv, from_uci "e2e4" = Some mv /\
    move_list_uci (apply_move session0 "e2e4" empty_disk).1.2 =
    move_list_uci session0 ++ [uci (stacked (position (board session0)) mv)].
Proof.
  assert (Hv : validate_move session0 "e2e4" = true) by (vm_compute; reflexivity).
  split; [exact Hv|].
  exact (proj2 (validated_move_is_appended session0 "e2e4" empty_disk) Hv).
Defined.

Lemma applied_move_is_saved_witness :
  validate_move session0 "e2e4" = true /\
  (apply_move session0 "e2e4" empty_disk).1.1 = true /\
  files (apply_move session0 "e2e4" empty_disk).2 =
  <[pgn_path session0 := export (pgn_game (apply_move session0 "e2e4" empty_disk).1.2)]>
    (files empty_disk).
Proof.
  assert (Hv : validate_move session0 "e2e4" = true) by (vm_compute; reflexivity).
  destruct (applied_move_is_saved session0 "e2e4" empty_disk Hv) as (H1 & H2 & _).
  split; [exact Hv|]. split; [exact H1|]. exact (proj1 (H2 eq_refl)).
Defined.

Lemma set_result_effects_witness :
  headers (pgn_game (set_result after2.1 "1-0" after2.2).1) !! "Result" = Some "1-0" /\
  move_list_uci (set_result after2.1 "1-0" after2.2).1 = move_list_uci after2.1.
Proof.
  destruct (set_result_effects after2.1 "1-0" after2.2) as (H1 & _ & _ & H4 & _).
  split; [exact H1 | exact H4].
Defined.

Lemma new_session_headers_witness :
  let h := headers (pgn_game (new_session "202506011430" "mm7mmu" "mm7xyz" BLACK)) in
  h !! "Date" = Some "2025.06.01" /\
  h !! "White" = Some "MM7XYZ" /\ h !! "Black" = Some "MM7MMU".
Proof.
  destruct (new_session_headers "2025" "06" "01" "1430" "mm7mmu" "mm7xyz" BLACK
              eq_refl eq_refl eq_refl) as (H1 & H2 & H3 & _).
  cbv zeta. split; [exact H1|]. split; [exact H2 | exact H3].
Defined.

Lemma restore_to_ply_replays_prefix_witness :
  files after4.2 !! pgn_path after4.1 = Some "e2e4 e7e5 d2d4 d7d5 *" /\
  (restore_to_ply after4.1 2 after4.2).1 = true /\
  expected_move_num (restore_to_ply after4.1 2 after4.2).2 = 3 /\
  pgn_node (restore_to_ply after4.1 2 after4.2).2 = [O; O].
Proof.
  assert (Hf : files after4.2 !! pgn_path after4.1 = Some "e2e4 e7e5 d2d4 d7d5 *")
    by (vm_compute; reflexivity).
  assert (Hg : read_game "e2e4 e7e5 d2d4 d7d5 *" =
               ReadGame {| headers := ∅; root := chain ["e2e4"; "e7e5"; "d2d4"; "d7d5"] |})
    by (vm_compute; reflexivity).
  assert (Hn : 0 <= 2 <= Z.of_nat (length (mainline_moves
             {| headers := ∅; root := chain ["e2e4"; "e7e5"; "d2d4"; "d7d5"] |})))
    by (vm_compute; split; discriminate).
  destruct (restore_to_ply_replays_prefix after4.1 2 after4.2 _ _ Hf eq_refl Hg Hn)
    as (H1 & _ & H3 & _ & H5 & _).
  split; [exact Hf|]. split; [exact H1|]. split; [exact H3 | exact H5].
Defined.

Lemma restore_to_ply_fails_iff_witness :
  files empty_disk !! pgn_path session0 = None /\
  (restore_to_ply session0 3 empty_disk).1 = false /\
  (restore_to_ply session0 3 empty_disk).2 = session0.
Proof.
  assert (Hf : files empty_disk !! pgn_path session0 = None) by (vm_compute; reflexivity).
  destruct (restore_to_ply_fails_iff session0 3 empty_disk) as (H1 & H2).
  assert (Hr : (restore_to_ply session0 3 empty_disk).1 = false)
    by (apply H1; left; exact Hf).
  split; [exact Hf|]. split; [exact Hr | exact (H2 Hr)].
Defined.

Lemma document_follows_board_witness :
  let s := (apply_move session0 "e2e4" empty_disk).1.2 in
  played s /\
  length (mainline_moves (pgn_game s)) = length (move_stack (board s)) /\
  mainline_moves (pgn_game (apply_move s "e7e5" empty_disk).1.2) =
  mainline_moves (pgn_game s) ++ ["e7e5"].
Proof.
  cbv zeta.
  assert (Hp : played (apply_move session0 "e2e4" empty_disk).1.2)
    by apply played_apply, played_new.
  destruct (document_follows_board _ "e7e5" empty_disk Hp) as (_ & H2 & _ & H4).
  split; [exact Hp|]. split; [exact H2|].
  apply H4; vm_compute; reflexivity.
Defined.
End SessionRuns.

Module ControllerRuns.
Import PyStr Protocol Chess Fs Game Engine ControllerFacts HandshakeFacts Book Scenario.
#[local] Existing Instance Book.lib.

Lemma acceptance_starts_game_witness :
  state (proposed cfg) = PROPOSAL_SENT /\
  let r := handle_acceptance cfg (acceptance_msg "202506011430" "B") (proposed cfg) in
  r.1 = Ok () /\ state r.2 = GAME_ACTIVE /\
  game r.2 = Some (new_session "202506011430" "CALLSIGN" "SWL" WHITE) /\
  sent r.2 = sent (proposed cfg).
Proof.
  assert (Hs : state (proposed cfg) = PROPOSAL_SENT) by (vm_compute; reflexivity).
  destruct (acceptance_starts_game cfg (acceptance_msg "202506011430" "B")
              "202506011430" BLACK (proposed cfg) Hs eq_refl eq_refl)
    as (H1 & H2 & H3 & H4 & _).
  cbv zeta. split; [exact Hs|]. split; [exact H1|]. split; [exact H2|].
  split; [exact H3 | exact H4].
Defined.

Lemma proposal_declined_witness :
  state (proposed manual_cfg) = PROPOSAL_SENT /\
  let w' := handle_new_proposal manual_cfg (proposal_msg "W") (proposed manual_cfg) in
  state w' = NO_GAME /\ game w' = None /\ sent w' = sent (proposed manual_cfg).
Proof.
  assert (Hs : state (proposed manual_cfg) = PROPOSAL_SENT) by (vm_compute; reflexivity).
  assert (Hn : state (proposed manual_cfg) <> GAME_ACTIVE)
    by (rewrite Hs; discriminate).
  destruct (proposal_declined manual_cfg (proposal_msg "W") (proposed manual_cfg)
              eq_refl Hn) as (H1 & H2 & H3 & _).
  cbv zeta. split; [exact Hs|]. split; [exact H1|]. split; [exact H2 | exact H3].
Defined.


Lemma parsed_item_never_raises_witness :
  parse_message "swl callsign js8chess rs 202506011430 mn=3" "CALLSIGN" "SWL" "SWL"
  = Some (resync_msg "202506011430" 3) /\
  exists r, (process_radio_item cfg (resync_msg "202506011430" 3) accepted).1 = Ok r.
Proof.
  assert (Hp : parse_message "swl callsign js8chess rs 202506011430 mn=3"
                 (cfg_local_callsign cfg) (cfg_remote_callsign cfg) "SWL"
               = Some (resync_msg "202506011430" 3)) by (vm_compute; reflexivity).
  split; [exact Hp|].
  exact (parsed_item_never_raises cfg _ _ _ accepted Hp).
Defined.

Lemma state_and_session_agree_witness :
  consistent fresh /\ consistent accepted /\ consistent positioned /\
  consistent (handle_go cfg [Timeout; Stop; Timeout] positioned).2.
Proof.
  assert (H0 : consistent fresh)
    by exact (proj1 (state_and_session_agree cfg fresh) empty_disk noon).
  assert (H1 : consistent accepted)
    by exact (proj1 (proj2 (state_and_session_agree cfg fresh) H0) _ _ _).
  destruct (proj2 (state_and_session_agree cfg accepted) H1) as (_ & _ & _ & _ & H5 & _).
  assert (H2 : consistent positioned) by exact (H5 _).
  destruct (proj2 (state_and_session_agree cfg positioned) H2) as (_ & _ & H3 & _).
  split; [exact H0|]. split; [exact H1|]. split; [exact H2 | exact (H3 _)].
Defined.

Lemma stop_ends_worker_witness :
  let w := in_game (after_plies ["e2e4"]) [] ["e2e4"] in
  let r := handle_go cfg (repeat Timeout 3 ++ [Stop; Timeout]) w in
  r.1 = (Ok (Returned ()), []) /\
  uci_lines r.2 = ["info string Waiting for remote move via radio"; "bestmove 0000"] /\
  sent r.2 = [].
Proof.
  cbv zeta.
  assert (Hd : drop (length (move_list_uci (after_plies ["e2e4"]).1)) ["e2e4"] = [])
    by (vm_compute; reflexivity).
  assert (Hw : 0 <= move_response_wait_seconds cfg) by (vm_compute; discriminate).
  assert (Hk : (3 < polls_per_cycle cfg)%nat) by (vm_compute; lia).
  destruct (stop_ends_worker cfg 3 [] (after_plies ["e2e4"]).1
              (in_game (after_plies ["e2e4"]) [] ["e2e4"])
              eq_refl eq_refl Hd eq_refl Hw Hk) as (H1 & H2 & H3 & _).
  split; [exact H1|]. split; [exact H2 | exact H3].
Defined.

Lemma invalid_local_move_refused_witness :
  let w := in_game (after_plies []) [] ["e2e5"] in
  validate_move our_session "e2e5" = false /\
  (handle_go cfg [] w).1 = (Ok (Returned ()), []) /\
  uci_lines (handle_go cfg [] w).2 =
    ["info string ERROR: invalid local move e2e5"; "bestmove 0000"] /\
  sent (handle_go cfg [] w).2 = [].
Proof.
  cbv zeta.
  assert (Hv : validate_move (after_plies []).1 "e2e5" = false) by (vm_compute; reflexivity).
  assert (Hd : drop (length (move_list_uci (after_plies []).1)) ["e2e5"] = ["e2e5"])
    by (vm_compute; reflexivity).
  destruct (invalid_local_move_refused cfg [] (after_plies []).1 "e2e5" []
              (in_game (after_plies []) [] ["e2e5"]) eq_refl eq_refl Hd Hv)
    as (H1 & H2 & H3 & _).
  split; [exact Hv|]. split; [exact H1|]. split; [exact H2 | exact H3].
Defined.

Lemma local_move_unsent_without_retries_witness :
  let w := in_game (after_plies []) [] ["e2e4"] in
  let r := apply_and_transmit_local_move no_retry_cfg our_session "e2e4" w in
  r.1.1 = true /\ sent r.2 = [] /\ expected_move_num r.1.2 = 2.
Proof.
  cbv zeta.
  assert (Hm : max_retries no_retry_cfg < 1) by (vm_compute; reflexivity).
  assert (Hv : validate_move our_session "e2e4" = true) by (vm_compute; reflexivity).
  destruct (local_move_unsent_without_retries no_retry_cfg our_session "e2e4"
              (in_game (after_plies []) [] ["e2e4"]) Hm Hv) as (H1 & H2 & _ & H4 & _).
  split; [exact H1|]. split; [exact H2 | exact H4].
Defined.

Lemma go_without_game_gives_up_witness :
  (handle_go cfg (repeat Timeout 95) fresh).1.1 = Ok Blocked /\
  (handle_go cfg (repeat Timeout 96) fresh).1 = (Ok (Returned ()), []) /\
  uci_lines (handle_go cfg (repeat Timeout 96) fresh).2 =
    ["info string Waiting for JS8Chess game to be established via radio";
     "info string ERROR: no response after max retries"; "bestmove 0000"] /\
  sent (handle_go cfg (repeat Timeout 96) fresh).2 = [].
Proof.
  assert (Hw : 0 <= move_response_wait_seconds cfg) by (vm_compute; discriminate).
  assert (Hm : 0 <= max_retries cfg) by (vm_compute; discriminate).
  destruct (go_without_game_gives_up cfg fresh eq_refl eq_refl eq_refl Hw Hm)
    as (Hk & H1 & H2 & H3 & _).
  split.
  { apply (Hk 95%nat). vm_compute. lia. }
  split; [exact H1|]. split; [exact H2 | exact H3].
Defined.

Lemma position_records_moves_witness :
  last_position_moves
    (handle_position ["startpos"; "moves"; "E2E4"; "e7e5"] accepted) = ["e2e4"; "e7e5"] /\
  last_position_moves (handle_position ["startpos"] positioned) = [].
Proof.
  assert (Hn : "moves" ∉ ["startpos"]).
  { apply not_elem_of_cons. split; [discriminate | apply not_elem_of_nil]. }
  split.
  - exact (proj1 (position_records_moves ["startpos"] ["E2E4"; "e7e5"] accepted Hn)).
  - apply (proj1 (proj2 (position_records_moves ["startpos"] [] positioned Hn))).
    discriminate.
Defined.

Lemma acceptance_handshake_witness :
  let wA' := handle_new_proposal cfg (proposal_msg "W") fresh in
  exists frame gA gB,
    sent wA' = sent fresh ++ [(upper "SWL", frame)] /\
    game wA' = Some gA /\ state wA' = GAME_ACTIVE /\
    let rB := on_radio_message peer_cfg "CALLSIGN" "SWL" frame (proposed peer_cfg) in
    rB.1 = Ok () /\ game rB.2 = Some gB /\ state rB.2 = GAME_ACTIVE /\
    sent rB.2 = sent (proposed peer_cfg) /\
    game_id gB = game_id gA /\ game_id gA = now_timestamp (clock fresh) /\
    local_color gA = other WHITE /\ local_color gB = WHITE /\
    local_callsign gB = remote_callsign gA /\
    remote_callsign gB = local_callsign gA /\
    headers (pgn_game gB) = headers (pgn_game gA).
Proof.
  assert (Hs : state fresh <> GAME_ACTIVE) by discriminate.
  assert (Hc : valid_clock (clock fresh)) by (vm_compute; intuition discriminate).
  assert (Hp : state (proposed peer_cfg) = PROPOSAL_SENT) by (vm_compute; reflexivity).
  exact (acceptance_handshake cfg peer_cfg (proposal_msg "W") WHITE "SWL" fresh
           (proposed peer_cfg) eq_refl eq_refl eq_refl eq_refl eq_refl Hs Hc eq_refl Hp).
Defined.
End ControllerRuns.

Module BridgeRuns.
Import PyStr Protocol Chess Fs Game Engine Bridge BridgeFacts Book Scenario.
#[local] Existing Instance Book.lib.

Lemma decode_ascii s : is_ascii s = true -> decode s = s.
Proof.
  unfold is_ascii, decode. induction s as [|c s IH]; [reflexivity|].
  cbn [sall smap]. intros [Hc Hs]%andb_true_iff.
  rewrite Hc, (IH Hs). reflexivity.
Qed.

Lemma receive_in_chunks_witness :
  let w := in_game (after_plies ["e2e4"]) [] ["e2e4"] in
  let a := str_take 40 event_text in
  let b := str_drop 40 event_text +:+ String NL "" in
  is_ascii a = true /\ is_ascii b = true /\
  receive_bytes cfg loads decode a "" w = (Ok (), a, w) /\
  receive_bytes cfg loads decode (a +:+ b) "" w = receive_bytes cfg loads decode b a w.
Proof.
  cbv zeta.
  generalize (in_game (after_plies ["e2e4"]) [] ["e2e4"]). intros w.
  assert (Ha : is_ascii (str_take 40 event_text) = true) by (vm_compute; reflexivity).
  assert (Hb : is_ascii (str_drop 40 event_text +:+ String NL "") = true)
    by (vm_compute; reflexivity).
  assert (H : receive_bytes cfg loads decode (str_take 40 event_text) "" w
              = (Ok (), str_take 40 event_text, w)).
  { unfold receive_bytes. rewrite (decode_ascii _ Ha).
    apply loop_no_newline. reflexivity. }
  split; [exact Ha|]. split; [exact Hb|]. split; [exact H|].
  exact (receive_in_chunks cfg loads decode _ _ _ _ _ _ decode_ascii Ha Hb H).
Defined.

Lemma receive_leftover_witness :
  let w := in_game (after_plies ["e2e4"]) [] ["e2e4"] in
  receive cfg loads (String NL "[1" +:+ String NL "  ") "" w = (Ok (), "  ", w) /\
  find_char NL "  " = -1.
Proof.
  cbv zeta.
  generalize (in_game (after_plies ["e2e4"]) [] ["e2e4"]). intros w.
  assert (H : receive cfg loads (String NL "[1" +:+ String NL "  ") "" w
              = (Ok (), "  ", w))
    by reflexivity.
  split; [exact H|]. exact (proj1 (receive_leftover cfg loads _ _ _ _ _ H)).
Defined.

Lemma non_object_raises_witness :
  loads "[1]" = Some (JArr [JNum "1"]) /\
  dispatch cfg loads "[1]" fresh = (Raise "AttributeError", fresh).
Proof.
  assert (H : loads "[1]" = Some (JArr [JNum "1"])) by (vm_compute; reflexivity).
  split; [exact H|].
  apply (non_object_raises cfg loads "[1]" _ fresh H). left. discriminate.
Defined.

Lemma received_frame_is_queued_witness :
  let w := in_game (after_plies ["e2e4"]) [] ["e2e4"] in
  let raw := "  " +:+ event_text +:+ String (ascii_of_nat 13) "" in
  strip raw = event_text /\
  receive cfg loads (raw +:+ String NL "") "" w =
  (Ok (), "", set_radio_queue [Item (move_msg 2 "e7e5")] w).
Proof.
  cbv zeta.
  set (raw := "  " +:+ event_text +:+ String (ascii_of_nat 13) "").
  assert (Hs : strip raw = event_text) by (vm_compute; reflexivity).
  split; [exact Hs|].
  apply (received_frame_is_queued cfg loads raw "RX.DIRECTED" "swl" "CALLSIGN"
           " swl callsign js8chess 2e7e5 "
           [("type", JStr "RX.DIRECTED");
            ("value", JObj [("FROM", JStr "swl"); ("TO", JStr "CALLSIGN");
                            ("TEXT", JStr " swl callsign js8chess 2e7e5 ")])]
           [("FROM", JStr "swl"); ("TO", JStr "CALLSIGN");
            ("TEXT", JStr " swl callsign js8chess 2e7e5 ")]
           (move_msg 2 "e7e5")).
  - vm_compute; reflexivity.
  - rewrite Hs. vm_compute. discriminate.
  - rewrite Hs. vm_compute. reflexivity.
  - reflexivity.
  - left; reflexivity.
  - reflexivity.
  - left; reflexivity.
  - left; reflexivity.
  - left; reflexivity.
  - reflexivity.
  - vm_compute; reflexivity.
  - discriminate.
  - discriminate.
Defined.
End BridgeRuns.
